(** * TrayTrack: priority/color engine and restock-task lifecycle

    A shallow embedding of the core of [main.py]: the pure priority and
    color functions, the relational store the endpoints work on, the
    endpoints themselves written in a small session monad, and the
    properties of the restock-task lifecycle.

    Conventions of the embedding.
    - Python [int] is [Z]; [Optional[T]] is [option T]; [str] is [string].
      The 64-bit range of the store's integer columns is not modelled.
    - Python [float] values (GPS coordinates, weekly case counts) are
      finite binary64 numbers; they are only stored and compared, so they
      are embedded as rationals [Q].
    - [datetime] values are [Z] ticks; the clock reading of a request is the
      parameter [now] of its endpoint.
    - A table is the list of its rows in insertion order; [.first()] is the
      first matching row, [.all()] the matching rows.  A new row gets a key
      above every key in use.
    - A SQLAlchemy session is a pair of stores: the committed one and the
      one the transaction sees.  The session autoflushes, so a query sees
      the writes made earlier in the same request.  Leaving
      [with Session(engine)] without a commit discards what is pending.
    - On the paths embedded here only [HTTPException] is raised, so the
      [except Exception] clauses of the endpoints stay unused.
    - The endpoints embedded in the session monad are the ones that write
      the tray, item, task and task-row tables: the two seed endpoints,
      drop-off, inventory check, full restock and partial restock; and the
      two that read them, [GET /trays/{id}] and [GET /trays].
    - A store is [reachable] when requests served one at a time lead to
      it from the empty store.  Two requests served at once by two threads
      are modelled apart, for the get-or-create of the open task: their
      statements interleave on the one connection of the engine.
    - The user, note, pin and doctor tables are written by endpoints of
      their own that touch no tray table; these are embedded as functions
      on their tables, an error being a result without a store.  The user
      table is one the program never creates.  [str.lower] and the names a
      note shows for what it is pinned to are parameters.
    - The standalone-item endpoints keep their state in a table of their
      own and read an untyped payload; they, the case and photo endpoints
      and the metrics are not embedded. *)

From Stdlib Require Import ZArith List Bool String Lia QArith.
From Stdlib Require Import Sorting Permutation.
Import ListNotations.
Local Open Scope Z_scope.

Set Implicit Arguments.

(* ================================================================= *)
(** ** Enums and constants *)

Inductive LocationType :=
| hospital | warehouse | vehicle | office | home | storage | other.

Inductive TrayStatus := ready | in_location | needs_restock.

Module RestockStatus.
Inductive t := open | closed.
End RestockStatus.

Definition COLOR_GREEN : string := "green".
Definition COLOR_BLUE : string := "blue".
Definition COLOR_YELLOW : string := "yellow".
Definition COLOR_ORANGE : string := "orange".
Definition COLOR_RED : string := "red".

Definition TrayStatus_eqb (a b : TrayStatus) : bool :=
  match a, b with
  | ready, ready | in_location, in_location | needs_restock, needs_restock => true
  | _, _ => false
  end.

Definition is_open (s : RestockStatus.t) : bool :=
  match s with RestockStatus.open => true | RestockStatus.closed => false end.

(* ================================================================= *)
(** ** Priority and color logic *)

(** [map_color], main.py l.419-431. *)
Definition map_color (priority_numeric : option Z) (partial ready : bool) : string :=
  if ready then COLOR_GREEN
  else
    let fallthrough := if partial then COLOR_BLUE else COLOR_GREEN in
    match priority_numeric with
    | Some n =>
        if n =? 1 then COLOR_RED
        else if n =? 2 then COLOR_ORANGE
        else if n =? 3 then COLOR_YELLOW
        else fallthrough
    | None => fallthrough
    end.

(** Python truthiness of an [Optional[bool]]. *)
Definition truthy (b : option bool) : bool :=
  match b with Some true => true | _ => false end.

(** [apply_priority_non_downgrade], main.py l.434-451. *)
Definition apply_priority_non_downgrade
    (existing_numeric : option Z) (existing_partial : bool)
    (new_numeric : option Z) (new_partial : option bool) : option Z * bool :=
  let out_numeric := existing_numeric in
  let out_partial := existing_partial in
  let out_numeric :=
    match new_numeric with
    | Some n =>
        match out_numeric with
        | None => Some n
        | Some e => if n >? e then Some n else out_numeric
        end
    | None => out_numeric
    end in
  let out_partial :=
    if truthy new_partial then
      match out_numeric with
      | None => true
      | Some _ => out_partial
      end
    else out_partial in
  (out_numeric, out_partial).

(** [auto_escalation_suggestion], main.py l.454-474. *)
Definition auto_escalation_suggestion
    (has_assigned_case_within_72h : bool) (case_count_per_week tray_avg_weekly : Q)
    (any_critical_missing : bool) : option Z :=
  let points := 0 in
  let points := if negb (Qle_bool case_count_per_week tray_avg_weekly)
                then points + 1 else points in
  let points := if has_assigned_case_within_72h then points + 1 else points in
  let points := if any_critical_missing then points + 1 else points in
  if points >=? 3 then Some 3
  else if points =? 2 then Some 2
  else if points =? 1 then Some 1
  else None.

(** The color rule in the words of the specification ([computeColor]):
    ready is green; else numeric 1/2/3 is red/orange/yellow; else partial
    is blue; else green. *)
Definition is_level (k : Z) (priorityNumeric : option Z) : bool :=
  match priorityNumeric with Some n => n =? k | None => false end.

Definition computeColor (priorityNumeric : option Z) (priorityPartial isReady : bool)
  : string :=
  if isReady then "green"%string
  else if is_level 1 priorityNumeric then "red"%string
  else if is_level 2 priorityNumeric then "orange"%string
  else if is_level 3 priorityNumeric then "yellow"%string
  else if priorityPartial then "blue"%string
  else "green"%string.

(* ================================================================= *)
(** ** DB models (main.py l.60-121) *)

Module Tray.
Record t := mk {
  id : Z;
  name : string;
  status : TrayStatus;
  priority_numeric : option Z;
  priority_partial : bool;
  color : string;
  last_seen_lat : option Q;
  last_seen_lng : option Q;
  last_seen_at : option Z;
  last_location_type : option LocationType;
  last_location_name : option string;
  linked_case_id : option string
}.

Definition set_status (v : TrayStatus) (r : t) : t :=
  mk (id r) (name r) v (priority_numeric r) (priority_partial r) (color r)
     (last_seen_lat r) (last_seen_lng r) (last_seen_at r)
     (last_location_type r) (last_location_name r) (linked_case_id r).
Definition set_priority (n : option Z) (p : bool) (r : t) : t :=
  mk (id r) (name r) (status r) n p (color r)
     (last_seen_lat r) (last_seen_lng r) (last_seen_at r)
     (last_location_type r) (last_location_name r) (linked_case_id r).
Definition set_color (v : string) (r : t) : t :=
  mk (id r) (name r) (status r) (priority_numeric r) (priority_partial r) v
     (last_seen_lat r) (last_seen_lng r) (last_seen_at r)
     (last_location_type r) (last_location_name r) (linked_case_id r).
Definition set_last_seen_gps (lat lng : option Q) (r : t) : t :=
  mk (id r) (name r) (status r) (priority_numeric r) (priority_partial r) (color r)
     lat lng (last_seen_at r)
     (last_location_type r) (last_location_name r) (linked_case_id r).
Definition set_last_seen_at (v : option Z) (r : t) : t :=
  mk (id r) (name r) (status r) (priority_numeric r) (priority_partial r) (color r)
     (last_seen_lat r) (last_seen_lng r) v
     (last_location_type r) (last_location_name r) (linked_case_id r).
Definition set_last_location (ty : option LocationType) (nm : option string) (r : t) : t :=
  mk (id r) (name r) (status r) (priority_numeric r) (priority_partial r) (color r)
     (last_seen_lat r) (last_seen_lng r) (last_seen_at r)
     ty nm (linked_case_id r).
Definition set_linked_case_id (v : option string) (r : t) : t :=
  mk (id r) (name r) (status r) (priority_numeric r) (priority_partial r) (color r)
     (last_seen_lat r) (last_seen_lng r) (last_seen_at r)
     (last_location_type r) (last_location_name r) v.

(** [tray.color = map_color(tray.priority_numeric, tray.priority_partial,
    tray.status == TrayStatus.ready)] *)
Definition recolor (r : t) : t :=
  set_color (map_color (priority_numeric r) (priority_partial r)
                       (TrayStatus_eqb (status r) ready)) r.
End Tray.

Module TrayItem.
Record t := mk {
  id : Z;
  tray_id : Z;
  sku : string;
  name : string;
  is_critical : bool;
  qty_expected : option Z;
  qty_on_hand : option Z
}.
Definition set_qty_on_hand (v : option Z) (r : t) : t :=
  mk (id r) (tray_id r) (sku r) (name r) (is_critical r) (qty_expected r) v.
End TrayItem.

Module RestockTask.
Record t := mk {
  id : Z;
  tray_id : Z;
  status : RestockStatus.t;
  created_at : Z;
  updated_at : Z
}.
Definition set_status (v : RestockStatus.t) (r : t) : t :=
  mk (id r) (tray_id r) v (created_at r) (updated_at r).
Definition set_updated_at (v : Z) (r : t) : t :=
  mk (id r) (tray_id r) (status r) (created_at r) v.
End RestockTask.

Module RestockTaskItem.
Record t := mk {
  id : Z;
  task_id : Z;
  item_id : Z;
  qty_missing : option Z;
  reason : option string;
  restocked : bool;
  restocked_at : option Z;
  restocked_by : option string
}.
Definition set_qty_missing (v : option Z) (r : t) : t :=
  mk (id r) (task_id r) (item_id r) v (reason r) (restocked r)
     (restocked_at r) (restocked_by r).
Definition set_reason (v : option string) (r : t) : t :=
  mk (id r) (task_id r) (item_id r) (qty_missing r) v (restocked r)
     (restocked_at r) (restocked_by r).
(** [oi.restocked = True; oi.restocked_at = now; oi.restocked_by = user] *)
Definition resolve (now : Z) (user : string) (r : t) : t :=
  mk (id r) (task_id r) (item_id r) (qty_missing r) (reason r) true
     (Some now) (Some user).
End RestockTaskItem.

(** The JSON document built for [Event.payload_data]. *)
Inductive EventPayload :=
| items_flagged (ids : list Z)
| restocked_items (ids : list Z).

Module Event.
Record t := mk {
  id : Z;
  tray_id : Z;
  user_id : string;
  type : string;
  timestamp : Z;
  gps_lat : option Q;
  gps_lng : option Q;
  device_meta : option string;
  location_type : option LocationType;
  case_id : option string;
  notes : option string;
  payload_data : option EventPayload
}.
End Event.

(* ================================================================= *)
(** ** Request and response schemas (main.py l.202-290, 669-699) *)

Record GPS := { lat : Q; lng : Q }.

Record CreateTrayIn := { cti_name : string }.

Module CreateTrayItemIn.
Record t := mk {
  tray_id : Z;
  sku : string;
  name : string;
  is_critical : bool;
  qty_expected : option Z;
  qty_on_hand : option Z
}.
End CreateTrayItemIn.

Module DropoffRequest.
Record t := mk {
  tray_id : Z;
  user_id : string;
  gps : GPS;
  location_type : LocationType;
  location_name : option string;
  case_id : option string;
  notes : option string;
  device_meta : option string
}.
End DropoffRequest.

Module InventoryCheckItem.
Record t := mk {
  item_id : Z;
  reason : option string;
  qty_missing : option Z;
  qty_used : option Z
}.
End InventoryCheckItem.

Module InventoryCheckRequest.
Record t := mk {
  tray_id : Z;
  user_id : string;
  gps : GPS;
  items : list InventoryCheckItem.t;
  has_assigned_case_within_72h : option bool;
  case_count_per_week : option Q;
  tray_avg_weekly : option Q;
  any_critical_missing : option bool;
  user_priority_numeric : option Z;
  user_priority_partial : option bool;
  location_type : option LocationType;
  location_name : option string
}.
End InventoryCheckRequest.

Module RestockFullRequest.
Record t := mk {
  tray_id : Z;
  user_id : string;
  gps : GPS;
  location_type : option LocationType;
  location_name : option string;
  device_meta : option string;
  notes : option string
}.
End RestockFullRequest.

Module RestockPartialItem.
Record t := mk {
  item_id : Z;
  qty_restocked : option Z
}.
End RestockPartialItem.

(** [Literal["partial", 1, 2, 3]] *)
Inductive NewPriority := np_partial | np_1 | np_2 | np_3.

Definition int_of_NewPriority (p : NewPriority) : Z :=
  match p with np_partial => 0 | np_1 => 1 | np_2 => 2 | np_3 => 3 end.

Module RestockPartialRequest.
Record t := mk {
  tray_id : Z;
  user_id : string;
  gps : GPS;
  items : list RestockPartialItem.t;
  new_priority : NewPriority;
  location_type : option LocationType;
  location_name : option string;
  device_meta : option string;
  notes : option string
}.
End RestockPartialRequest.

(** [TrayOut]: the tray row and its item rows ([TrayOutItem] repeats the
    fields of [TrayItem] other than [tray_id]). *)
Record TrayOut := { out_tray : Tray.t; out_items : list TrayItem.t }.

(* ================================================================= *)
(** ** The relational store *)

Record DB := {
  trays : list Tray.t;
  tray_items : list TrayItem.t;
  restock_tasks : list RestockTask.t;
  restock_task_items : list RestockTaskItem.t;
  events : list Event.t
}.

Definition empty_db : DB :=
  {| trays := []; tray_items := []; restock_tasks := [];
     restock_task_items := []; events := [] |}.

Definition set_trays (v : list Tray.t) (db : DB) : DB :=
  {| trays := v; tray_items := tray_items db; restock_tasks := restock_tasks db;
     restock_task_items := restock_task_items db; events := events db |}.
Definition set_tray_items (v : list TrayItem.t) (db : DB) : DB :=
  {| trays := trays db; tray_items := v; restock_tasks := restock_tasks db;
     restock_task_items := restock_task_items db; events := events db |}.
Definition set_restock_tasks (v : list RestockTask.t) (db : DB) : DB :=
  {| trays := trays db; tray_items := tray_items db; restock_tasks := v;
     restock_task_items := restock_task_items db; events := events db |}.
Definition set_restock_task_items (v : list RestockTaskItem.t) (db : DB) : DB :=
  {| trays := trays db; tray_items := tray_items db; restock_tasks := restock_tasks db;
     restock_task_items := v; events := events db |}.
Definition set_events (v : list Event.t) (db : DB) : DB :=
  {| trays := trays db; tray_items := tray_items db; restock_tasks := restock_tasks db;
     restock_task_items := restock_task_items db; events := v |}.

(** The key the store gives a new row of an integer-keyed table: one more
    than the largest key in use. *)
Definition fresh_id (ids : list Z) : Z := 1 + fold_right Z.max 0 ids.

(** An UPDATE of the rows that satisfy [p]. *)
Definition update_where {A : Type} (p : A -> bool) (f : A -> A) (l : list A) : list A :=
  map (fun x => if p x then f x else x) l.

(** [session.get(Tray, tray_id)] and [session.get(TrayItem, item_id)] *)
Definition get_tray (db : DB) (tray_id : Z) : option Tray.t :=
  find (fun t => Tray.id t =? tray_id) (trays db).
Definition get_tray_item (db : DB) (item_id : Z) : option TrayItem.t :=
  find (fun i => TrayItem.id i =? item_id) (tray_items db).

(** [RestockTask.tray_id == tray_id, RestockTask.status == RestockStatus.open] *)
Definition open_task_of (tray_id : Z) (t : RestockTask.t) : bool :=
  (RestockTask.tray_id t =? tray_id) && is_open (RestockTask.status t).
Definition first_open_task (db : DB) (tray_id : Z) : option RestockTask.t :=
  find (open_task_of tray_id) (restock_tasks db).

(** [RestockTaskItem.task_id == task_id, RestockTaskItem.restocked == False] *)
Definition unresolved_of (task_id : Z) (r : RestockTaskItem.t) : bool :=
  (RestockTaskItem.task_id r =? task_id) && negb (RestockTaskItem.restocked r).
Definition open_items (db : DB) (task_id : Z) : list RestockTaskItem.t :=
  filter (unresolved_of task_id) (restock_task_items db).

(** [task_id == task_id, item_id == item_id, restocked == False], [.first()] *)
Definition unresolved_for (task_id item_id : Z) (r : RestockTaskItem.t) : bool :=
  (RestockTaskItem.task_id r =? task_id) && (RestockTaskItem.item_id r =? item_id)
  && negb (RestockTaskItem.restocked r).
Definition first_unresolved_for (db : DB) (task_id item_id : Z)
  : option RestockTaskItem.t :=
  find (unresolved_for task_id item_id) (restock_task_items db).

Definition update_tray (tray_id : Z) (f : Tray.t -> Tray.t) (db : DB) : DB :=
  set_trays (update_where (fun t => Tray.id t =? tray_id) f (trays db)) db.
Definition update_tray_item (item_id : Z) (f : TrayItem.t -> TrayItem.t) (db : DB) : DB :=
  set_tray_items (update_where (fun i => TrayItem.id i =? item_id) f (tray_items db)) db.
Definition update_task (task_id : Z) (f : RestockTask.t -> RestockTask.t) (db : DB) : DB :=
  set_restock_tasks
    (update_where (fun t => RestockTask.id t =? task_id) f (restock_tasks db)) db.
Definition update_task_item (row_id : Z) (f : RestockTaskItem.t -> RestockTaskItem.t)
    (db : DB) : DB :=
  set_restock_task_items
    (update_where (fun r => RestockTaskItem.id r =? row_id) f (restock_task_items db)) db.

Definition insert_tray (t : Tray.t) (db : DB) : DB :=
  set_trays (trays db ++ [t]) db.
(** The flush of a loaded and then modified [Tray] object. *)
Definition save_tray (tray : Tray.t) (db : DB) : DB :=
  update_tray (Tray.id tray) (fun _ => tray) db.
Definition insert_tray_item (mk : Z -> TrayItem.t) (db : DB) : DB :=
  set_tray_items (tray_items db ++ [mk (fresh_id (map TrayItem.id (tray_items db)))]) db.
Definition insert_task (t : RestockTask.t) (db : DB) : DB :=
  set_restock_tasks (restock_tasks db ++ [t]) db.
Definition insert_task_item (mk : Z -> RestockTaskItem.t) (db : DB) : DB :=
  set_restock_task_items
    (restock_task_items db
       ++ [mk (fresh_id (map RestockTaskItem.id (restock_task_items db)))]) db.
Definition insert_event (e : Event.t) (db : DB) : DB :=
  set_events (events db ++ [e]) db.

(* ================================================================= *)
(** ** Sessions and the endpoint monad *)

Inductive Detail :=
| tray_not_found (tray_id : Z)
| tray_already_exists (name : string)
| sku_already_exists (sku : string)
| must_specify_item_needing_restock
| item_not_found_in_tray (item_id tray_id : Z)
| must_specify_item_to_restock
| request_validation_error.

Record HTTPException := { status_code : Z; detail : Detail }.

Record Session := { committed : DB; pending : DB }.

Inductive Outcome (A : Type) :=
| Return (a : A)
| Raise (e : HTTPException).
Arguments Return {A} a.
Arguments Raise {A} e.

Definition M (A : Type) : Type := Session -> Outcome A * Session.

Definition ret {A : Type} (a : A) : M A := fun s => (Return a, s).

Definition bind {A B : Type} (m : M A) (k : A -> M B) : M B :=
  fun s =>
    match m s with
    | (Return a, s') => k a s'
    | (Raise e, s') => (Raise e, s')
    end.

Declare Scope session_scope.
Delimit Scope session_scope with session.
Notation "x <- m ;; k" := (bind m (fun x => k))
  (at level 61, m at next level, right associativity) : session_scope.
Notation "m ;; k" := (bind m (fun _ => k))
  (at level 61, right associativity) : session_scope.
Local Open Scope session_scope.

Definition raise {A : Type} (code : Z) (d : Detail) : M A :=
  fun s => (Raise {| status_code := code; detail := d |}, s).

(** A read through the session sees the transaction's own writes. *)
Definition query {A : Type} (f : DB -> A) : M A :=
  fun s => (Return (f (pending s)), s).

Definition modify (f : DB -> DB) : M unit :=
  fun s => (Return tt, {| committed := committed s; pending := f (pending s) |}).

(** [session.commit()] *)
Definition commit : M unit :=
  fun s => (Return tt, {| committed := pending s; pending := pending s |}).

(** [with Session(engine) as session: ...]: what is not committed when the
    block is left, normally or by an exception, is rolled back. *)
Definition with_Session {A : Type} (body : M A) (db : DB) : Outcome A * DB :=
  let (r, s) := body {| committed := db; pending := db |} in (r, committed s).

Fixpoint for_each {A : Type} (l : list A) (body : A -> M unit) : M unit :=
  match l with
  | [] => ret tt
  | x :: l' => body x ;; for_each l' body
  end.

(** [q or 0] on an [Optional[int]] and [q or 0.0] on an [Optional[float]]:
    the falsy values are [None] and zero, and both give zero. *)
Definition or_0 (q : option Z) : Z :=
  match q with Some v => v | None => 0 end.

Definition or_0_0 (q : option Q) : Q :=
  match q with Some v => v | None => 0%Q end.

(* ================================================================= *)
(** ** Helper functions (main.py l.574-645) *)

Definition get_tray_or_404 (tray_id : Z) : M Tray.t :=
  tray <- query (fun db => get_tray db tray_id) ;;
  match tray with
  | None => raise 404 (tray_not_found tray_id)
  | Some tray => ret tray
  end.

Definition ensure_open_restock_task (now : Z) (tray_id : Z) : M RestockTask.t :=
  task <- query (fun db => first_open_task db tray_id) ;;
  match task with
  | Some task => ret task
  | None =>
      ids <- query (fun db => map RestockTask.id (restock_tasks db)) ;;
      let task := RestockTask.mk (fresh_id ids) tray_id RestockStatus.open now now in
      modify (insert_task task) ;;
      ret task
  end.

Definition close_task (now : Z) (t : RestockTask.t) : RestockTask.t :=
  RestockTask.set_updated_at now (RestockTask.set_status RestockStatus.closed t).

Definition close_restock_task_if_empty (now : Z) (tray_id : Z) : M unit :=
  task <- query (fun db => first_open_task db tray_id) ;;
  match task with
  | None => ret tt
  | Some task =>
      open_items <- query (fun db => open_items db (RestockTask.id task)) ;;
      match open_items with
      | [] =>
          modify (update_task (RestockTask.id task) (close_task now)) ;;
          commit
      | _ :: _ => ret tt
      end
  end.

Definition tray_to_out (tray : Tray.t) : M TrayOut :=
  items <- query (fun db =>
             filter (fun i => TrayItem.tray_id i =? Tray.id tray) (tray_items db)) ;;
  ret {| out_tray := tray; out_items := items |}.

Definition add_event (mk : Z -> Event.t) : M Z :=
  ids <- query (fun db => map Event.id (events db)) ;;
  let evt := mk (fresh_id ids) in
  modify (insert_event evt) ;;
  ret (Event.id evt).

(* ================================================================= *)
(** ** Seed endpoints (main.py l.673-732) *)

Definition create_tray (payload : CreateTrayIn) : M TrayOut :=
  existing <- query (fun db =>
                find (fun t => String.eqb (Tray.name t) (cti_name payload)) (trays db)) ;;
  match existing with
  | Some _ => raise 400 (tray_already_exists (cti_name payload))
  | None =>
      ids <- query (fun db => map Tray.id (trays db)) ;;
      let tray := Tray.mk (fresh_id ids) (cti_name payload) ready None false COLOR_GREEN
                          None None None None None None in
      let tray := Tray.recolor tray in
      modify (insert_tray tray) ;;
      commit ;;
      tray_to_out tray
  end.

Definition create_tray_item (payload : CreateTrayItemIn.t) : M TrayOut :=
  tray <- get_tray_or_404 (CreateTrayItemIn.tray_id payload) ;;
  existing <- query (fun db =>
                find (fun i => (TrayItem.tray_id i =? CreateTrayItemIn.tray_id payload)
                               && String.eqb (TrayItem.sku i) (CreateTrayItemIn.sku payload))
                     (tray_items db)) ;;
  match existing with
  | Some _ => raise 400 (sku_already_exists (CreateTrayItemIn.sku payload))
  | None =>
      modify (insert_tray_item (fun id =>
                TrayItem.mk id (CreateTrayItemIn.tray_id payload)
                            (CreateTrayItemIn.sku payload) (CreateTrayItemIn.name payload)
                            (CreateTrayItemIn.is_critical payload)
                            (CreateTrayItemIn.qty_expected payload)
                            (CreateTrayItemIn.qty_on_hand payload))) ;;
      commit ;;
      tray_to_out tray
  end.

(* ================================================================= *)
(** ** Drop-off (main.py l.764-801) *)

Definition dropoff_tray_update (now : Z) (payload : DropoffRequest.t) (tray : Tray.t)
  : Tray.t :=
  let tray := Tray.set_status in_location tray in
  let tray := Tray.set_last_seen_gps (Some (lat (DropoffRequest.gps payload)))
                                     (Some (lng (DropoffRequest.gps payload))) tray in
  let tray := Tray.set_last_seen_at (Some now) tray in
  let tray := Tray.set_last_location (Some (DropoffRequest.location_type payload))
                                     (DropoffRequest.location_name payload) tray in
  let tray :=
    match DropoffRequest.case_id payload with
    | Some c => if String.eqb c "" then tray else Tray.set_linked_case_id (Some c) tray
    | None => tray
    end in
  Tray.recolor tray.

Definition dropoff_event (now : Z) (payload : DropoffRequest.t) (tray : Tray.t)
    (id : Z) : Event.t :=
  Event.mk id (Tray.id tray) (DropoffRequest.user_id payload) "dropoff" now
           (Some (lat (DropoffRequest.gps payload)))
           (Some (lng (DropoffRequest.gps payload)))
           (DropoffRequest.device_meta payload)
           (Some (DropoffRequest.location_type payload))
           (DropoffRequest.case_id payload)
           (DropoffRequest.notes payload) None.

(** The statements after the event is built are written outside the [with]
    block; the session is used again after its close, in a transaction of
    its own that the final commit ends. *)
Definition log_dropoff (now : Z) (payload : DropoffRequest.t) : M Z :=
  tray <- get_tray_or_404 (DropoffRequest.tray_id payload) ;;
  event_id <- add_event (dropoff_event now payload tray) ;;
  modify (save_tray (dropoff_tray_update now payload tray)) ;;
  commit ;;
  ret event_id.

(* ================================================================= *)
(** ** Inventory check (main.py l.804-898) *)

(** l.820-824: the quantity used comes off the on-hand count, floored at 0. *)
Definition use_qty (qty_used : option Z) (item : TrayItem.t) : option TrayItem.t :=
  match qty_used with
  | Some u =>
      if u >? 0 then
        let current_qty := or_0 (TrayItem.qty_on_hand item) in
        Some (TrayItem.set_qty_on_hand (Some (Z.max 0 (current_qty - u))) item)
      else None
  | None => None
  end.

(** l.842-847: re-flagging an unresolved row. *)
Definition reflag (it : InventoryCheckItem.t) (existing : RestockTaskItem.t)
  : RestockTaskItem.t :=
  let existing :=
    match InventoryCheckItem.reason it with
    | Some r => RestockTaskItem.set_reason (Some r) existing
    | None => existing
    end in
  match InventoryCheckItem.qty_missing it with
  | Some q => RestockTaskItem.set_qty_missing (Some q) existing
  | None => existing
  end.

(** l.815-847: the body of the loop over [payload.items]. *)
Definition flag_item (tray : Tray.t) (task : RestockTask.t) (it : InventoryCheckItem.t)
  : M unit :=
  item <- query (fun db => get_tray_item db (InventoryCheckItem.item_id it)) ;;
  match item with
  | None =>
      raise 400 (item_not_found_in_tray (InventoryCheckItem.item_id it) (Tray.id tray))
  | Some item =>
      if negb (TrayItem.tray_id item =? Tray.id tray) then
        raise 400 (item_not_found_in_tray (InventoryCheckItem.item_id it) (Tray.id tray))
      else
        match use_qty (InventoryCheckItem.qty_used it) item with
        | Some item' => modify (update_tray_item (TrayItem.id item) (fun _ => item'))
        | None => ret tt
        end ;;
        existing <- query (fun db =>
                      first_unresolved_for db (RestockTask.id task)
                                           (InventoryCheckItem.item_id it)) ;;
        match existing with
        | None =>
            modify (insert_task_item (fun id =>
              RestockTaskItem.mk id (RestockTask.id task) (InventoryCheckItem.item_id it)
                                 (InventoryCheckItem.qty_missing it)
                                 (InventoryCheckItem.reason it) false None None))
        | Some existing =>
            modify (update_task_item (RestockTaskItem.id existing) (reflag it))
        end
  end.

(** l.859-887: what the request does to the tray object. *)
Definition inventory_check_tray_update (now : Z) (payload : InventoryCheckRequest.t)
    (tray : Tray.t) : Tray.t :=
  let tray := Tray.set_status needs_restock tray in
  let tray := Tray.set_last_seen_gps (Some (lat (InventoryCheckRequest.gps payload)))
                                     (Some (lng (InventoryCheckRequest.gps payload)))
                                     tray in
  let tray := Tray.set_last_seen_at (Some now) tray in
  let auto_suggest :=
    auto_escalation_suggestion
      (truthy (InventoryCheckRequest.has_assigned_case_within_72h payload))
      (or_0_0 (InventoryCheckRequest.case_count_per_week payload))
      (or_0_0 (InventoryCheckRequest.tray_avg_weekly payload))
      (truthy (InventoryCheckRequest.any_critical_missing payload)) in
  let new_num :=
    match InventoryCheckRequest.user_priority_numeric payload with
    | Some n => Some n
    | None => auto_suggest
    end in
  let new_partial :=
    match InventoryCheckRequest.user_priority_partial payload with
    | Some b => b
    | None => false
    end in
  let '(out_numeric, out_partial) :=
    apply_priority_non_downgrade (Tray.priority_numeric tray) (Tray.priority_partial tray)
                                 new_num (Some new_partial) in
  let tray := Tray.set_priority out_numeric out_partial tray in
  let tray := Tray.recolor tray in
  match InventoryCheckRequest.location_type payload with
  | Some ty =>
      Tray.set_last_location (Some ty) (InventoryCheckRequest.location_name payload) tray
  | None => tray
  end.

(** l.849-856 *)
Definition inventory_check_event (now : Z) (payload : InventoryCheckRequest.t)
    (tray : Tray.t) (id : Z) : Event.t :=
  Event.mk id (Tray.id tray) (InventoryCheckRequest.user_id payload)
           "inventory_check" now
           (Some (lat (InventoryCheckRequest.gps payload)))
           (Some (lng (InventoryCheckRequest.gps payload)))
           None None None None
           (Some (items_flagged
                    (map InventoryCheckItem.item_id
                         (InventoryCheckRequest.items payload)))).

Definition inventory_check (now : Z) (payload : InventoryCheckRequest.t) : M TrayOut :=
  tray <- get_tray_or_404 (InventoryCheckRequest.tray_id payload) ;;
  match InventoryCheckRequest.items payload with
  | [] => raise 400 must_specify_item_needing_restock
  | _ :: _ =>
      task <- ensure_open_restock_task now (Tray.id tray) ;;
      for_each (InventoryCheckRequest.items payload) (flag_item tray task) ;;
      add_event (inventory_check_event now payload tray) ;;
      let tray := inventory_check_tray_update now payload tray in
      modify (save_tray tray) ;;
      modify (update_task (RestockTask.id task) (RestockTask.set_updated_at now)) ;;
      commit ;;
      tray_to_out tray
  end.

(* ================================================================= *)
(** ** Full restock (main.py l.901-957) *)

(** l.909-912, on one item row. *)
Definition reset_to_expected (item : TrayItem.t) : TrayItem.t :=
  match TrayItem.qty_expected item with
  | Some e => TrayItem.set_qty_on_hand (Some e) item
  | None => item
  end.

Definition restock_full_tray_update (now : Z) (payload : RestockFullRequest.t)
    (tray : Tray.t) : Tray.t :=
  let tray := Tray.set_status ready tray in
  let tray := Tray.set_priority None false tray in
  let tray := Tray.set_color
                (map_color (Tray.priority_numeric tray) (Tray.priority_partial tray) true)
                tray in
  match RestockFullRequest.location_type payload with
  | Some ty =>
      Tray.set_last_seen_at (Some now)
        (Tray.set_last_location (Some ty) (RestockFullRequest.location_name payload) tray)
  | None => tray
  end.

(** l.930-938 *)
Definition restock_full_event (now : Z) (payload : RestockFullRequest.t)
    (tray : Tray.t) (id : Z) : Event.t :=
  Event.mk id (Tray.id tray) (RestockFullRequest.user_id payload) "restock_full" now
           (Some (lat (RestockFullRequest.gps payload)))
           (Some (lng (RestockFullRequest.gps payload)))
           (RestockFullRequest.device_meta payload) None None
           (RestockFullRequest.notes payload) None.

(** The loops over the rows a query returned write each row back under its
    primary key; they are the UPDATE of the rows the query selects. *)
Definition restock_full (now : Z) (payload : RestockFullRequest.t) : M TrayOut :=
  tray <- get_tray_or_404 (RestockFullRequest.tray_id payload) ;;
  modify (fun db =>
    set_tray_items
      (update_where (fun i => TrayItem.tray_id i =? Tray.id tray) reset_to_expected
                    (tray_items db)) db) ;;
  task <- query (fun db => first_open_task db (Tray.id tray)) ;;
  match task with
  | Some task =>
      modify (fun db =>
        set_restock_task_items
          (update_where (unresolved_of (RestockTask.id task))
                        (RestockTaskItem.resolve now (RestockFullRequest.user_id payload))
                        (restock_task_items db)) db) ;;
      modify (update_task (RestockTask.id task) (close_task now))
  | None => ret tt
  end ;;
  add_event (restock_full_event now payload tray) ;;
  let tray := restock_full_tray_update now payload tray in
  modify (save_tray tray) ;;
  commit ;;
  tray_to_out tray.

(* ================================================================= *)
(** ** Partial restock (main.py l.959-1049) *)

(** [by_id = {p.item_id: p for p in payload.items}] followed by
    [by_id.get(item_id)]: the last entry of the list wins. *)
Definition by_id_get (items : list RestockPartialItem.t) (item_id : Z)
  : option RestockPartialItem.t :=
  find (fun p => RestockPartialItem.item_id p =? item_id) (rev items).

(** l.979-986: the restocked quantity goes onto the on-hand count, capped
    at the expected quantity when there is one. *)
Definition add_qty (qty_restocked : option Z) (item : TrayItem.t) : option TrayItem.t :=
  match qty_restocked with
  | Some r =>
      if r >? 0 then
        let current_qty := or_0 (TrayItem.qty_on_hand item) in
        match TrayItem.qty_expected item with
        | Some e => Some (TrayItem.set_qty_on_hand (Some (Z.min (current_qty + r) e)) item)
        | None => Some (TrayItem.set_qty_on_hand (Some (current_qty + r)) item)
        end
      else None
  | None => None
  end.

(** l.976-986: the body of the first loop over [payload.items]. *)
Definition restock_item (tray : Tray.t) (item_payload : RestockPartialItem.t) : M unit :=
  item <- query (fun db => get_tray_item db (RestockPartialItem.item_id item_payload)) ;;
  match item with
  | Some item =>
      if TrayItem.tray_id item =? Tray.id tray then
        match add_qty (RestockPartialItem.qty_restocked item_payload) item with
        | Some item' => modify (update_tray_item (TrayItem.id item) (fun _ => item'))
        | None => ret tt
        end
      else ret tt
  | None => ret tt
  end.

(** l.988-996: the body of the loop over the unresolved rows of the task. *)
Definition resolve_selected (now : Z) (payload : RestockPartialRequest.t)
    (oi : RestockTaskItem.t) : RestockTaskItem.t :=
  match by_id_get (RestockPartialRequest.items payload) (RestockTaskItem.item_id oi) with
  | Some sel =>
      let oi := RestockTaskItem.resolve now (RestockPartialRequest.user_id payload) oi in
      match RestockPartialItem.qty_restocked sel with
      | Some r =>
          RestockTaskItem.set_qty_missing
            (Some (Z.max 0 (or_0 (RestockTaskItem.qty_missing oi) - r))) oi
      | None => oi
      end
  | None => oi
  end.

(** l.1014-1039: what the request does to the tray object. *)
Definition restock_partial_tray_update (now : Z) (payload : RestockPartialRequest.t)
    (remaining_open : list RestockTaskItem.t) (tray : Tray.t) : Tray.t :=
  let tray :=
    match remaining_open with
    | _ :: _ => Tray.set_status needs_restock tray
    | [] => Tray.set_status ready tray
    end in
  let '(new_num, new_partial) :=
    match RestockPartialRequest.new_priority payload with
    | np_partial =>
        (None, match remaining_open with _ :: _ => true | [] => false end)
    | p => (Some (int_of_NewPriority p), false)
    end in
  let tray := Tray.set_priority new_num new_partial tray in
  let tray := Tray.recolor tray in
  match RestockPartialRequest.location_type payload with
  | Some ty =>
      Tray.set_last_seen_at (Some now)
        (Tray.set_last_location (Some ty) (RestockPartialRequest.location_name payload)
                                tray)
  | None => tray
  end.

(** l.1002-1011 *)
Definition restock_partial_event (now : Z) (payload : RestockPartialRequest.t)
    (tray : Tray.t) (id : Z) : Event.t :=
  Event.mk id (Tray.id tray) (RestockPartialRequest.user_id payload)
           "restock_partial" now
           (Some (lat (RestockPartialRequest.gps payload)))
           (Some (lng (RestockPartialRequest.gps payload)))
           (RestockPartialRequest.device_meta payload) None None
           (RestockPartialRequest.notes payload)
           (Some (restocked_items
                    (map RestockPartialItem.item_id
                         (RestockPartialRequest.items payload)))).

Definition restock_partial (now : Z) (payload : RestockPartialRequest.t) : M TrayOut :=
  tray <- get_tray_or_404 (RestockPartialRequest.tray_id payload) ;;
  match RestockPartialRequest.items payload with
  | [] => raise 400 must_specify_item_to_restock
  | _ :: _ =>
      task <- ensure_open_restock_task now (Tray.id tray) ;;
      for_each (RestockPartialRequest.items payload) (restock_item tray) ;;
      modify (fun db =>
        set_restock_task_items
          (update_where (unresolved_of (RestockTask.id task))
                        (resolve_selected now payload)
                        (restock_task_items db)) db) ;;
      remaining_open <- query (fun db => open_items db (RestockTask.id task)) ;;
      add_event (restock_partial_event now payload tray) ;;
      let tray := restock_partial_tray_update now payload remaining_open tray in
      modify (save_tray tray) ;;
      close_restock_task_if_empty now (Tray.id tray) ;;
      modify (save_tray tray) ;;
      commit ;;
      tray_to_out tray
  end.

(* ================================================================= *)
(** ** Request validation and dispatch *)

(** The [Field] constraints of the request schemas, which the framework
    checks before it calls an endpoint. *)
Definition ge_0 (q : option Z) : bool :=
  match q with Some v => 0 <=? v | None => true end.

Definition ge_0_0 (q : option Q) : bool :=
  match q with Some v => Qle_bool 0 v | None => true end.

Definition max_length (n : nat) (s : option string) : bool :=
  match s with Some v => Nat.leb (String.length v) n | None => true end.

Definition length_between (lo hi : nat) (s : string) : bool :=
  Nat.leb lo (String.length s) && Nat.leb (String.length s) hi.

Definition valid_GPS (g : GPS) : bool :=
  Qle_bool (-90) (lat g) && Qle_bool (lat g) 90
  && Qle_bool (-180) (lng g) && Qle_bool (lng g) 180.

Definition valid_CreateTrayIn (p : CreateTrayIn) : bool :=
  length_between 1 100 (cti_name p).

Definition valid_CreateTrayItemIn (p : CreateTrayItemIn.t) : bool :=
  length_between 1 50 (CreateTrayItemIn.sku p)
  && length_between 1 200 (CreateTrayItemIn.name p)
  && ge_0 (CreateTrayItemIn.qty_expected p)
  && ge_0 (CreateTrayItemIn.qty_on_hand p).

Definition valid_DropoffRequest (p : DropoffRequest.t) : bool :=
  valid_GPS (DropoffRequest.gps p) && max_length 500 (DropoffRequest.notes p).

Definition valid_InventoryCheckItem (it : InventoryCheckItem.t) : bool :=
  max_length 200 (InventoryCheckItem.reason it)
  && ge_0 (InventoryCheckItem.qty_missing it)
  && ge_0 (InventoryCheckItem.qty_used it).

Definition valid_InventoryCheckRequest (p : InventoryCheckRequest.t) : bool :=
  valid_GPS (InventoryCheckRequest.gps p)
  && forallb valid_InventoryCheckItem (InventoryCheckRequest.items p)
  && ge_0_0 (InventoryCheckRequest.case_count_per_week p)
  && ge_0_0 (InventoryCheckRequest.tray_avg_weekly p)
  && match InventoryCheckRequest.user_priority_numeric p with
     | Some n => (1 <=? n) && (n <=? 3)
     | None => true
     end.

Definition valid_RestockFullRequest (p : RestockFullRequest.t) : bool :=
  valid_GPS (RestockFullRequest.gps p) && max_length 500 (RestockFullRequest.notes p).

Definition valid_RestockPartialItem (it : RestockPartialItem.t) : bool :=
  ge_0 (RestockPartialItem.qty_restocked it).

Definition valid_RestockPartialRequest (p : RestockPartialRequest.t) : bool :=
  valid_GPS (RestockPartialRequest.gps p)
  && forallb valid_RestockPartialItem (RestockPartialRequest.items p)
  && max_length 500 (RestockPartialRequest.notes p).

Inductive Request :=
| POST_seed_trays (payload : CreateTrayIn)
| POST_seed_tray_items (payload : CreateTrayItemIn.t)
| POST_scan_events_dropoff (payload : DropoffRequest.t)
| POST_inventory_checks (payload : InventoryCheckRequest.t)
| POST_restocks_full (payload : RestockFullRequest.t)
| POST_restocks_partial (payload : RestockPartialRequest.t).

Inductive Response :=
| tray_response (tray : TrayOut)
| dropoff_response (event_id : Z).

Definition validated {A : Type} (ok : bool) (body : M A) : M A :=
  if ok then body else raise 422 request_validation_error.

Definition endpoint (now : Z) (req : Request) : M Response :=
  match req with
  | POST_seed_trays p =>
      validated (valid_CreateTrayIn p)
        (out <- create_tray p ;; ret (tray_response out))
  | POST_seed_tray_items p =>
      validated (valid_CreateTrayItemIn p)
        (out <- create_tray_item p ;; ret (tray_response out))
  | POST_scan_events_dropoff p =>
      validated (valid_DropoffRequest p)
        (id <- log_dropoff now p ;; ret (dropoff_response id))
  | POST_inventory_checks p =>
      validated (valid_InventoryCheckRequest p)
        (out <- inventory_check now p ;; ret (tray_response out))
  | POST_restocks_full p =>
      validated (valid_RestockFullRequest p)
        (out <- restock_full now p ;; ret (tray_response out))
  | POST_restocks_partial p =>
      validated (valid_RestockPartialRequest p)
        (out <- restock_partial now p ;; ret (tray_response out))
  end.

(** One request served against the store: the response and the store
    afterwards. *)
Definition handle (now : Z) (req : Request) (db : DB) : Outcome Response * DB :=
  with_Session (endpoint now req) db.

(** The stores the service can be in: the empty store, and whatever a
    request leaves behind. *)
Inductive reachable : DB -> Prop :=
| reachable_empty : reachable empty_db
| reachable_handle (now : Z) (req : Request) (db : DB) :
    reachable db -> reachable (snd (handle now req db)).

(** A run of the service on a list of time-stamped requests. *)
Fixpoint run (reqs : list (Z * Request)) (db : DB) : DB :=
  match reqs with
  | [] => db
  | (now, req) :: reqs' => run reqs' (snd (handle now req db))
  end.

(* ================================================================= *)
(** ** Summaries of get-or-create and of the loops

    What [ensure_open_restock_task] and the loops over [payload.items] do
    to the tables, as functions on the tables; the run lemmas below relate
    them to the code. *)

Definition ensure_task (now tray_id : Z) (db : DB) : RestockTask.t * DB :=
  match first_open_task db tray_id with
  | Some task => (task, db)
  | None =>
      let task := RestockTask.mk (fresh_id (map RestockTask.id (restock_tasks db)))
                                 tray_id RestockStatus.open now now in
      (task, insert_task task db)
  end.

(** What [tray_to_out] answers for a tray object against a store. *)
Definition tray_out (tray : Tray.t) (db : DB) : TrayOut :=
  {| out_tray := tray;
     out_items := filter (fun i => TrayItem.tray_id i =? Tray.id tray) (tray_items db) |}.

Definition in_tray (rows : list TrayItem.t) (tray_id item_id : Z) : bool :=
  match find (fun i => TrayItem.id i =? item_id) rows with
  | Some item => TrayItem.tray_id item =? tray_id
  | None => false
  end.

Definition use_item_rows (it : InventoryCheckItem.t) (rows : list TrayItem.t)
  : list TrayItem.t :=
  match find (fun i => TrayItem.id i =? InventoryCheckItem.item_id it) rows with
  | Some item =>
      match use_qty (InventoryCheckItem.qty_used it) item with
      | Some item' => update_where (fun i => TrayItem.id i =? TrayItem.id item)
                                   (fun _ => item') rows
      | None => rows
      end
  | None => rows
  end.

Definition flag_row (task_id : Z) (it : InventoryCheckItem.t)
    (rows : list RestockTaskItem.t) : list RestockTaskItem.t :=
  match find (unresolved_for task_id (InventoryCheckItem.item_id it)) rows with
  | None =>
      rows ++ [RestockTaskItem.mk (fresh_id (map RestockTaskItem.id rows)) task_id
                                  (InventoryCheckItem.item_id it)
                                  (InventoryCheckItem.qty_missing it)
                                  (InventoryCheckItem.reason it) false None None]
  | Some existing =>
      update_where (fun r => RestockTaskItem.id r =? RestockTaskItem.id existing)
                   (reflag it) rows
  end.

Definition restock_item_rows (tray_id : Z) (ip : RestockPartialItem.t)
    (rows : list TrayItem.t) : list TrayItem.t :=
  match find (fun i => TrayItem.id i =? RestockPartialItem.item_id ip) rows with
  | Some item =>
      if TrayItem.tray_id item =? tray_id then
        match add_qty (RestockPartialItem.qty_restocked ip) item with
        | Some item' => update_where (fun i => TrayItem.id i =? TrayItem.id item)
                                     (fun _ => item') rows
        | None => rows
        end
      else rows
  | None => rows
  end.

(** The store a successful inventory check leaves. *)
Definition inventory_check_db (now : Z) (payload : InventoryCheckRequest.t)
    (tray : Tray.t) (db : DB) : DB :=
  let task := fst (ensure_task now (Tray.id tray) db) in
  let db1 := snd (ensure_task now (Tray.id tray) db) in
  {| trays := update_where (fun t => Tray.id t =? Tray.id tray)
                           (fun _ => inventory_check_tray_update now payload tray)
                           (trays db);
     tray_items := fold_left (fun rows it => use_item_rows it rows)
                             (InventoryCheckRequest.items payload) (tray_items db);
     restock_tasks := update_where (fun t => RestockTask.id t =? RestockTask.id task)
                                   (RestockTask.set_updated_at now) (restock_tasks db1);
     restock_task_items :=
       fold_left (fun rows it => flag_row (RestockTask.id task) it rows)
                 (InventoryCheckRequest.items payload) (restock_task_items db);
     events := events db
               ++ [inventory_check_event now payload tray
                     (fresh_id (map Event.id (events db)))] |}.

(** The store a successful full restock leaves. *)
Definition restock_full_db (now : Z) (payload : RestockFullRequest.t)
    (tray : Tray.t) (db : DB) : DB :=
  {| trays := update_where (fun t => Tray.id t =? Tray.id tray)
                           (fun _ => restock_full_tray_update now payload tray)
                           (trays db);
     tray_items := update_where (fun i => TrayItem.tray_id i =? Tray.id tray)
                                reset_to_expected (tray_items db);
     restock_tasks :=
       match first_open_task db (Tray.id tray) with
       | Some task => update_where (fun t => RestockTask.id t =? RestockTask.id task)
                                   (close_task now) (restock_tasks db)
       | None => restock_tasks db
       end;
     restock_task_items :=
       match first_open_task db (Tray.id tray) with
       | Some task =>
           update_where (unresolved_of (RestockTask.id task))
                        (RestockTaskItem.resolve now (RestockFullRequest.user_id payload))
                        (restock_task_items db)
       | None => restock_task_items db
       end;
     events := events db
               ++ [restock_full_event now payload tray
                     (fresh_id (map Event.id (events db)))] |}.

(** The store a successful partial restock leaves. *)
Definition restock_partial_db (now : Z) (payload : RestockPartialRequest.t)
    (tray : Tray.t) (db : DB) : DB :=
  let task := fst (ensure_task now (Tray.id tray) db) in
  let db1 := snd (ensure_task now (Tray.id tray) db) in
  let rows := update_where (unresolved_of (RestockTask.id task))
                           (resolve_selected now payload) (restock_task_items db) in
  let remaining_open := filter (unresolved_of (RestockTask.id task)) rows in
  {| trays := update_where
                (fun t => Tray.id t =? Tray.id tray)
                (fun _ => restock_partial_tray_update now payload remaining_open tray)
                (trays db);
     tray_items := fold_left (fun rows ip => restock_item_rows (Tray.id tray) ip rows)
                             (RestockPartialRequest.items payload) (tray_items db);
     restock_tasks :=
       match remaining_open with
       | [] => update_where (fun t => RestockTask.id t =? RestockTask.id task)
                            (close_task now) (restock_tasks db1)
       | _ :: _ => restock_tasks db1
       end;
     restock_task_items := rows;
     events := events db
               ++ [restock_partial_event now payload tray
                     (fresh_id (map Event.id (events db)))] |}.

(** The first entry of an inventory check that names no item of the tray. *)
Definition first_stray (rows : list TrayItem.t) (tray_id : Z)
    (items : list InventoryCheckItem.t) : option InventoryCheckItem.t :=
  find (fun it => negb (in_tray rows tray_id (InventoryCheckItem.item_id it))) items.

(* ================================================================= *)
(** ** Invariants of the store *)

(** The restock-task lifecycle keeps five facts about the task tables: task
    keys are distinct, a tray has at most one open task, an open task has an
    unresolved row, a closed task has none, and every row hangs under a
    task of the table. *)
Record task_invariant (db : DB) : Prop := {
  inv_ids : NoDup (map RestockTask.id (restock_tasks db));
  inv_one_open : forall tray_id,
    (List.length (filter (open_task_of tray_id) (restock_tasks db)) <= 1)%nat;
  inv_open : forall t,
    In t (restock_tasks db) -> RestockTask.status t = RestockStatus.open ->
    open_items db (RestockTask.id t) <> [];
  inv_closed : forall t,
    In t (restock_tasks db) -> RestockTask.status t = RestockStatus.closed ->
    open_items db (RestockTask.id t) = [];
  inv_rows : forall r,
    In r (restock_task_items db) ->
    In (RestockTaskItem.task_id r) (map RestockTask.id (restock_tasks db))
}.

(** Quantities are never negative. *)
Definition qty_nonneg (item : TrayItem.t) : Prop :=
  (forall e, TrayItem.qty_expected item = Some e -> 0 <= e)
  /\ (forall q, TrayItem.qty_on_hand item = Some q -> 0 <= q).

(** Every quantity of the item table is non-negative. *)
Definition qty_invariant (db : DB) : Prop :=
  forall item, In item (tray_items db) -> qty_nonneg item.

(** The state invariant of a tray: the partial flag is set only when there
    is no numeric priority. *)
Definition priority_exclusive (tray : Tray.t) : Prop :=
  Tray.priority_partial tray = true -> Tray.priority_numeric tray = None.


(** A task of the store after a request either continues a task of the
    store before it, with the same key and tray, or is new, and then its
    tray had no open task. *)
Definition task_origin (db : DB) (t : RestockTask.t) : Prop :=
  (exists x, In x (restock_tasks db)
             /\ RestockTask.id x = RestockTask.id t
             /\ RestockTask.tray_id x = RestockTask.tray_id t
             /\ (RestockTask.status x = RestockStatus.closed -> t = x))
  \/ (first_open_task db (RestockTask.tray_id t) = None
      /\ ~ In (RestockTask.id t) (map RestockTask.id (restock_tasks db))).

(** What one entry of an inventory check, and one entry of a partial
    restock, does to the row of the item it names. *)
Definition use_report (it : InventoryCheckItem.t) (item : TrayItem.t) : TrayItem.t :=
  match use_qty (InventoryCheckItem.qty_used it) item with
  | Some item' => item'
  | None => item
  end.

Definition restock_report (ip : RestockPartialItem.t) (item : TrayItem.t) : TrayItem.t :=
  match add_qty (RestockPartialItem.qty_restocked ip) item with
  | Some item' => item'
  | None => item
  end.

(* ================================================================= *)
(** ** Sample stores and requests *)

Definition demo_gps : GPS := {| lat := 0; lng := 0 |}.

(** The scenario of the specification: a tray with item A, expected 10 and
    on hand 10; an inventory check that reports 4 of A used and missing; a
    partial restock of 6 of A. *)
Definition scenario_seed : list (Z * Request) :=
  [ (1, POST_seed_trays {| cti_name := "Spine set" |});
    (2, POST_seed_tray_items
          (CreateTrayItemIn.mk 1 "A" "Item A" false (Some 10) (Some 10))) ].

Definition scenario_check : InventoryCheckRequest.t :=
  InventoryCheckRequest.mk 1 "rep001" demo_gps
    [InventoryCheckItem.mk 1 (Some "used in case"%string) (Some 4) (Some 4)]
    None None None None None None None None.

Definition scenario_partial : RestockPartialRequest.t :=
  RestockPartialRequest.mk 1 "rep001" demo_gps
    [RestockPartialItem.mk 1 (Some 6)] np_partial None None None None.

Definition scenario_full : RestockFullRequest.t :=
  RestockFullRequest.mk 1 "rep001" demo_gps None None None None.

(** The store after the seeds, and after the inventory check. *)
Definition seeded_db : DB := run scenario_seed empty_db.
Definition checked_db : DB := run [(3, POST_inventory_checks scenario_check)] seeded_db.

(** An inventory check that flags item 1 with the partial hint, and one that
    flags it again with the numeric hint 2. *)
Definition partial_hint_check : InventoryCheckRequest.t :=
  InventoryCheckRequest.mk 1 "rep001" demo_gps
    [InventoryCheckItem.mk 1 (Some "used in case"%string) (Some 4) (Some 4)]
    None None None None None (Some true) None None.

Definition numeric_hint_check : InventoryCheckRequest.t :=
  InventoryCheckRequest.mk 1 "rep001" demo_gps
    [InventoryCheckItem.mk 1 None None None]
    None None None None (Some 2) None None None.

(** An item seeded above its expected quantity, and a partial restock that
    reports a restocked quantity of zero for it. *)
Definition overstocked_db : DB :=
  run [ (1, POST_seed_trays {| cti_name := "Spine set" |});
        (2, POST_seed_tray_items
              (CreateTrayItemIn.mk 1 "B" "Item B" false (Some 5) (Some 10))) ]
      empty_db.

Definition zero_restock : RestockPartialRequest.t :=
  RestockPartialRequest.mk 1 "rep001" demo_gps
    [RestockPartialItem.mk 1 (Some 0)] np_partial None None None None.


(** An inventory check that names item 1 and then an item the store does
    not have. *)
Definition stray_check : InventoryCheckRequest.t :=
  InventoryCheckRequest.mk 1 "rep001" demo_gps
    [InventoryCheckItem.mk 1 None (Some 4) (Some 4);
     InventoryCheckItem.mk 7 None None None]
    None None None None None None None None.

(** The tray a successful [create_tray] adds, and the stores the seed
    endpoints and the drop-off leave. *)
Definition new_tray (payload : CreateTrayIn) (db : DB) : Tray.t :=
  Tray.recolor (Tray.mk (fresh_id (map Tray.id (trays db))) (cti_name payload) ready
                        None false COLOR_GREEN None None None None None None).

Definition create_tray_db (payload : CreateTrayIn) (db : DB) : DB :=
  insert_tray (new_tray payload db) db.

Definition new_tray_item (payload : CreateTrayItemIn.t) (db : DB) : TrayItem.t :=
  TrayItem.mk (fresh_id (map TrayItem.id (tray_items db)))
              (CreateTrayItemIn.tray_id payload) (CreateTrayItemIn.sku payload)
              (CreateTrayItemIn.name payload) (CreateTrayItemIn.is_critical payload)
              (CreateTrayItemIn.qty_expected payload)
              (CreateTrayItemIn.qty_on_hand payload).

Definition create_tray_item_db (payload : CreateTrayItemIn.t) (db : DB) : DB :=
  set_tray_items (tray_items db ++ [new_tray_item payload db]) db.

Definition dropoff_db (now : Z) (payload : DropoffRequest.t) (tray : Tray.t) (db : DB)
  : DB :=
  save_tray (dropoff_tray_update now payload tray)
            (insert_event (dropoff_event now payload tray
                                         (fresh_id (map Event.id (events db)))) db).

(** The tray of the name, and the item of the tray and SKU, that the seed
    endpoints look for. *)
Definition tray_named (db : DB) (name : string) : option Tray.t :=
  find (fun t => String.eqb (Tray.name t) name) (trays db).

Definition item_with_sku (db : DB) (tray_id : Z) (sku : string) : option TrayItem.t :=
  find (fun i => (TrayItem.tray_id i =? tray_id) && String.eqb (TrayItem.sku i) sku)
       (tray_items db).

(** The committed steps of the service: what a request that returns
    normally does to the store. *)
Inductive transition (db : DB) : DB -> Prop :=
| tr_create_tray (p : CreateTrayIn) :
    valid_CreateTrayIn p = true ->
    tray_named db (cti_name p) = None ->
    transition db (create_tray_db p db)
| tr_create_tray_item (p : CreateTrayItemIn.t) (tray : Tray.t) :
    valid_CreateTrayItemIn p = true ->
    get_tray db (CreateTrayItemIn.tray_id p) = Some tray ->
    item_with_sku db (CreateTrayItemIn.tray_id p) (CreateTrayItemIn.sku p) = None ->
    transition db (create_tray_item_db p db)
| tr_dropoff (now : Z) (p : DropoffRequest.t) (tray : Tray.t) :
    valid_DropoffRequest p = true ->
    get_tray db (DropoffRequest.tray_id p) = Some tray ->
    transition db (dropoff_db now p tray db)
| tr_inventory_check (now : Z) (p : InventoryCheckRequest.t) (tray : Tray.t) :
    valid_InventoryCheckRequest p = true ->
    get_tray db (InventoryCheckRequest.tray_id p) = Some tray ->
    InventoryCheckRequest.items p <> [] ->
    first_stray (tray_items db) (Tray.id tray) (InventoryCheckRequest.items p) = None ->
    transition db (inventory_check_db now p tray db)
| tr_restock_full (now : Z) (p : RestockFullRequest.t) (tray : Tray.t) :
    valid_RestockFullRequest p = true ->
    get_tray db (RestockFullRequest.tray_id p) = Some tray ->
    transition db (restock_full_db now p tray db)
| tr_restock_partial (now : Z) (p : RestockPartialRequest.t) (tray : Tray.t) :
    valid_RestockPartialRequest p = true ->
    get_tray db (RestockPartialRequest.tray_id p) = Some tray ->
    RestockPartialRequest.items p <> [] ->
    transition db (restock_partial_db now p tray db).

(** The error responses of the six endpoints. *)
Definition error_of (db : DB) (req : Request) : option HTTPException :=
  let err code d := Some {| status_code := code; detail := d |} in
  match req with
  | POST_seed_trays p =>
      if negb (valid_CreateTrayIn p) then err 422 request_validation_error
      else match tray_named db (cti_name p) with
           | Some _ => err 400 (tray_already_exists (cti_name p))
           | None => None
           end
  | POST_seed_tray_items p =>
      if negb (valid_CreateTrayItemIn p) then err 422 request_validation_error
      else match get_tray db (CreateTrayItemIn.tray_id p) with
           | None => err 404 (tray_not_found (CreateTrayItemIn.tray_id p))
           | Some _ =>
               match item_with_sku db (CreateTrayItemIn.tray_id p)
                                   (CreateTrayItemIn.sku p) with
               | Some _ => err 400 (sku_already_exists (CreateTrayItemIn.sku p))
               | None => None
               end
           end
  | POST_scan_events_dropoff p =>
      if negb (valid_DropoffRequest p) then err 422 request_validation_error
      else match get_tray db (DropoffRequest.tray_id p) with
           | None => err 404 (tray_not_found (DropoffRequest.tray_id p))
           | Some _ => None
           end
  | POST_inventory_checks p =>
      if negb (valid_InventoryCheckRequest p) then err 422 request_validation_error
      else match get_tray db (InventoryCheckRequest.tray_id p) with
           | None => err 404 (tray_not_found (InventoryCheckRequest.tray_id p))
           | Some tray =>
               match InventoryCheckRequest.items p with
               | [] => err 400 must_specify_item_needing_restock
               | _ :: _ =>
                   match first_stray (tray_items db) (Tray.id tray)
                                     (InventoryCheckRequest.items p) with
                   | Some it =>
                       err 400 (item_not_found_in_tray (InventoryCheckItem.item_id it)
                                                       (Tray.id tray))
                   | None => None
                   end
               end
           end
  | POST_restocks_full p =>
      if negb (valid_RestockFullRequest p) then err 422 request_validation_error
      else match get_tray db (RestockFullRequest.tray_id p) with
           | None => err 404 (tray_not_found (RestockFullRequest.tray_id p))
           | Some _ => None
           end
  | POST_restocks_partial p =>
      if negb (valid_RestockPartialRequest p) then err 422 request_validation_error
      else match get_tray db (RestockPartialRequest.tray_id p) with
           | None => err 404 (tray_not_found (RestockPartialRequest.tray_id p))
           | Some _ =>
               match RestockPartialRequest.items p with
               | [] => err 400 must_specify_item_to_restock
               | _ :: _ => None
               end
           end
  end.

(** What a lifecycle request may do to the tray object it loaded. *)
Inductive tray_update (tray : Tray.t) : Tray.t -> Prop :=
| tu_dropoff (now : Z) (p : DropoffRequest.t) :
    tray_update tray (dropoff_tray_update now p tray)
| tu_inventory_check (now : Z) (p : InventoryCheckRequest.t) :
    valid_InventoryCheckRequest p = true ->
    tray_update tray (inventory_check_tray_update now p tray)
| tu_restock_full (now : Z) (p : RestockFullRequest.t) :
    tray_update tray (restock_full_tray_update now p tray)
| tu_restock_partial (now : Z) (p : RestockPartialRequest.t)
    (remaining_open : list RestockTaskItem.t) :
    tray_update tray (restock_partial_tray_update now p remaining_open tray).

(** The color of the tray is the one its state maps to. *)
Definition color_fresh (tray : Tray.t) : Prop :=
  Tray.color tray
  = map_color (Tray.priority_numeric tray) (Tray.priority_partial tray)
              (TrayStatus_eqb (Tray.status tray) ready).

(** The numeric priority of the tray, when there is one, is 1, 2 or 3. *)
Definition numeric_in_range (tray : Tray.t) : Prop :=
  forall n, Tray.priority_numeric tray = Some n -> 1 <= n <= 3.

(** The columns of a tray that no endpoint writes after the insert. *)
Definition tray_key (tray : Tray.t) : Z * string := (Tray.id tray, Tray.name tray).

(** The columns of an item that no endpoint writes after the insert: all
    but the on-hand quantity. *)
Definition item_static (i : TrayItem.t) : Z * Z * string * string * bool * option Z :=
  (TrayItem.id i, TrayItem.tray_id i, TrayItem.sku i, TrayItem.name i,
   TrayItem.is_critical i, TrayItem.qty_expected i).

(** The pair the SKU check of [create_tray_item] looks up. *)
Definition sku_key (i : TrayItem.t) : Z * string := (TrayItem.tray_id i, TrayItem.sku i).

(** Item keys are distinct, a tray has no two items with one SKU, and every
    item belongs to a tray of the store. *)
Record item_invariant (db : DB) : Prop := {
  items_ids : NoDup (map TrayItem.id (tray_items db));
  items_skus : NoDup (map sku_key (tray_items db));
  items_tray : forall i, In i (tray_items db) ->
                         In (TrayItem.tray_id i) (map Tray.id (trays db))
}.

(** The columns of a task row that no endpoint writes after the insert. *)
Definition row_key (r : RestockTaskItem.t) : Z * Z * Z :=
  (RestockTaskItem.id r, RestockTaskItem.task_id r, RestockTaskItem.item_id r).

(** The columns of a task that no endpoint writes after the insert. *)
Definition task_key (t : RestockTask.t) : Z * Z * Z :=
  (RestockTask.id t, RestockTask.tray_id t, RestockTask.created_at t).

(** Row keys are distinct and an item has at most one unresolved row under
    a task. *)
Record row_invariant (db : DB) : Prop := {
  rows_ids : NoDup (map RestockTaskItem.id (restock_task_items db));
  rows_one : forall task_id item_id,
    (List.length (filter (unresolved_for task_id item_id) (restock_task_items db)) <= 1)%nat
}.

(** Every task belongs to a tray of the store, and a tray that is ready has
    no open task. *)
Record tray_task_invariant (db : DB) : Prop := {
  task_tray : forall t, In t (restock_tasks db) ->
                        In (RestockTask.tray_id t) (map Tray.id (trays db));
  ready_closed : forall tray t,
    In tray (trays db) -> In t (restock_tasks db) ->
    Tray.status tray = ready -> open_task_of (Tray.id tray) t = false
}.

(** The request has added one event to the log, with the next key, for the
    tray, the user, the kind and the time given. *)
Definition logged (db db' : DB) (now tray_id : Z) (user kind : string) : Prop :=
  exists e,
    events db' = events db ++ [e]
    /\ Event.id e = fresh_id (map Event.id (events db))
    /\ Event.tray_id e = tray_id /\ Event.user_id e = user
    /\ Event.type e = kind /\ Event.timestamp e = now.

(** A tray that needs restock has an open task. *)
Definition needs_restock_open (db : DB) : Prop :=
  forall tray, In tray (trays db) -> Tray.status tray = needs_restock ->
               existsb (open_task_of (Tray.id tray)) (restock_tasks db) = true.

(** Every task row hangs under a task of the store and names an item of
    the store that belongs to the tray of that task. *)
Definition row_references (db : DB) : Prop :=
  forall r, In r (restock_task_items db) ->
    exists t i,
      In t (restock_tasks db) /\ RestockTask.id t = RestockTaskItem.task_id r
      /\ In i (tray_items db) /\ TrayItem.id i = RestockTaskItem.item_id r
      /\ TrayItem.tray_id i = RestockTask.tray_id t.

(* ================================================================= *)
(** ** The read endpoints of the tray tables *)

(** [list.sort(key=...)]: a stable sort.  An element goes in front of the
    first element of the sorted rest that it does not come after, so that
    elements with equal keys keep the order they had. *)
Fixpoint insert_sorted {A : Type} (le : A -> A -> bool) (x : A) (l : list A) : list A :=
  match l with
  | [] => [x]
  | y :: l' => if le x y then x :: l else y :: insert_sorted le x l'
  end.

Definition stable_sort {A : Type} (le : A -> A -> bool) (l : list A) : list A :=
  fold_right (insert_sorted le) [] l.

(** [[f(x) for x in l]] with a reading [f]. *)
Fixpoint map_M {A B : Type} (f : A -> M B) (l : list A) : M (list B) :=
  match l with
  | [] => ret []
  | x :: l' => y <- f x ;; ys <- map_M f l' ;; ret (y :: ys)
  end.

(** [sort: Literal["priority", "name"]] *)
Inductive SortKey := sort_priority | sort_name.

(** [prio_rank.get(t.color, 5)], l.750. *)
Definition prio_rank (color : string) : Z :=
  if String.eqb color COLOR_RED then 0
  else if String.eqb color COLOR_ORANGE then 1
  else if String.eqb color COLOR_YELLOW then 2
  else if String.eqb color COLOR_BLUE then 3
  else if String.eqb color COLOR_GREEN then 4
  else 5.

(** l.756-760: [trays[offset:offset + limit]] when the limit is truthy,
    [trays[offset:]] when only the offset is positive. *)
Definition paginate {A : Type} (limit : option Z) (offset : Z) (l : list A) : list A :=
  let from_offset := if offset >? 0 then skipn (Z.to_nat offset) l else l in
  match limit with
  | Some n =>
      if n =? 0 then from_offset
      else firstn (Z.to_nat n) (skipn (Z.to_nat offset) l)
  | None => from_offset
  end.

(** [limit: Query(None, ge=1, le=1000)], [offset: Query(0, ge=0)] *)
Definition valid_list_trays (limit : option Z) (offset : Z) : bool :=
  match limit with
  | Some n => (1 <=? n) && (n <=? 1000)
  | None => true
  end && (0 <=? offset).

Module GET.
Section Lower.

(** [str.lower] *)
Variable lower : string -> string.

(** The order of the sort keys: the rank of the color, or the lower-cased
    name.  Python orders [str] by code point; on the UTF-8 bytes of a
    [string] that is the order of the bytes, [String.leb]. *)
Definition key_le (sort : SortKey) (a b : Tray.t) : bool :=
  match sort with
  | sort_priority => prio_rank (Tray.color a) <=? prio_rank (Tray.color b)
  | sort_name => String.leb (lower (Tray.name a)) (lower (Tray.name b))
  end.

(** [GET /trays/{tray_id}], l.734-738. *)
Definition get_tray (tray_id : Z) : M TrayOut :=
  tray <- get_tray_or_404 tray_id ;;
  tray_to_out tray.

(** [GET /trays], l.741-761. *)
Definition list_trays (sort : SortKey) (limit : option Z) (offset : Z)
  : M (list TrayOut) :=
  validated (valid_list_trays limit offset)
    (trays <- query trays ;;
     let trays := stable_sort (key_le sort) trays in
     let trays := paginate limit offset trays in
     map_M tray_to_out trays).

End Lower.
End GET.

(** The two requests that restock a tray. *)
Definition is_restock (req : Request) : bool :=
  match req with
  | POST_restocks_full _ | POST_restocks_partial _ => true
  | _ => false
  end.

(* ================================================================= *)
(** ** Users

    [login_user] and [get_current_user], l.520-568.
    [SQLModel.metadata.create_all(engine)] runs at l.514, when the module
    is loaded, and creates the tables of the classes declared by then.
    [class User] is declared after it, at l.520, and nothing creates a
    table later: the database the program creates has no user table.  A
    statement on a table the database does not have raises an
    [OperationalError]; neither endpoint catches it, and the server answers
    500.  [lower] is [str.lower]. *)

Module User.
Record t := mk {
  id : Z;
  username : string;
  display_name : string;
  created_at : Z;
  last_active : option Z
}.
End User.







Module Users.
Section Lower.

Variable lower : string -> string.






End Lower.
End Users.

(* ================================================================= *)
(** ** Notes and pins

    The note endpoints, l.1327-1541.  They write the note table and the pin
    table and nothing else; the names they show for the pinned trays,
    cases, doctors and standalone items are read from tables they never
    write, and are parameters here. *)

(** l.54 *)
Definition USER_ID : string := "rep001".

Module Note.
Record t := mk {
  id : Z;
  user_id : string;
  title : string;
  content : string;
  created_at : Z;
  updated_at : Z
}.
End Note.

Module NotePin.
Record t := mk {
  id : Z;
  note_id : Z;
  entity_type : string;
  entity_id : Z;
  created_at : Z
}.
End NotePin.

Record CreateNoteIn := {
  cn_title : string;
  cn_content : string;
  pin_to_trays : option (list Z);
  pin_to_standalone : option (list Z);
  pin_to_cases : option (list Z);
  pin_to_doctors : option (list Z)
}.

Record UpdateNoteIn := { un_title : option string; un_content : option string }.

Record PinNoteRequest := { pr_entity_type : string; pr_entity_id : Z }.

Record NotePinOut := {
  po_id : Z;
  po_entity_type : string;
  po_entity_id : Z;
  po_entity_name : option string
}.

Record NoteOut := { no_note : Note.t; no_pins : list NotePinOut }.

Record Notebook := { notes : list Note.t; note_pins : list NotePin.t }.

Definition empty_notebook : Notebook := {| notes := []; note_pins := [] |}.

(** The errors of the note endpoints: 422 for a body that fails validation,
    404 "Note not found", 404 "Pin not found", 400 "Note already pinned to
    this entity". *)
Inductive NoteError :=
| note_request_invalid | note_not_found | pin_not_found | note_already_pinned.

Definition note_error_code (e : NoteError) : Z :=
  match e with
  | note_request_invalid => 422
  | note_not_found | pin_not_found => 404
  | note_already_pinned => 400
  end.

(** [title: Field(min_length=1, max_length=200)], [content: Field(min_length=1)] *)
Definition valid_CreateNoteIn (p : CreateNoteIn) : bool :=
  (1 <=? Z.of_nat (String.length (cn_title p)))
  && (Z.of_nat (String.length (cn_title p)) <=? 200)
  && (1 <=? Z.of_nat (String.length (cn_content p))).

Definition valid_UpdateNoteIn (p : UpdateNoteIn) : bool :=
  match un_title p with
  | Some t => (1 <=? Z.of_nat (String.length t)) && (Z.of_nat (String.length t) <=? 200)
  | None => true
  end
  && match un_content p with
     | Some c => 1 <=? Z.of_nat (String.length c)
     | None => true
     end.

(** [entity_type: Literal["tray", "case", "doctor", "standalone"]] *)
Definition valid_PinNoteRequest (p : PinNoteRequest) : bool :=
  String.eqb (pr_entity_type p) "tray" || String.eqb (pr_entity_type p) "case"
  || String.eqb (pr_entity_type p) "doctor" || String.eqb (pr_entity_type p) "standalone".

(** [session.delete(row)] on the two tables. *)
Definition delete_note_row (note : Note.t) (nb : Notebook) : Notebook :=
  {| notes := filter (fun n => negb (Note.id n =? Note.id note)) (notes nb);
     note_pins := note_pins nb |}.

Definition delete_pin_row (pin : NotePin.t) (nb : Notebook) : Notebook :=
  {| notes := notes nb;
     note_pins := filter (fun p => negb (NotePin.id p =? NotePin.id pin)) (note_pins nb) |}.

(** [session.add(NotePin(note_id=..., entity_type=..., entity_id=...))] *)
Definition add_pin (now note_id : Z) (entity_type : string) (entity_id : Z)
    (nb : Notebook) : Notebook :=
  {| notes := notes nb;
     note_pins := note_pins nb
                  ++ [NotePin.mk (fresh_id (map NotePin.id (note_pins nb))) note_id
                                 entity_type entity_id now] |}.

(** [if payload.pin_to_...: for entity_id in payload.pin_to_...: session.add(pin)] *)
Definition add_pins (now note_id : Z) (entity_type : string) (ids : option (list Z))
    (nb : Notebook) : Notebook :=
  match ids with
  | Some l => fold_left (fun nb entity_id => add_pin now note_id entity_type entity_id nb)
                        l nb
  | None => nb
  end.

(** [select(NotePin).where(NotePin.note_id == note_id).all()] *)
Definition pins_of (note_id : Z) (nb : Notebook) : list NotePin.t :=
  filter (fun p => NotePin.note_id p =? note_id) (note_pins nb).

(** [session.get(Note, note_id)] and the ownership test of every note
    endpoint: [if not note or note.user_id != USER_ID: raise 404]. *)
Definition get_note_or_404 (note_id : Z) (nb : Notebook) : NoteError + Note.t :=
  match find (fun n => Note.id n =? note_id) (notes nb) with
  | Some note => if String.eqb (Note.user_id note) USER_ID then inr note
                 else inl note_not_found
  | None => inl note_not_found
  end.

(** The requests that write notes and pins. *)
Inductive NoteRequest :=
| POST_notes (payload : CreateNoteIn)
| PUT_notes (note_id : Z) (payload : UpdateNoteIn)
| DELETE_notes (note_id : Z)
| POST_notes_pin (note_id : Z) (payload : PinNoteRequest)
| DELETE_notes_pin (note_id pin_id : Z).

Module Notes.
Section EntityNames.

(** [session.get(Tray, id).name] and the like, for the four kinds of entity
    a note can be pinned to. *)
Variable tray_name : Z -> option string.
Variable case_name : Z -> option string.
Variable doctor_name : Z -> option string.
Variable standalone_name : Z -> option string.

(** l.1335-1351 *)
Definition entity_name (entity_type : string) (entity_id : Z) : option string :=
  if String.eqb entity_type "tray" then tray_name entity_id
  else if String.eqb entity_type "case" then case_name entity_id
  else if String.eqb entity_type "doctor" then doctor_name entity_id
  else if String.eqb entity_type "standalone" then standalone_name entity_id
  else None.

(** [note_to_out], l.1327-1368. *)
Definition note_to_out (note : Note.t) (nb : Notebook) : NoteOut :=
  {| no_note := note;
     no_pins := map (fun pin =>
                       {| po_id := NotePin.id pin;
                          po_entity_type := NotePin.entity_type pin;
                          po_entity_id := NotePin.entity_id pin;
                          po_entity_name := entity_name (NotePin.entity_type pin)
                                                        (NotePin.entity_id pin) |})
                    (pins_of (Note.id note) nb) |}.

(** [POST /notes], l.1371-1416. *)
Definition create_note (now : Z) (payload : CreateNoteIn) (nb : Notebook)
  : NoteError + NoteOut * Notebook :=
  if negb (valid_CreateNoteIn payload) then inl note_request_invalid
  else
    let note := Note.mk (fresh_id (map Note.id (notes nb))) USER_ID
                        (cn_title payload) (cn_content payload) now now in
    let nb := {| notes := notes nb ++ [note]; note_pins := note_pins nb |} in
    let nb := add_pins now (Note.id note) "tray" (pin_to_trays payload) nb in
    let nb := add_pins now (Note.id note) "standalone" (pin_to_standalone payload) nb in
    let nb := add_pins now (Note.id note) "case" (pin_to_cases payload) nb in
    let nb := add_pins now (Note.id note) "doctor" (pin_to_doctors payload) nb in
    inr (note_to_out note nb, nb).

(** [GET /notes/{note_id}], l.1428-1434. *)
Definition get_note (note_id : Z) (nb : Notebook) : NoteError + NoteOut :=
  match get_note_or_404 note_id nb with
  | inl e => inl e
  | inr note => inr (note_to_out note nb)
  end.

(** [PUT /notes/{note_id}], l.1437-1458. *)
Definition update_note (now note_id : Z) (payload : UpdateNoteIn) (nb : Notebook)
  : NoteError + NoteOut * Notebook :=
  if negb (valid_UpdateNoteIn payload) then inl note_request_invalid
  else
    match get_note_or_404 note_id nb with
    | inl e => inl e
    | inr note =>
        let title := match un_title payload with Some t => t | None => Note.title note end in
        let content :=
          match un_content payload with Some c => c | None => Note.content note end in
        let note := Note.mk (Note.id note) (Note.user_id note) title content
                            (Note.created_at note) now in
        let nb := {| notes := update_where (fun n => Note.id n =? Note.id note)
                                           (fun _ => note) (notes nb);
                     note_pins := note_pins nb |} in
        inr (note_to_out note nb, nb)
    end.

(** [DELETE /notes/{note_id}], l.1461-1480. *)
Definition delete_note (note_id : Z) (nb : Notebook) : NoteError + Notebook :=
  match get_note_or_404 note_id nb with
  | inl e => inl e
  | inr note =>
      let nb := fold_left (fun nb pin => delete_pin_row pin nb) (pins_of note_id nb) nb in
      inr (delete_note_row note nb)
  end.

(** [POST /notes/{note_id}/pin], l.1488-1520. *)
Definition pin_note (now note_id : Z) (payload : PinNoteRequest) (nb : Notebook)
  : NoteError + NoteOut * Notebook :=
  if negb (valid_PinNoteRequest payload) then inl note_request_invalid
  else
    match get_note_or_404 note_id nb with
    | inl e => inl e
    | inr note =>
        match find (fun p => (NotePin.note_id p =? note_id)
                             && String.eqb (NotePin.entity_type p) (pr_entity_type payload)
                             && (NotePin.entity_id p =? pr_entity_id payload))
                   (note_pins nb) with
        | Some _ => inl note_already_pinned
        | None =>
            let nb := add_pin now note_id (pr_entity_type payload)
                              (pr_entity_id payload) nb in
            inr (note_to_out note nb, nb)
        end
    end.

(** [DELETE /notes/{note_id}/pin/{pin_id}], l.1523-1541. *)
Definition unpin_note (note_id pin_id : Z) (nb : Notebook) : NoteError + Notebook :=
  match get_note_or_404 note_id nb with
  | inl e => inl e
  | inr _ =>
      match find (fun p => NotePin.id p =? pin_id) (note_pins nb) with
      | Some pin => if NotePin.note_id pin =? note_id then inr (delete_pin_row pin nb)
                    else inl pin_not_found
      | None => inl pin_not_found
      end
  end.

(** The notebook a request leaves; a request that is answered with an
    error leaves the notebook as it was. *)
Definition note_step (now : Z) (req : NoteRequest) (nb : Notebook) : Notebook :=
  match req with
  | POST_notes p =>
      match create_note now p nb with inr (_, nb') => nb' | inl _ => nb end
  | PUT_notes k p =>
      match update_note now k p nb with inr (_, nb') => nb' | inl _ => nb end
  | DELETE_notes k =>
      match delete_note k nb with inr nb' => nb' | inl _ => nb end
  | POST_notes_pin k p =>
      match pin_note now k p nb with inr (_, nb') => nb' | inl _ => nb end
  | DELETE_notes_pin k pin_id =>
      match unpin_note k pin_id nb with inr nb' => nb' | inl _ => nb end
  end.

(** The notebooks the note endpoints build from the empty one. *)
Inductive reachable_notebook : Notebook -> Prop :=
| notebook_empty : reachable_notebook empty_notebook
| notebook_step (now : Z) (req : NoteRequest) (nb : Notebook) :
    reachable_notebook nb -> reachable_notebook (note_step now req nb).

End EntityNames.
End Notes.

(** No name: the answer for an entity that is not in its table. *)
Definition no_name (entity_id : Z) : option string := None.

(** Note keys and pin keys are distinct, every note belongs to [USER_ID],
    and every pin hangs under a note of the table. *)
Record notebook_invariant (nb : Notebook) : Prop := {
  nb_note_ids : NoDup (map Note.id (notes nb));
  nb_pin_ids : NoDup (map NotePin.id (note_pins nb));
  nb_owner : forall n, In n (notes nb) -> Note.user_id n = USER_ID;
  nb_pins : forall p, In p (note_pins nb) -> In (NotePin.note_id p) (map Note.id (notes nb))
}.

(* ================================================================= *)
(** ** Doctors

    The doctor endpoints, l.1231-1320.  They write the doctor table;
    [delete_doctor] also deletes from the pin table of the notes. *)

Module Doctor.
Record t := mk {
  id : Z;
  user_id : string;
  name : string;
  specialty : option string;
  phone : option string;
  email : option string;
  hospital : option string;
  created_at : Z;
  updated_at : Z
}.
End Doctor.

Record CreateDoctorIn := {
  cd_name : string;
  cd_specialty : option string;
  cd_phone : option string;
  cd_email : option string;
  cd_hospital : option string
}.

(** The doctor table and the pin table. *)
Record Practice := { doctors : list Doctor.t; pins : list NotePin.t }.

(** 422 for a body that fails validation, 404 "Doctor not found". *)
Inductive DoctorError := doctor_request_invalid | doctor_not_found.

(** What [delete_doctor] answers with status 200: [{"ok": True}], or the
    [null] of a function that ends without a [return]. *)
Inductive DeleteAnswer := answer_ok | answer_null.

Definition max_length_opt (n : Z) (s : option string) : bool :=
  match s with
  | Some s => Z.of_nat (String.length s) <=? n
  | None => true
  end.

Definition valid_CreateDoctorIn (p : CreateDoctorIn) : bool :=
  (1 <=? Z.of_nat (String.length (cd_name p)))
  && (Z.of_nat (String.length (cd_name p)) <=? 200)
  && max_length_opt 200 (cd_specialty p) && max_length_opt 50 (cd_phone p)
  && max_length_opt 200 (cd_email p) && max_length_opt 200 (cd_hospital p).

(** [session.get(Doctor, doctor_id)] and
    [if not doctor or doctor.user_id != USER_ID: raise 404]. *)
Definition get_doctor_or_404 (doctor_id : Z) (s : Practice) : DoctorError + Doctor.t :=
  match find (fun d => Doctor.id d =? doctor_id) (doctors s) with
  | Some doctor => if String.eqb (Doctor.user_id doctor) USER_ID then inr doctor
                   else inl doctor_not_found
  | None => inl doctor_not_found
  end.

(** [NotePin.entity_type == "doctor", NotePin.entity_id == doctor_id] *)
Definition pinned_to_doctor (doctor_id : Z) (p : NotePin.t) : bool :=
  String.eqb (NotePin.entity_type p) "doctor" && (NotePin.entity_id p =? doctor_id).

(** [POST /doctors], l.1231-1250. *)
Definition create_doctor (now : Z) (payload : CreateDoctorIn) (s : Practice)
  : DoctorError + Doctor.t * Practice :=
  if negb (valid_CreateDoctorIn payload) then inl doctor_request_invalid
  else
    let doctor := Doctor.mk (fresh_id (map Doctor.id (doctors s))) USER_ID
                            (cd_name payload) (cd_specialty payload) (cd_phone payload)
                            (cd_email payload) (cd_hospital payload) now now in
    inr (doctor, {| doctors := doctors s ++ [doctor]; pins := pins s |}).

(** [GET /doctors/{doctor_id}], l.1262-1268. *)
Definition get_doctor (doctor_id : Z) (s : Practice) : DoctorError + Doctor.t :=
  get_doctor_or_404 doctor_id s.

(** [PUT /doctors/{doctor_id}], l.1271-1293. *)
Definition update_doctor (now doctor_id : Z) (payload : CreateDoctorIn) (s : Practice)
  : DoctorError + Doctor.t * Practice :=
  if negb (valid_CreateDoctorIn payload) then inl doctor_request_invalid
  else
    match get_doctor_or_404 doctor_id s with
    | inl e => inl e
    | inr doctor =>
        let doctor := Doctor.mk (Doctor.id doctor) (Doctor.user_id doctor)
                                (cd_name payload) (cd_specialty payload)
                                (cd_phone payload) (cd_email payload)
                                (cd_hospital payload) (Doctor.created_at doctor) now in
        inr (doctor,
             {| doctors := update_where (fun d => Doctor.id d =? Doctor.id doctor)
                                        (fun _ => doctor) (doctors s);
                pins := pins s |})
    end.

(** [DELETE /doctors/{doctor_id}], l.1296-1320.  The deletion of the
    doctor, the commit and the [return] are written inside the loop over the
    pins: the first pin is deleted, then the doctor, and the function
    returns; with no pin the loop body never runs and the function ends
    without a write and without a [return]. *)
Definition delete_doctor (doctor_id : Z) (s : Practice)
  : DoctorError + DeleteAnswer * Practice :=
  match get_doctor_or_404 doctor_id s with
  | inl e => inl e
  | inr doctor =>
      match filter (pinned_to_doctor doctor_id) (pins s) with
      | pin :: _ =>
          inr (answer_ok,
               {| doctors := filter (fun d => negb (Doctor.id d =? Doctor.id doctor))
                                    (doctors s);
                  pins := filter (fun p => negb (NotePin.id p =? NotePin.id pin))
                                 (pins s) |})
      | [] => inr (answer_null, s)
      end
  end.

(** Two trays: one ready, and after it one that an inventory check has
    flagged without a priority. *)
Definition two_trays_db : DB :=
  run [ (1, POST_seed_trays {| cti_name := "Spine set" |});
        (2, POST_seed_trays {| cti_name := "Hip set" |});
        (3, POST_seed_tray_items
              (CreateTrayItemIn.mk 2 "H" "Item H" false (Some 5) (Some 5)));
        (4, POST_inventory_checks
              (InventoryCheckRequest.mk 2 "rep001" demo_gps
                 [InventoryCheckItem.mk 1 None None None]
                 None None None None None None None None)) ]
      empty_db.

(* ================================================================= *)
(** ** Two inventory checks at once

    The endpoints are plain [def]s, which the server runs in worker
    threads, and the engine is built with [poolclass=StaticPool] and
    [check_same_thread=False] (l.509-513): every session of every thread
    works on the one connection of the pool, so the statements of two
    requests interleave on one transaction.  [ensure_open_restock_task]
    is cut where another thread can run, between its SELECT and what it
    does with the answer. *)

(** l.582-587: the SELECT of [ensure_open_restock_task]. *)
Definition select_open_task (tray_id : Z) : M (option RestockTask.t) :=
  query (fun db => first_open_task db tray_id).

(** l.588-593: what [ensure_open_restock_task] does with the answer of its
    SELECT. *)
Definition add_task_if_none (now tray_id : Z) (found : option RestockTask.t)
  : M RestockTask.t :=
  match found with
  | Some task => ret task
  | None =>
      ids <- query (fun db => map RestockTask.id (restock_tasks db)) ;;
      let task := RestockTask.mk (fresh_id ids) tray_id RestockStatus.open now now in
      modify (insert_task task) ;;
      ret task
  end.

(** [inventory_check] up to the SELECT of [ensure_open_restock_task]
    (l.807-813 and l.582-587), and from there to its end (l.588-593 and
    l.815-894). *)
Definition inventory_check_to_select (payload : InventoryCheckRequest.t)
  : M (Tray.t * option RestockTask.t) :=
  tray <- get_tray_or_404 (InventoryCheckRequest.tray_id payload) ;;
  match InventoryCheckRequest.items payload with
  | [] => raise 400 must_specify_item_needing_restock
  | _ :: _ =>
      found <- select_open_task (Tray.id tray) ;;
      ret (tray, found)
  end.

Definition inventory_check_from_select (now : Z) (payload : InventoryCheckRequest.t)
    (tray : Tray.t) (found : option RestockTask.t) : M TrayOut :=
  task <- add_task_if_none now (Tray.id tray) found ;;
  for_each (InventoryCheckRequest.items payload) (flag_item tray task) ;;
  add_event (inventory_check_event now payload tray) ;;
  let tray := inventory_check_tray_update now payload tray in
  modify (save_tray tray) ;;
  modify (update_task (RestockTask.id task) (RestockTask.set_updated_at now)) ;;
  commit ;;
  tray_to_out tray.

(** A thread goes on with what its first part returned; a thread whose
    first part raised runs no further statement. *)
Definition resume {A B : Type} (r : Outcome A) (k : A -> M B) : M B :=
  match r with
  | Return a => k a
  | Raise e => fun s => (Raise e, s)
  end.

(** The end of a [with Session(engine)] block: the connection goes back to
    the pool, which rolls back what is on it and not committed. *)
Definition close_session (s : Session) : Session :=
  {| committed := committed s; pending := committed s |}.

(** Two inventory checks, A and B, served by two threads under the schedule:
    A up to its SELECT, B up to its SELECT, A to its end, B to its end.
    The answers of A and of B and the store that is left. *)
Definition two_checks_interleaved (nowA nowB : Z)
    (payloadA payloadB : InventoryCheckRequest.t) (db : DB)
  : Outcome TrayOut * Outcome TrayOut * DB :=
  let s := {| committed := db; pending := db |} in
  let (a, s) := inventory_check_to_select payloadA s in
  let (b, s) := inventory_check_to_select payloadB s in
  let (outA, s) :=
    resume a (fun x => inventory_check_from_select nowA payloadA (fst x) (snd x)) s in
  let s := close_session s in
  let (outB, s) :=
    resume b (fun x => inventory_check_from_select nowB payloadB (fst x) (snd x)) s in
  let s := close_session s in
  (outA, outB, committed s).

(* ================================================================= *)
(** * Properties *)

(** ** The priority engine *)

(** C1. The merge never downgrades: the resulting numeric is the existing
    one unless an incoming numeric is adopted, which happens exactly when
    there is no existing numeric or the incoming one is strictly greater;
    so an existing numeric [e] yields a numeric [r] with [e <= r], and an
    incoming 2 against an existing 3 keeps 3. *)
Theorem apply_priority_non_downgrade_monotonic :
  forall (existing_numeric : option Z) (existing_partial : bool)
         (new_numeric : option Z) (new_partial : option bool),
    let out_numeric :=
      fst (apply_priority_non_downgrade existing_numeric existing_partial
                                        new_numeric new_partial) in
    (out_numeric = existing_numeric
     \/ exists n, new_numeric = Some n /\ out_numeric = Some n
                  /\ (existing_numeric = None
                      \/ exists e, existing_numeric = Some e /\ e < n))
    /\ (forall n, new_numeric = Some n ->
                  (existing_numeric = None
                   \/ exists e, existing_numeric = Some e /\ e < n) ->
                  out_numeric = Some n)
    /\ (forall e, existing_numeric = Some e ->
                  exists r, out_numeric = Some r /\ e <= r)
    /\ fst (apply_priority_non_downgrade (Some 3) existing_partial
                                         (Some 2) new_partial) = Some 3.
Proof.
  intros en ep nn np out_numeric; subst out_numeric.
  unfold apply_priority_non_downgrade; cbn [fst].
  repeat split.
  - destruct nn as [n|]; [|now left].
    destruct en as [e|].
    + destruct (Z.gtb_spec n e).
      * right. exists n. repeat split; auto. right. exists e. split; [reflexivity|lia].
      * now left.
    + right. exists n. repeat split; auto.
  - intros n -> [-> | [e [-> Hlt]]]; [reflexivity|].
    destruct (Z.gtb_spec n e); [reflexivity|lia].
  - intros e ->. destruct nn as [n|].
    + destruct (Z.gtb_spec n e).
      * exists n. split; [reflexivity|lia].
      * exists e. split; [reflexivity|lia].
    + exists e. split; [reflexivity|lia].
Qed.

(** C2. [map_color] is a total function that agrees with the color rule of
    the specification on every input, and ready always gives green. *)
Theorem map_color_total_spec :
  forall (priority_numeric : option Z) (partial ready : bool),
    map_color priority_numeric partial ready
    = computeColor priority_numeric partial ready
    /\ map_color priority_numeric partial true = "green"%string.
Proof.
  intros pn partial rdy. split; [|reflexivity].
  unfold map_color, computeColor, is_level.
  destruct rdy; [reflexivity|].
  destruct pn as [n|]; [|reflexivity].
  rewrite (Z.eqb_sym n 1), (Z.eqb_sym n 2), (Z.eqb_sym n 3).
  destruct (1 =? n); [reflexivity|].
  destruct (2 =? n); [reflexivity|].
  destruct (3 =? n); reflexivity.
Qed.

(* ================================================================= *)
(** ** Lists and tables *)

Lemma fresh_id_above (ids : list Z) (x : Z) : In x ids -> x < fresh_id ids.
Proof.
  unfold fresh_id. induction ids as [|y ids IH]; cbn [In fold_right]; [easy|].
  intros [->|Hin]; [lia|]. specialize (IH Hin). lia.
Qed.

Lemma fresh_id_not_in (ids : list Z) : ~ In (fresh_id ids) ids.
Proof. intros H. apply fresh_id_above in H. lia. Qed.

Section UpdateWhere.
Context {A : Type} (p : A -> bool) (f : A -> A).

Lemma in_update_where (l : list A) (y : A) :
  In y (update_where p f l) <->
  exists x, In x l /\ y = (if p x then f x else x).
Proof.
  unfold update_where. rewrite in_map_iff.
  split; intros [x [H1 H2]]; exists x; split; auto.
Qed.

Lemma map_update_where {B : Type} (g : A -> B) (l : list A) :
  (forall x, g (f x) = g x) -> map g (update_where p f l) = map g l.
Proof.
  intros Hg. unfold update_where. rewrite map_map. apply map_ext.
  intros x. destruct (p x); auto.
Qed.

Lemma existsb_update_where_same (q : A -> bool) (l : list A) :
  (forall x, p x = true -> q (f x) = q x) ->
  existsb q (update_where p f l) = existsb q l.
Proof.
  intros Hq. unfold update_where.
  induction l as [|x l IH]; cbn; [reflexivity|].
  rewrite IH. destruct (p x) eqn:Hp; [rewrite Hq|]; auto.
Qed.

Lemma filter_length_update_where_same (q : A -> bool) (l : list A) :
  (forall x, q (f x) = q x) ->
  List.length (filter q (update_where p f l)) = List.length (filter q l).
Proof.
  intros Hq. unfold update_where.
  induction l as [|x l IH]; cbn; [reflexivity|].
  assert (E : q (if p x then f x else x) = q x) by (destruct (p x); auto).
  rewrite E. destruct (q x); cbn; rewrite IH; reflexivity.
Qed.

Lemma filter_length_update_where_le (q : A -> bool) (l : list A) :
  (forall x, q (f x) = true -> q x = true) ->
  (List.length (filter q (update_where p f l)) <= List.length (filter q l))%nat.
Proof.
  intros Hq. unfold update_where.
  induction l as [|x l IH]; cbn; [lia|].
  destruct (p x) eqn:Hp.
  - destruct (q (f x)) eqn:Hqf.
    + rewrite (Hq _ Hqf). cbn. lia.
    + destruct (q x); cbn; lia.
  - destruct (q x); cbn; lia.
Qed.

Lemma find_update_where_key (k : A -> bool) (l : list A) :
  (forall x, p x = true -> k (f x) = k x) ->
  find k (update_where p f l)
  = option_map (fun x => if p x then f x else x) (find k l).
Proof.
  intros Hk. unfold update_where.
  induction l as [|x l IH]; cbn; [reflexivity|].
  assert (E : k (if p x then f x else x) = k x)
    by (destruct (p x) eqn:Hp; auto).
  rewrite E. destruct (k x); [reflexivity|exact IH].
Qed.
End UpdateWhere.

Lemma find_none_filter {A : Type} (p : A -> bool) (l : list A) :
  find p l = None -> filter p l = [].
Proof.
  induction l as [|x l IH]; cbn; [reflexivity|].
  destruct (p x); [discriminate|auto].
Qed.

Lemma filter_nil_existsb {A : Type} (p : A -> bool) (l : list A) :
  filter p l = [] <-> existsb p l = false.
Proof.
  induction l as [|x l IH]; cbn; [tauto|].
  destruct (p x); cbn; [split; discriminate|exact IH].
Qed.

Lemma nodup_key_inj {A : Type} (key : A -> Z) (l : list A) (x y : A) :
  NoDup (map key l) -> In x l -> In y l -> key x = key y -> x = y.
Proof.
  induction l as [|a l IH]; cbn; [easy|].
  intros Hnd Hx Hy Hk. inversion Hnd as [|? ? Hna Hnd']; subst.
  destruct Hx as [->|Hx], Hy as [->|Hy]; auto.
  - exfalso. apply Hna. rewrite Hk. now apply in_map.
  - exfalso. apply Hna. rewrite <- Hk. now apply in_map.
Qed.

(* ================================================================= *)
(** ** Running the helpers and the loops *)

Lemma update_where_const_idem {A : Type} (p : A -> bool) (v : A) (l : list A) :
  update_where p (fun _ => v) (update_where p (fun _ => v) l)
  = update_where p (fun _ => v) l.
Proof.
  unfold update_where. rewrite map_map. apply map_ext.
  intros x. destruct (p x) eqn:Hp; [|now rewrite Hp].
  now destruct (p v).
Qed.

Lemma find_app_none {A : Type} (p : A -> bool) (l l' : list A) :
  find p l = None -> find p (l ++ l') = find p l'.
Proof.
  induction l as [|x l IH]; cbn; [reflexivity|].
  destruct (p x); [discriminate|auto].
Qed.

Lemma ensure_open_restock_task_run (now tray_id : Z) (c d : DB) :
  ensure_open_restock_task now tray_id {| committed := c; pending := d |}
  = (Return (fst (ensure_task now tray_id d)),
     {| committed := c; pending := snd (ensure_task now tray_id d) |}).
Proof.
  unfold ensure_open_restock_task, ensure_task, bind, query, modify, ret; cbn.
  destruct (first_open_task d tray_id); reflexivity.
Qed.

Lemma ensure_task_first_open (now tray_id : Z) (db : DB) :
  first_open_task (snd (ensure_task now tray_id db)) tray_id
  = Some (fst (ensure_task now tray_id db)).
Proof.
  unfold ensure_task. destruct (first_open_task db tray_id) eqn:E; cbn; [exact E|].
  unfold first_open_task in *; cbn. rewrite (find_app_none _ _ _ E). cbn.
  unfold open_task_of; cbn. now rewrite Z.eqb_refl.
Qed.

Lemma ensure_task_frame (now tray_id : Z) (db : DB) :
  let db1 := snd (ensure_task now tray_id db) in
  trays db1 = trays db /\ tray_items db1 = tray_items db
  /\ restock_task_items db1 = restock_task_items db /\ events db1 = events db.
Proof.
  unfold ensure_task. destruct (first_open_task db tray_id); cbn; auto.
Qed.

Lemma in_tray_update_qty (rows : list TrayItem.t) (item item' : TrayItem.t)
    (k tray_id item_id : Z) :
  find (fun i => TrayItem.id i =? k) rows = Some item ->
  TrayItem.id item' = TrayItem.id item ->
  TrayItem.tray_id item' = TrayItem.tray_id item ->
  in_tray (update_where (fun i => TrayItem.id i =? TrayItem.id item) (fun _ => item') rows)
          tray_id item_id
  = in_tray rows tray_id item_id.
Proof.
  intros Hf Hid Htr. unfold in_tray.
  rewrite find_update_where_key
    by (intros x Hx; apply Z.eqb_eq in Hx; now rewrite Hid, Hx).
  destruct (find (fun i => TrayItem.id i =? item_id) rows) as [x|] eqn:Hx; cbn;
    [|reflexivity].
  destruct (TrayItem.id x =? TrayItem.id item) eqn:Hk; [|reflexivity].
  apply Z.eqb_eq in Hk. rewrite Htr.
  pose proof (find_some _ _ Hx) as [_ Hxi]. apply Z.eqb_eq in Hxi.
  pose proof (find_some _ _ Hf) as [_ Hfi]. apply Z.eqb_eq in Hfi.
  assert (E : item_id = k) by congruence.
  rewrite E, Hf in Hx. now injection Hx as ->.
Qed.

Lemma use_qty_keeps (u : option Z) (item item' : TrayItem.t) :
  use_qty u item = Some item' ->
  TrayItem.id item' = TrayItem.id item
  /\ TrayItem.tray_id item' = TrayItem.tray_id item
  /\ TrayItem.qty_expected item' = TrayItem.qty_expected item.
Proof.
  unfold use_qty. destruct u as [u|]; [|discriminate].
  destruct (u >? 0); [|discriminate]. intros [= <-]. cbn. auto.
Qed.

Lemma add_qty_keeps (r : option Z) (item item' : TrayItem.t) :
  add_qty r item = Some item' ->
  TrayItem.id item' = TrayItem.id item
  /\ TrayItem.tray_id item' = TrayItem.tray_id item
  /\ TrayItem.qty_expected item' = TrayItem.qty_expected item.
Proof.
  unfold add_qty. destruct r as [r|]; [|discriminate].
  destruct (r >? 0); [|discriminate].
  destruct (TrayItem.qty_expected item) eqn:E; intros [= <-]; cbn; auto.
Qed.

Lemma in_tray_use_item_rows (it : InventoryCheckItem.t) (rows : list TrayItem.t)
    (tray_id item_id : Z) :
  in_tray (use_item_rows it rows) tray_id item_id = in_tray rows tray_id item_id.
Proof.
  unfold use_item_rows.
  destruct (find _ rows) as [item|] eqn:Hf; [|reflexivity].
  destruct (use_qty _ item) as [item'|] eqn:Hu; [|reflexivity].
  apply use_qty_keeps in Hu. destruct Hu as [H1 [H2 _]].
  eapply in_tray_update_qty; eauto.
Qed.

Lemma first_stray_use_item_rows (it : InventoryCheckItem.t) (rows : list TrayItem.t)
    (tray_id : Z) (items : list InventoryCheckItem.t) :
  first_stray (use_item_rows it rows) tray_id items = first_stray rows tray_id items.
Proof.
  unfold first_stray. induction items as [|x items IH]; cbn; [reflexivity|].
  now rewrite in_tray_use_item_rows, IH.
Qed.

(** One turn of the loop of the inventory check. *)
Lemma flag_item_run (tray : Tray.t) (task : RestockTask.t) (it : InventoryCheckItem.t)
    (c d : DB) :
  flag_item tray task it {| committed := c; pending := d |}
  = if in_tray (tray_items d) (Tray.id tray) (InventoryCheckItem.item_id it) then
      (Return tt,
       {| committed := c;
          pending :=
            set_restock_task_items
              (flag_row (RestockTask.id task) it (restock_task_items d))
              (set_tray_items (use_item_rows it (tray_items d)) d) |})
    else
      (Raise {| status_code := 400;
                detail := item_not_found_in_tray (InventoryCheckItem.item_id it)
                                                 (Tray.id tray) |},
       {| committed := c; pending := d |}).
Proof.
  destruct d as [ts tis tks rws evs].
  unfold flag_item, in_tray, use_item_rows, flag_row, bind, query, modify, ret, raise,
    get_tray_item, first_unresolved_for, update_tray_item, update_task_item,
    insert_task_item, set_restock_task_items, set_tray_items; cbn.
  destruct (find _ tis) as [item|]; [|reflexivity].
  destruct (TrayItem.tray_id item =? Tray.id tray); cbn; [|reflexivity].
  destruct (use_qty _ item); cbn; destruct (find _ rws); reflexivity.
Qed.

Lemma for_each_flag_item_run (tray : Tray.t) (task : RestockTask.t)
    (items : list InventoryCheckItem.t) (c d : DB) :
  match first_stray (tray_items d) (Tray.id tray) items with
  | None =>
      for_each items (flag_item tray task) {| committed := c; pending := d |}
      = (Return tt,
         {| committed := c;
            pending :=
              set_restock_task_items
                (fold_left (fun rows it => flag_row (RestockTask.id task) it rows)
                           items (restock_task_items d))
                (set_tray_items
                   (fold_left (fun rows it => use_item_rows it rows) items (tray_items d))
                   d) |})
  | Some it =>
      exists d',
      for_each items (flag_item tray task) {| committed := c; pending := d |}
      = (Raise {| status_code := 400;
                  detail := item_not_found_in_tray (InventoryCheckItem.item_id it)
                                                   (Tray.id tray) |},
         {| committed := c; pending := d' |})
  end.
Proof.
  revert d. induction items as [|it items IH]; intros d.
  - destruct d; reflexivity.
  - cbn [first_stray find for_each]. unfold bind. rewrite flag_item_run.
    destruct (in_tray _ _ _) eqn:Hin; cbn [negb].
    + specialize (IH (set_restock_task_items
                        (flag_row (RestockTask.id task) it (restock_task_items d))
                        (set_tray_items (use_item_rows it (tray_items d)) d))).
      cbn [tray_items set_restock_task_items set_tray_items restock_task_items] in IH.
      fold (first_stray (use_item_rows it (tray_items d)) (Tray.id tray) items) in IH.
      rewrite first_stray_use_item_rows in IH.
      fold (first_stray (tray_items d) (Tray.id tray) items).
      destruct (first_stray (tray_items d) (Tray.id tray) items).
      * exact IH.
      * rewrite IH. destruct d; reflexivity.
    + exists d. reflexivity.
Qed.

Lemma restock_item_run (tray : Tray.t) (ip : RestockPartialItem.t) (c d : DB) :
  restock_item tray ip {| committed := c; pending := d |}
  = (Return tt,
     {| committed := c;
        pending := set_tray_items (restock_item_rows (Tray.id tray) ip (tray_items d)) d |}).
Proof.
  destruct d as [ts tis tks rws evs].
  unfold restock_item, restock_item_rows, bind, query, modify, ret, get_tray_item,
    update_tray_item, set_tray_items; cbn.
  destruct (find _ tis) as [item|]; [|reflexivity].
  destruct (TrayItem.tray_id item =? Tray.id tray); [|reflexivity].
  destruct (add_qty _ item); reflexivity.
Qed.

Lemma for_each_restock_item_run (tray : Tray.t) (items : list RestockPartialItem.t)
    (c d : DB) :
  for_each items (restock_item tray) {| committed := c; pending := d |}
  = (Return tt,
     {| committed := c;
        pending :=
          set_tray_items
            (fold_left (fun rows ip => restock_item_rows (Tray.id tray) ip rows)
                       items (tray_items d)) d |}).
Proof.
  revert d. induction items as [|ip items IH]; intros d.
  - destruct d; reflexivity.
  - cbn [for_each fold_left]. unfold bind. rewrite restock_item_run, IH.
    destruct d; reflexivity.
Qed.

(* ================================================================= *)
(** ** Running the endpoints *)

Lemma get_tray_id (db : DB) (tray_id : Z) (tray : Tray.t) :
  get_tray db tray_id = Some tray -> Tray.id tray = tray_id.
Proof.
  intros H. apply find_some in H. now apply Z.eqb_eq.
Qed.

Lemma handle_invalid (now : Z) (req : Request) (db : DB) :
  match req with
  | POST_seed_trays p => valid_CreateTrayIn p
  | POST_seed_tray_items p => valid_CreateTrayItemIn p
  | POST_scan_events_dropoff p => valid_DropoffRequest p
  | POST_inventory_checks p => valid_InventoryCheckRequest p
  | POST_restocks_full p => valid_RestockFullRequest p
  | POST_restocks_partial p => valid_RestockPartialRequest p
  end = false ->
  handle now req db
  = (Raise {| status_code := 422; detail := request_validation_error |}, db).
Proof.
  intros H. unfold handle, with_Session, endpoint.
  destruct req; rewrite H; reflexivity.
Qed.

Lemma restock_full_not_found (now : Z) (p : RestockFullRequest.t) (db : DB) :
  valid_RestockFullRequest p = true ->
  get_tray db (RestockFullRequest.tray_id p) = None ->
  handle now (POST_restocks_full p) db
  = (Raise {| status_code := 404;
              detail := tray_not_found (RestockFullRequest.tray_id p) |}, db).
Proof.
  intros Hv Ht. unfold handle, with_Session, endpoint, validated. rewrite Hv.
  unfold restock_full, get_tray_or_404, bind, query, raise; cbn. now rewrite Ht.
Qed.

Lemma inventory_check_tray_update_id (now : Z) (p : InventoryCheckRequest.t)
    (tray : Tray.t) :
  Tray.id (inventory_check_tray_update now p tray) = Tray.id tray.
Proof.
  unfold inventory_check_tray_update.
  destruct (apply_priority_non_downgrade _ _ _ _).
  destruct (InventoryCheckRequest.location_type p); reflexivity.
Qed.

Lemma restock_full_tray_update_id (now : Z) (p : RestockFullRequest.t) (tray : Tray.t) :
  Tray.id (restock_full_tray_update now p tray) = Tray.id tray.
Proof.
  unfold restock_full_tray_update.
  destruct (RestockFullRequest.location_type p); reflexivity.
Qed.

Lemma restock_partial_tray_update_id (now : Z) (p : RestockPartialRequest.t)
    (remaining_open : list RestockTaskItem.t) (tray : Tray.t) :
  Tray.id (restock_partial_tray_update now p remaining_open tray) = Tray.id tray.
Proof.
  unfold restock_partial_tray_update.
  destruct (RestockPartialRequest.new_priority p), remaining_open,
    (RestockPartialRequest.location_type p); reflexivity.
Qed.

Lemma restock_full_ok (now : Z) (p : RestockFullRequest.t) (db : DB) (tray : Tray.t) :
  valid_RestockFullRequest p = true ->
  get_tray db (RestockFullRequest.tray_id p) = Some tray ->
  handle now (POST_restocks_full p) db
  = (Return (tray_response (tray_out (restock_full_tray_update now p tray)
                                     (restock_full_db now p tray db))),
     restock_full_db now p tray db).
Proof.
  intros Hv Ht. unfold handle, with_Session, endpoint, validated. rewrite Hv.
  destruct db as [ts tis tks rws evs].
  unfold get_tray in Ht; cbn in Ht.
  unfold restock_full, restock_full_db, get_tray_or_404, tray_to_out, tray_out, add_event,
    save_tray, bind, query, modify, commit, raise, ret, get_tray, first_open_task.
  cbn -[restock_full_tray_update].
  rewrite Ht. cbn -[restock_full_tray_update].
  rewrite !restock_full_tray_update_id.
  destruct (find _ tks); reflexivity.
Qed.

Lemma inventory_check_not_found (now : Z) (p : InventoryCheckRequest.t) (db : DB) :
  valid_InventoryCheckRequest p = true ->
  get_tray db (InventoryCheckRequest.tray_id p) = None ->
  handle now (POST_inventory_checks p) db
  = (Raise {| status_code := 404;
              detail := tray_not_found (InventoryCheckRequest.tray_id p) |}, db).
Proof.
  intros Hv Ht. unfold handle, with_Session, endpoint, validated. rewrite Hv.
  unfold inventory_check, get_tray_or_404, bind, query, raise; cbn. now rewrite Ht.
Qed.

Lemma inventory_check_empty (now : Z) (p : InventoryCheckRequest.t) (db : DB)
    (tray : Tray.t) :
  valid_InventoryCheckRequest p = true ->
  get_tray db (InventoryCheckRequest.tray_id p) = Some tray ->
  InventoryCheckRequest.items p = [] ->
  handle now (POST_inventory_checks p) db
  = (Raise {| status_code := 400; detail := must_specify_item_needing_restock |}, db).
Proof.
  intros Hv Ht Hi. unfold handle, with_Session, endpoint, validated. rewrite Hv.
  unfold inventory_check, get_tray_or_404, bind, query, raise, ret; cbn.
  rewrite Ht, Hi. reflexivity.
Qed.

Lemma inventory_check_stray (now : Z) (p : InventoryCheckRequest.t) (db : DB)
    (tray : Tray.t) (it : InventoryCheckItem.t) :
  valid_InventoryCheckRequest p = true ->
  get_tray db (InventoryCheckRequest.tray_id p) = Some tray ->
  first_stray (tray_items db) (Tray.id tray) (InventoryCheckRequest.items p) = Some it ->
  handle now (POST_inventory_checks p) db
  = (Raise {| status_code := 400;
              detail := item_not_found_in_tray (InventoryCheckItem.item_id it)
                                               (Tray.id tray) |}, db).
Proof.
  intros Hv Ht Hs. unfold handle, with_Session, endpoint, validated. rewrite Hv.
  unfold inventory_check, get_tray_or_404, bind, query, raise, ret.
  cbn [pending committed]. rewrite Ht.
  destruct (InventoryCheckRequest.items p) as [|it0 items] eqn:Hi; [discriminate|].
  rewrite ensure_open_restock_task_run.
  pose proof (for_each_flag_item_run tray (fst (ensure_task now (Tray.id tray) db))
                (it0 :: items) db (snd (ensure_task now (Tray.id tray) db))) as L.
  destruct (ensure_task_frame now (Tray.id tray) db) as [_ [E _]]. rewrite E in L.
  rewrite Hs in L. destruct L as [d' L]. rewrite L. reflexivity.
Qed.

Lemma inventory_check_ok (now : Z) (p : InventoryCheckRequest.t) (db : DB)
    (tray : Tray.t) :
  valid_InventoryCheckRequest p = true ->
  get_tray db (InventoryCheckRequest.tray_id p) = Some tray ->
  InventoryCheckRequest.items p <> [] ->
  first_stray (tray_items db) (Tray.id tray) (InventoryCheckRequest.items p) = None ->
  handle now (POST_inventory_checks p) db
  = (Return (tray_response (tray_out (inventory_check_tray_update now p tray)
                                     (inventory_check_db now p tray db))),
     inventory_check_db now p tray db).
Proof.
  intros Hv Ht Hne Hs. unfold handle, with_Session, endpoint, validated. rewrite Hv.
  unfold inventory_check, get_tray_or_404, bind, query, raise, ret.
  cbn [pending committed]. rewrite Ht.
  destruct (InventoryCheckRequest.items p) as [|it0 items] eqn:Hi; [congruence|].
  rewrite ensure_open_restock_task_run.
  pose proof (for_each_flag_item_run tray (fst (ensure_task now (Tray.id tray) db))
                (it0 :: items) db (snd (ensure_task now (Tray.id tray) db))) as L.
  destruct (ensure_task_frame now (Tray.id tray) db) as [E1 [E2 [E3 E4]]].
  rewrite E2 in L. rewrite Hs in L. rewrite L. clear L.
  unfold inventory_check_db, add_event, tray_to_out, tray_out, save_tray, bind, query,
    modify, commit, ret, update_tray, update_task, insert_event.
  rewrite Hi.
  cbn [pending committed fst snd trays tray_items restock_tasks restock_task_items events
       set_trays set_tray_items set_restock_tasks set_restock_task_items set_events].
  rewrite !inventory_check_tray_update_id, E1, E3, E4.
  reflexivity.
Qed.

Lemma restock_partial_not_found (now : Z) (p : RestockPartialRequest.t) (db : DB) :
  valid_RestockPartialRequest p = true ->
  get_tray db (RestockPartialRequest.tray_id p) = None ->
  handle now (POST_restocks_partial p) db
  = (Raise {| status_code := 404;
              detail := tray_not_found (RestockPartialRequest.tray_id p) |}, db).
Proof.
  intros Hv Ht. unfold handle, with_Session, endpoint, validated. rewrite Hv.
  unfold restock_partial, get_tray_or_404, bind, query, raise; cbn. now rewrite Ht.
Qed.

Lemma restock_partial_empty (now : Z) (p : RestockPartialRequest.t) (db : DB)
    (tray : Tray.t) :
  valid_RestockPartialRequest p = true ->
  get_tray db (RestockPartialRequest.tray_id p) = Some tray ->
  RestockPartialRequest.items p = [] ->
  handle now (POST_restocks_partial p) db
  = (Raise {| status_code := 400; detail := must_specify_item_to_restock |}, db).
Proof.
  intros Hv Ht Hi. unfold handle, with_Session, endpoint, validated. rewrite Hv.
  unfold restock_partial, get_tray_or_404, bind, query, raise, ret; cbn.
  rewrite Ht, Hi. reflexivity.
Qed.

Lemma restock_partial_ok (now : Z) (p : RestockPartialRequest.t) (db : DB)
    (tray : Tray.t) :
  valid_RestockPartialRequest p = true ->
  get_tray db (RestockPartialRequest.tray_id p) = Some tray ->
  RestockPartialRequest.items p <> [] ->
  let task := fst (ensure_task now (Tray.id tray) db) in
  let remaining_open :=
    filter (unresolved_of (RestockTask.id task))
           (restock_task_items (restock_partial_db now p tray db)) in
  handle now (POST_restocks_partial p) db
  = (Return (tray_response
               (tray_out (restock_partial_tray_update now p remaining_open tray)
                         (restock_partial_db now p tray db))),
     restock_partial_db now p tray db).
Proof.
  intros Hv Ht Hne task remaining_open.
  unfold handle, with_Session, endpoint, validated. rewrite Hv.
  unfold restock_partial, get_tray_or_404, bind, query, raise, ret.
  cbn [pending committed]. rewrite Ht.
  destruct (RestockPartialRequest.items p) as [|it0 items] eqn:Hi; [congruence|].
  rewrite ensure_open_restock_task_run, for_each_restock_item_run.
  destruct (ensure_task_frame now (Tray.id tray) db) as [E1 [E2 [E3 E4]]].
  pose proof (ensure_task_first_open now (Tray.id tray) db) as Efo.
  unfold first_open_task in Efo.
  unfold close_restock_task_if_empty, add_event, tray_to_out, tray_out, save_tray, bind,
    query, modify, commit, ret, update_tray, update_task, insert_event, open_items,
    first_open_task.
  cbn [pending committed fst snd trays tray_items restock_tasks restock_task_items events
       set_trays set_tray_items set_restock_tasks set_restock_task_items set_events].
  rewrite !restock_partial_tray_update_id, E1, E2, E3, E4, Efo.
  subst remaining_open task. unfold restock_partial_db.
  rewrite Hi.
  cbn [pending committed fst snd trays tray_items restock_tasks restock_task_items events
       set_trays set_tray_items set_restock_tasks set_restock_task_items set_events].
  destruct (filter _ _) eqn:Hrem;
    cbn [pending committed fst snd trays tray_items restock_tasks restock_task_items
         events set_trays set_tray_items set_restock_tasks set_restock_task_items
         set_events];
    rewrite ?restock_partial_tray_update_id, ?update_where_const_idem; reflexivity.
Qed.

(** The endpoints that do not touch the task tables. *)
Lemma seed_trays_frame (now : Z) (p : CreateTrayIn) (db : DB) :
  let db' := snd (handle now (POST_seed_trays p) db) in
  tray_items db' = tray_items db /\ restock_tasks db' = restock_tasks db
  /\ restock_task_items db' = restock_task_items db.
Proof.
  unfold handle, with_Session, endpoint, validated.
  destruct (valid_CreateTrayIn p); [|cbn; auto].
  destruct db as [ts tis tks rws evs].
  unfold create_tray, tray_to_out, bind, query, modify, commit, raise, ret; cbn.
  destruct (find _ ts); cbn; auto.
Qed.

Lemma seed_tray_items_frame (now : Z) (p : CreateTrayItemIn.t) (db : DB) :
  let db' := snd (handle now (POST_seed_tray_items p) db) in
  restock_tasks db' = restock_tasks db
  /\ restock_task_items db' = restock_task_items db
  /\ (tray_items db' = tray_items db
      \/ valid_CreateTrayItemIn p = true
         /\ exists id,
            tray_items db'
            = tray_items db
              ++ [TrayItem.mk id (CreateTrayItemIn.tray_id p) (CreateTrayItemIn.sku p)
                              (CreateTrayItemIn.name p) (CreateTrayItemIn.is_critical p)
                              (CreateTrayItemIn.qty_expected p)
                              (CreateTrayItemIn.qty_on_hand p)]).
Proof.
  unfold handle, with_Session, endpoint, validated.
  destruct (valid_CreateTrayItemIn p); [|cbn; auto].
  destruct db as [ts tis tks rws evs].
  unfold create_tray_item, get_tray_or_404, tray_to_out, bind, query, modify, commit,
    raise, ret, get_tray; cbn.
  destruct (find _ ts); cbn; auto.
  destruct (find _ tis); cbn; auto.
  repeat split; auto. right. split; auto. eexists. reflexivity.
Qed.

Lemma dropoff_frame (now : Z) (p : DropoffRequest.t) (db : DB) :
  let db' := snd (handle now (POST_scan_events_dropoff p) db) in
  tray_items db' = tray_items db /\ restock_tasks db' = restock_tasks db
  /\ restock_task_items db' = restock_task_items db.
Proof.
  unfold handle, with_Session, endpoint, validated.
  destruct (valid_DropoffRequest p); [|cbn; auto].
  destruct db as [ts tis tks rws evs].
  unfold log_dropoff, get_tray_or_404, add_event, bind, query, modify, commit,
    raise, ret, get_tray; cbn.
  destruct (find _ ts); cbn; auto.
Qed.

(* ================================================================= *)
(** ** Unresolved rows under a task *)

Lemma unresolved_of_reflag (tid : Z) (it : InventoryCheckItem.t) (r : RestockTaskItem.t) :
  unresolved_of tid (reflag it r) = unresolved_of tid r.
Proof.
  unfold reflag, unresolved_of.
  destruct (InventoryCheckItem.reason it), (InventoryCheckItem.qty_missing it);
    reflexivity.
Qed.

Lemma unresolved_of_resolve (tid now : Z) (user : string) (r : RestockTaskItem.t) :
  unresolved_of tid (RestockTaskItem.resolve now user r) = false.
Proof. unfold unresolved_of; cbn. apply andb_false_r. Qed.

Lemma unresolved_of_resolve_selected (tid now : Z) (p : RestockPartialRequest.t)
    (r : RestockTaskItem.t) :
  RestockTaskItem.task_id r <> tid ->
  unresolved_of tid (resolve_selected now p r) = false.
Proof.
  intros Hne. unfold resolve_selected, unresolved_of.
  destruct (by_id_get _ _) as [sel|];
    [destruct (RestockPartialItem.qty_restocked sel)|]; cbn;
    apply andb_false_intro1; now apply Z.eqb_neq.
Qed.

Lemma unresolved_for_of (task_id item_id : Z) (r : RestockTaskItem.t) :
  unresolved_for task_id item_id r = true -> unresolved_of task_id r = true.
Proof.
  unfold unresolved_for, unresolved_of.
  destruct (RestockTaskItem.task_id r =? task_id),
    (RestockTaskItem.item_id r =? item_id), (RestockTaskItem.restocked r); auto.
Qed.

Lemma existsb_flag_row (tid task_id : Z) (it : InventoryCheckItem.t)
    (rows : list RestockTaskItem.t) :
  existsb (unresolved_of tid) (flag_row task_id it rows)
  = existsb (unresolved_of tid) rows || (tid =? task_id).
Proof.
  unfold flag_row.
  destruct (find _ rows) as [existing|] eqn:Hf.
  - rewrite existsb_update_where_same by (intros; apply unresolved_of_reflag).
    destruct (Z.eqb_spec tid task_id) as [->|]; [|now rewrite orb_false_r].
    rewrite orb_true_r. apply existsb_exists. exists existing.
    apply find_some in Hf. destruct Hf as [Hin Hu].
    split; [exact Hin|]. eapply unresolved_for_of; eauto.
  - rewrite existsb_app. cbn. unfold unresolved_of at 2; cbn.
    now rewrite orb_false_r, andb_true_r, Z.eqb_sym.
Qed.

Lemma existsb_flag_rows (tid task_id : Z) (items : list InventoryCheckItem.t)
    (rows : list RestockTaskItem.t) :
  items <> [] ->
  existsb (unresolved_of tid)
          (fold_left (fun rows it => flag_row task_id it rows) items rows)
  = existsb (unresolved_of tid) rows || (tid =? task_id).
Proof.
  intros Hne. destruct items as [|it items]; [congruence|]. clear Hne.
  revert it rows. induction items as [|it' items IH]; intros it rows; cbn.
  - apply existsb_flag_row.
  - cbn in IH. rewrite IH, existsb_flag_row.
    now rewrite <- orb_assoc, orb_diag.
Qed.

Lemma existsb_resolve_all (tid k now : Z) (user : string)
    (rows : list RestockTaskItem.t) :
  existsb (unresolved_of tid)
          (update_where (unresolved_of k) (RestockTaskItem.resolve now user) rows)
  = existsb (unresolved_of tid) rows && negb (tid =? k).
Proof.
  unfold update_where. induction rows as [|x rows IH]; cbn; [reflexivity|].
  rewrite IH. destruct (unresolved_of k x) eqn:Hk.
  - rewrite unresolved_of_resolve. cbn.
    unfold unresolved_of in *. apply andb_prop in Hk. destruct Hk as [Hk Hr].
    apply Z.eqb_eq in Hk. rewrite Hk, Hr. cbn.
    rewrite (Z.eqb_sym k tid). destruct (tid =? k); cbn; [|reflexivity].
    now rewrite andb_false_r.
  - destruct (Z.eqb_spec tid k) as [->|]; cbn.
    + now rewrite Hk, !andb_false_r.
    + now rewrite !andb_true_r.
Qed.

Lemma existsb_resolve_selected_other (tid k now : Z) (p : RestockPartialRequest.t)
    (rows : list RestockTaskItem.t) :
  tid <> k ->
  existsb (unresolved_of tid)
          (update_where (unresolved_of k) (resolve_selected now p) rows)
  = existsb (unresolved_of tid) rows.
Proof.
  intros Hne. apply existsb_update_where_same. intros x Hx.
  unfold unresolved_of in Hx. apply andb_prop in Hx. destruct Hx as [Hk _].
  apply Z.eqb_eq in Hk.
  rewrite unresolved_of_resolve_selected by congruence.
  unfold unresolved_of. symmetry. apply andb_false_intro1. apply Z.eqb_neq. congruence.
Qed.

(* ================================================================= *)
(** ** Get-or-create and the invariant *)

Lemma ensure_task_cases (now tray_id : Z) (db : DB) :
  let task := fst (ensure_task now tray_id db) in
  let db1 := snd (ensure_task now tray_id db) in
  (first_open_task db tray_id = Some task /\ db1 = db)
  \/ (first_open_task db tray_id = None
      /\ task = RestockTask.mk (fresh_id (map RestockTask.id (restock_tasks db)))
                               tray_id RestockStatus.open now now
      /\ db1 = insert_task task db).
Proof.
  unfold ensure_task. destruct (first_open_task db tray_id); cbn; auto.
Qed.

Lemma first_open_task_some (db : DB) (tray_id : Z) (task : RestockTask.t) :
  first_open_task db tray_id = Some task ->
  In task (restock_tasks db)
  /\ RestockTask.tray_id task = tray_id
  /\ RestockTask.status task = RestockStatus.open.
Proof.
  intros H. apply find_some in H. destruct H as [Hin Hp].
  unfold open_task_of in Hp. apply andb_prop in Hp. destruct Hp as [Ht Ho].
  apply Z.eqb_eq in Ht. repeat split; auto.
  destruct (RestockTask.status task); [reflexivity|discriminate].
Qed.

Lemma ensure_task_open (now tray_id : Z) (db : DB) :
  let task := fst (ensure_task now tray_id db) in
  In task (restock_tasks (snd (ensure_task now tray_id db)))
  /\ RestockTask.tray_id task = tray_id
  /\ RestockTask.status task = RestockStatus.open.
Proof.
  cbn. apply first_open_task_some with (db := snd (ensure_task now tray_id db)).
  apply ensure_task_first_open.
Qed.

Lemma ensure_task_old (now tray_id : Z) (db : DB) (x : RestockTask.t) :
  In x (restock_tasks (snd (ensure_task now tray_id db))) ->
  In x (restock_tasks db) \/ x = fst (ensure_task now tray_id db).
Proof.
  destruct (ensure_task_cases now tray_id db) as [[_ E]|[_ [Et E]]]; rewrite E.
  - auto.
  - cbn. rewrite in_app_iff. cbn. intros [H|[H|[]]]; auto.
Qed.

Lemma ensure_task_nodup (now tray_id : Z) (db : DB) :
  NoDup (map RestockTask.id (restock_tasks db)) ->
  NoDup (map RestockTask.id (restock_tasks (snd (ensure_task now tray_id db)))).
Proof.
  intros Hnd.
  destruct (ensure_task_cases now tray_id db) as [[_ E]|[_ [Et E]]]; rewrite E; auto.
  cbn. rewrite map_app. cbn. rewrite Et. cbn.
  apply NoDup_app; [exact Hnd|repeat constructor; easy|].
  intros a Ha [<-|[]]. now apply fresh_id_not_in in Ha.
Qed.

Lemma ensure_task_one_open (now tray_id : Z) (db : DB) :
  (forall tr, (List.length (filter (open_task_of tr) (restock_tasks db)) <= 1)%nat) ->
  forall tr,
    (List.length (filter (open_task_of tr)
                         (restock_tasks (snd (ensure_task now tray_id db)))) <= 1)%nat.
Proof.
  intros Ho tr.
  destruct (ensure_task_cases now tray_id db) as [[_ E]|[Hn [Et E]]]; rewrite E; auto.
  cbn. rewrite filter_app, length_app. cbn.
  destruct (open_task_of tr _) eqn:Hp; cbn; [|specialize (Ho tr); lia].
  rewrite Et in Hp. unfold open_task_of in Hp; cbn in Hp.
  rewrite andb_true_r in Hp. apply Z.eqb_eq in Hp. subst tr.
  unfold first_open_task in Hn. rewrite (find_none_filter _ _ Hn). cbn. lia.
Qed.

Lemma ensure_task_closed_old (now tray_id : Z) (db : DB) (x : RestockTask.t) :
  NoDup (map RestockTask.id (restock_tasks db)) ->
  In x (restock_tasks (snd (ensure_task now tray_id db))) ->
  RestockTask.status x = RestockStatus.closed ->
  In x (restock_tasks db)
  /\ RestockTask.id x <> RestockTask.id (fst (ensure_task now tray_id db)).
Proof.
  intros Hnd Hin Hc.
  destruct (ensure_task_open now tray_id db) as [Htin [_ Hto]].
  assert (Hne : x <> fst (ensure_task now tray_id db)) by congruence.
  split.
  - destruct (ensure_task_old _ _ _ _ Hin); [assumption|contradiction].
  - intros Hid. apply Hne.
    apply (nodup_key_inj RestockTask.id
                         (restock_tasks (snd (ensure_task now tray_id db))));
      auto using ensure_task_nodup.
Qed.

Lemma ensure_task_other_old (now tray_id : Z) (db : DB) (x : RestockTask.t) :
  In x (restock_tasks (snd (ensure_task now tray_id db))) ->
  RestockTask.id x <> RestockTask.id (fst (ensure_task now tray_id db)) ->
  In x (restock_tasks db).
Proof.
  intros Hin Hne. destruct (ensure_task_old _ _ _ _ Hin); [assumption|congruence].
Qed.

Lemma ensure_task_ids (now tray_id : Z) (db : DB) (k : Z) :
  In k (map RestockTask.id (restock_tasks db)) ->
  In k (map RestockTask.id (restock_tasks (snd (ensure_task now tray_id db)))).
Proof.
  destruct (ensure_task_cases now tray_id db) as [[_ E]|[_ [_ E]]]; rewrite E; auto.
  cbn. rewrite map_app, in_app_iff. auto.
Qed.

Lemma ensure_task_id_in (now tray_id : Z) (db : DB) :
  In (RestockTask.id (fst (ensure_task now tray_id db)))
     (map RestockTask.id (restock_tasks (snd (ensure_task now tray_id db)))).
Proof. apply in_map. apply ensure_task_open. Qed.

Lemma task_id_reflag (it : InventoryCheckItem.t) (r : RestockTaskItem.t) :
  RestockTaskItem.task_id (reflag it r) = RestockTaskItem.task_id r.
Proof.
  unfold reflag.
  destruct (InventoryCheckItem.reason it), (InventoryCheckItem.qty_missing it);
    reflexivity.
Qed.

Lemma task_id_resolve_selected (now : Z) (p : RestockPartialRequest.t)
    (r : RestockTaskItem.t) :
  RestockTaskItem.task_id (resolve_selected now p r) = RestockTaskItem.task_id r.
Proof.
  unfold resolve_selected.
  destruct (by_id_get _ _) as [sel|];
    [destruct (RestockPartialItem.qty_restocked sel)|]; reflexivity.
Qed.

Lemma in_flag_rows_task (task_id : Z) (items : list InventoryCheckItem.t)
    (rows : list RestockTaskItem.t) (r : RestockTaskItem.t) :
  In r (fold_left (fun rows it => flag_row task_id it rows) items rows) ->
  RestockTaskItem.task_id r = task_id
  \/ In (RestockTaskItem.task_id r) (map RestockTaskItem.task_id rows).
Proof.
  revert rows. induction items as [|it items IH]; intros rows; cbn.
  - intros H. right. now apply in_map.
  - intros H. apply IH in H. destruct H as [H|H]; [now left|].
    unfold flag_row in H. destruct (find _ rows).
    + rewrite map_update_where in H by apply task_id_reflag. now right.
    + rewrite map_app, in_app_iff in H. cbn in H.
      destruct H as [H|[H|[]]]; [now right|now left].
Qed.

(* ================================================================= *)
(** ** The endpoints keep the task invariant *)

Lemma open_items_nil (db : DB) (tid : Z) :
  open_items db tid = [] <-> existsb (unresolved_of tid) (restock_task_items db) = false.
Proof. apply filter_nil_existsb. Qed.

Lemma open_items_not_nil (db : DB) (tid : Z) :
  open_items db tid <> [] <-> existsb (unresolved_of tid) (restock_task_items db) = true.
Proof.
  rewrite open_items_nil. destruct (existsb _ _); split; congruence.
Qed.

Lemma task_invariant_frame (db db' : DB) :
  restock_tasks db' = restock_tasks db ->
  restock_task_items db' = restock_task_items db ->
  task_invariant db -> task_invariant db'.
Proof.
  intros Et Er [H1 H2 H3 H4 H5].
  split; unfold open_items in *; rewrite ?Et, ?Er; auto.
Qed.

Lemma task_invariant_inventory_check_db (now : Z) (p : InventoryCheckRequest.t)
    (tray : Tray.t) (db : DB) :
  InventoryCheckRequest.items p <> [] ->
  task_invariant db -> task_invariant (inventory_check_db now p tray db).
Proof.
  intros Hne [Hids Hone Hopen Hclosed Hrows].
  split; cbn [inventory_check_db restock_tasks].
  - rewrite map_update_where by reflexivity. now apply ensure_task_nodup.
  - intros tr. rewrite filter_length_update_where_same by reflexivity.
    now apply ensure_task_one_open.
  - intros t Hin Hst. apply in_update_where in Hin. destruct Hin as [x [Hx Ht]].
    assert (Hid : RestockTask.id t = RestockTask.id x)
      by (subst t; destruct (_ =? _); reflexivity).
    assert (Hsx : RestockTask.status x = RestockStatus.open)
      by (subst t; destruct (_ =? _); exact Hst).
    rewrite Hid. apply open_items_not_nil. cbn [inventory_check_db restock_task_items].
    rewrite existsb_flag_rows by assumption.
    destruct (Z.eqb_spec (RestockTask.id x)
                (RestockTask.id (fst (ensure_task now (Tray.id tray) db)))) as [E|E];
      [apply orb_true_r|].
    rewrite orb_false_r. apply open_items_not_nil. apply Hopen; [|assumption].
    eapply ensure_task_other_old; eauto.
  - intros t Hin Hst. apply in_update_where in Hin. destruct Hin as [x [Hx Ht]].
    assert (Hid : RestockTask.id t = RestockTask.id x)
      by (subst t; destruct (_ =? _); reflexivity).
    assert (Hsx : RestockTask.status x = RestockStatus.closed)
      by (subst t; destruct (_ =? _); exact Hst).
    rewrite Hid. apply open_items_nil. cbn [inventory_check_db restock_task_items].
    rewrite existsb_flag_rows by assumption.
    destruct (ensure_task_closed_old now (Tray.id tray) db x Hids Hx Hsx) as [Hold Hne'].
    apply Z.eqb_neq in Hne'. rewrite Hne', orb_false_r.
    apply open_items_nil. now apply Hclosed.
  - intros r Hin. cbn [inventory_check_db restock_task_items] in Hin.
    rewrite map_update_where by reflexivity.
    apply in_flag_rows_task in Hin. destruct Hin as [->|Hin].
    + apply ensure_task_id_in.
    + apply ensure_task_ids. apply in_map_iff in Hin. destruct Hin as [r0 [E Hr0]].
      rewrite <- E. now apply Hrows.
Qed.

Lemma task_invariant_restock_full_db (now : Z) (p : RestockFullRequest.t)
    (tray : Tray.t) (db : DB) :
  task_invariant db -> task_invariant (restock_full_db now p tray db).
Proof.
  intros Hinv.
  destruct (first_open_task db (Tray.id tray)) as [task|] eqn:Hf.
  2:{ apply task_invariant_frame with (db := db); auto;
      cbn [restock_full_db restock_tasks restock_task_items]; now rewrite Hf. }
  destruct Hinv as [Hids Hone Hopen Hclosed Hrows].
  split; cbn [restock_full_db restock_tasks]; rewrite Hf.
  - now rewrite map_update_where by reflexivity.
  - intros tr. etransitivity; [|apply (Hone tr)].
    apply filter_length_update_where_le. intros x. unfold open_task_of; cbn.
    now rewrite andb_false_r.
  - intros t Hin Hst. apply in_update_where in Hin. destruct Hin as [x [Hx Ht]].
    destruct (Z.eqb_spec (RestockTask.id x) (RestockTask.id task)) as [E|E];
      subst t; [discriminate|].
    apply open_items_not_nil. cbn [restock_full_db restock_task_items]. rewrite Hf.
    rewrite existsb_resolve_all.
    apply Z.eqb_neq in E. rewrite E. cbn. rewrite andb_true_r.
    apply open_items_not_nil. now apply Hopen.
  - intros t Hin Hst. apply in_update_where in Hin. destruct Hin as [x [Hx Ht]].
    apply open_items_nil. cbn [restock_full_db restock_task_items]. rewrite Hf.
    rewrite existsb_resolve_all.
    destruct (Z.eqb_spec (RestockTask.id x) (RestockTask.id task)) as [E|E]; subst t.
    + cbn. rewrite E, Z.eqb_refl. apply andb_false_r.
    + apply andb_false_intro1. apply open_items_nil. now apply Hclosed.
  - intros r Hin. cbn [restock_full_db restock_task_items] in Hin. rewrite Hf in Hin.
    rewrite map_update_where by reflexivity.
    apply in_update_where in Hin. destruct Hin as [r0 [Hr0 E]].
    assert (Et : RestockTaskItem.task_id r = RestockTaskItem.task_id r0)
      by (subst r; destruct (unresolved_of _ r0); reflexivity).
    rewrite Et. now apply Hrows.
Qed.

Lemma task_invariant_restock_partial_db (now : Z) (p : RestockPartialRequest.t)
    (tray : Tray.t) (db : DB) :
  task_invariant db -> task_invariant (restock_partial_db now p tray db).
Proof.
  intros [Hids Hone Hopen Hclosed Hrows].
  set (task := fst (ensure_task now (Tray.id tray) db)).
  set (db1 := snd (ensure_task now (Tray.id tray) db)).
  set (rows := update_where (unresolved_of (RestockTask.id task))
                            (resolve_selected now p) (restock_task_items db)).
  assert (Hother : forall x, In x (restock_tasks db1) ->
            RestockTask.id x <> RestockTask.id task ->
            existsb (unresolved_of (RestockTask.id x)) rows
            = existsb (unresolved_of (RestockTask.id x)) (restock_task_items db)).
  { intros x _ Hne. now apply existsb_resolve_selected_other. }
  assert (Hrows' : restock_task_items (restock_partial_db now p tray db) = rows)
    by reflexivity.
  assert (Htasks : restock_tasks (restock_partial_db now p tray db)
                   = match filter (unresolved_of (RestockTask.id task)) rows with
                     | [] => update_where
                               (fun t => RestockTask.id t =? RestockTask.id task)
                               (close_task now) (restock_tasks db1)
                     | _ :: _ => restock_tasks db1
                     end) by reflexivity.
  split; rewrite ?Htasks.
  - destruct (filter _ rows);
      [rewrite map_update_where by reflexivity|]; now apply ensure_task_nodup.
  - intros tr. destruct (filter _ rows).
    + etransitivity; [|apply (ensure_task_one_open now (Tray.id tray) db Hone tr)].
      apply filter_length_update_where_le. intros x. unfold open_task_of; cbn.
      now rewrite andb_false_r.
    + now apply ensure_task_one_open.
  - intros t Hin Hst. apply open_items_not_nil. rewrite Hrows'.
    destruct (filter _ rows) as [|r rem] eqn:Hrem.
    + apply in_update_where in Hin. destruct Hin as [x [Hx Ht]].
      destruct (Z.eqb_spec (RestockTask.id x) (RestockTask.id task)) as [E|E];
        subst t; [discriminate|].
      rewrite Hother by assumption. apply open_items_not_nil.
      apply Hopen; [|assumption]. eapply ensure_task_other_old; eauto.
    + destruct (Z.eq_dec (RestockTask.id t) (RestockTask.id task)) as [E|E].
      * rewrite E. destruct (existsb _ rows) eqn:Hex; [reflexivity|].
        apply filter_nil_existsb in Hex. congruence.
      * rewrite Hother by assumption. apply open_items_not_nil.
        apply Hopen; [|assumption]. eapply ensure_task_other_old; eauto.
  - intros t Hin Hst. apply open_items_nil. rewrite Hrows'.
    destruct (filter _ rows) as [|r rem] eqn:Hrem.
    + apply in_update_where in Hin. destruct Hin as [x [Hx Ht]].
      destruct (Z.eqb_spec (RestockTask.id x) (RestockTask.id task)) as [E|E]; subst t.
      * cbn. rewrite E. now apply filter_nil_existsb.
      * destruct (ensure_task_closed_old now (Tray.id tray) db x Hids Hx Hst)
          as [Hold _].
        rewrite Hother by assumption. apply open_items_nil. now apply Hclosed.
    + destruct (ensure_task_closed_old now (Tray.id tray) db t Hids Hin Hst)
        as [Hold Hne].
      rewrite Hother by assumption. apply open_items_nil. now apply Hclosed.
  - intros r Hin. rewrite Hrows' in Hin.
    apply in_update_where in Hin. destruct Hin as [r0 [Hr0 E]].
    assert (Et : RestockTaskItem.task_id r = RestockTaskItem.task_id r0)
      by (subst r; destruct (unresolved_of _ r0);
          [apply task_id_resolve_selected|reflexivity]).
    rewrite Et.
    assert (Hin1 : In (RestockTaskItem.task_id r0)
                      (map RestockTask.id (restock_tasks db1)))
      by (apply ensure_task_ids; now apply Hrows).
    destruct (filter _ rows); [now rewrite map_update_where by reflexivity|exact Hin1].
Qed.

Lemma handle_task_invariant (now : Z) (req : Request) (db : DB) :
  task_invariant db -> task_invariant (snd (handle now req db)).
Proof.
  intros Hinv. destruct req as [p|p|p|p|p|p].
  - destruct (seed_trays_frame now p db) as [_ [E1 E2]].
    eapply task_invariant_frame; eauto.
  - destruct (seed_tray_items_frame now p db) as [E1 [E2 _]].
    eapply task_invariant_frame; eauto.
  - destruct (dropoff_frame now p db) as [_ [E1 E2]].
    eapply task_invariant_frame; eauto.
  - destruct (valid_InventoryCheckRequest p) eqn:Hv;
      [|now rewrite handle_invalid].
    destruct (get_tray db (InventoryCheckRequest.tray_id p)) as [tray|] eqn:Ht;
      [|now rewrite inventory_check_not_found].
    destruct (InventoryCheckRequest.items p) as [|it items] eqn:Hi;
      [now rewrite (inventory_check_empty now p db Hv Ht Hi)|].
    destruct (first_stray (tray_items db) (Tray.id tray) (InventoryCheckRequest.items p))
      as [s|] eqn:Hs; [now rewrite (inventory_check_stray now p db Hv Ht Hs)|].
    rewrite (inventory_check_ok now p db Hv Ht) by (rewrite ?Hi; congruence).
    apply task_invariant_inventory_check_db; [rewrite Hi; congruence|assumption].
  - destruct (valid_RestockFullRequest p) eqn:Hv; [|now rewrite handle_invalid].
    destruct (get_tray db (RestockFullRequest.tray_id p)) as [tray|] eqn:Ht;
      [|now rewrite restock_full_not_found].
    rewrite (restock_full_ok now p db Hv Ht).
    now apply task_invariant_restock_full_db.
  - destruct (valid_RestockPartialRequest p) eqn:Hv; [|now rewrite handle_invalid].
    destruct (get_tray db (RestockPartialRequest.tray_id p)) as [tray|] eqn:Ht;
      [|now rewrite restock_partial_not_found].
    destruct (RestockPartialRequest.items p) as [|it items] eqn:Hi;
      [now rewrite (restock_partial_empty now p db Hv Ht Hi)|].
    rewrite (restock_partial_ok now p db Hv Ht) by (rewrite Hi; congruence).
    now apply task_invariant_restock_partial_db.
Qed.

Lemma task_invariant_empty : task_invariant empty_db.
Proof.
  split; cbn; try (intros; cbn; lia); try easy. constructor.
Qed.

Lemma reachable_task_invariant (db : DB) : reachable db -> task_invariant db.
Proof.
  induction 1; [apply task_invariant_empty|now apply handle_task_invariant].
Qed.

(* ================================================================= *)
(** ** Where the tasks of the store after a request come from *)

Lemma reachable_run (reqs : list (Z * Request)) (db : DB) :
  reachable db -> reachable (run reqs db).
Proof.
  revert db. induction reqs as [|[now req] reqs IH]; intros db H; cbn; [exact H|].
  apply IH. now constructor.
Qed.

Lemma task_origin_old (db : DB) (t : RestockTask.t) :
  In t (restock_tasks db) -> task_origin db t.
Proof. intros H. left. exists t. auto. Qed.

Lemma ensure_task_origin (now tray_id : Z) (db : DB) (x : RestockTask.t) :
  In x (restock_tasks (snd (ensure_task now tray_id db))) ->
  task_origin db x.
Proof.
  intros Hin.
  destruct (ensure_task_cases now tray_id db) as [[_ E]|[Hn [Et E]]]; rewrite E in Hin.
  - now apply task_origin_old.
  - cbn in Hin. apply in_app_iff in Hin. destruct Hin as [Hin|[<-|[]]].
    + now apply task_origin_old.
    + right. rewrite Et. cbn. split; [exact Hn|apply fresh_id_not_in].
Qed.

Lemma task_origin_update (db : DB) (k : Z) (f : RestockTask.t -> RestockTask.t)
    (l : list RestockTask.t) (t : RestockTask.t) :
  (forall x, RestockTask.id (f x) = RestockTask.id x
             /\ RestockTask.tray_id (f x) = RestockTask.tray_id x) ->
  (forall x, In x l -> RestockTask.status x = RestockStatus.closed ->
             In x (restock_tasks db) /\ RestockTask.id x <> k) ->
  (forall x, In x l -> task_origin db x) ->
  In t (update_where (fun t => RestockTask.id t =? k) f l) ->
  task_origin db t.
Proof.
  intros Hf Hcl Hor Hin. apply in_update_where in Hin. destruct Hin as [x [Hx Ht]].
  destruct (Z.eqb_spec (RestockTask.id x) k) as [E|E]; subst t; [|now apply Hor].
  destruct (Hf x) as [Hid Htr].
  destruct (Hor x Hx) as [[y [Hy [Hyi [Hyt Hyc]]]]|[Hn Hni]].
  - left. exists y. rewrite Hid, Htr. repeat split; auto.
    intros Hc. specialize (Hyc Hc). subst y.
    destruct (Hcl x Hx Hc) as [_ Hne]. contradiction.
  - right. now rewrite Hid, Htr.
Qed.

Lemma handle_task_origin (now : Z) (req : Request) (db : DB) (t : RestockTask.t) :
  task_invariant db ->
  In t (restock_tasks (snd (handle now req db))) -> task_origin db t.
Proof.
  intros Hinv. destruct req as [p|p|p|p|p|p].
  - destruct (seed_trays_frame now p db) as [_ [E1 E2]]. rewrite E1.
    apply task_origin_old.
  - destruct (seed_tray_items_frame now p db) as [E1 [E2 _]]. rewrite E1.
    apply task_origin_old.
  - destruct (dropoff_frame now p db) as [_ [E1 E2]]. rewrite E1.
    apply task_origin_old.
  - destruct (valid_InventoryCheckRequest p) eqn:Hv;
      [|rewrite handle_invalid by assumption; apply task_origin_old].
    destruct (get_tray db (InventoryCheckRequest.tray_id p)) as [tray|] eqn:Ht;
      [|rewrite inventory_check_not_found by assumption; apply task_origin_old].
    destruct (InventoryCheckRequest.items p) as [|it items] eqn:Hi;
      [rewrite (inventory_check_empty now p db Hv Ht Hi); apply task_origin_old|].
    destruct (first_stray (tray_items db) (Tray.id tray) (InventoryCheckRequest.items p))
      as [s|] eqn:Hs;
      [rewrite (inventory_check_stray now p db Hv Ht Hs); apply task_origin_old|].
    rewrite (inventory_check_ok now p db Hv Ht) by (rewrite ?Hi; congruence).
    cbn [snd inventory_check_db restock_tasks].
    apply task_origin_update; [now intros x|..].
    + intros x Hx Hc. eapply ensure_task_closed_old; eauto. apply Hinv.
    + intros x. apply ensure_task_origin.
  - destruct (valid_RestockFullRequest p) eqn:Hv;
      [|rewrite handle_invalid by assumption; apply task_origin_old].
    destruct (get_tray db (RestockFullRequest.tray_id p)) as [tray|] eqn:Ht;
      [|rewrite restock_full_not_found by assumption; apply task_origin_old].
    rewrite (restock_full_ok now p db Hv Ht).
    cbn [snd restock_full_db restock_tasks].
    destruct (first_open_task db (Tray.id tray)) as [task|] eqn:Hf;
      [|apply task_origin_old].
    apply task_origin_update; [now intros x|..].
    + intros x Hx Hc. split; [exact Hx|]. intros Hid.
      apply first_open_task_some in Hf. destruct Hf as [Hin [_ Ho]].
      assert (x = task)
        by (apply (nodup_key_inj RestockTask.id (restock_tasks db)); auto; apply Hinv).
      congruence.
    + intros x. apply task_origin_old.
  - destruct (valid_RestockPartialRequest p) eqn:Hv;
      [|rewrite handle_invalid by assumption; apply task_origin_old].
    destruct (get_tray db (RestockPartialRequest.tray_id p)) as [tray|] eqn:Ht;
      [|rewrite restock_partial_not_found by assumption; apply task_origin_old].
    destruct (RestockPartialRequest.items p) as [|it items] eqn:Hi;
      [rewrite (restock_partial_empty now p db Hv Ht Hi); apply task_origin_old|].
    rewrite (restock_partial_ok now p db Hv Ht) by (rewrite Hi; congruence).
    cbn [snd restock_partial_db restock_tasks].
    destruct (filter _ _); [|apply ensure_task_origin].
    apply task_origin_update; [now intros x|..].
    + intros x Hx Hc. eapply ensure_task_closed_old; eauto. apply Hinv.
    + intros x. apply ensure_task_origin.
Qed.

Lemma reachable_seeded_db : reachable seeded_db.
Proof. apply reachable_run. constructor. Qed.

Lemma reachable_checked_db : reachable checked_db.
Proof. apply reachable_run. apply reachable_seeded_db. Qed.

(* ================================================================= *)
(** ** The restock-task lifecycle *)

(** Requests served one at a time keep a tray at one open task at most.
    In every store reached that way a tray has at most one open restock
    task: [ensure_open_restock_task] returns the open task of the tray when
    there is one and leaves the store as it is, creates one only when there
    is none, and no request adds a task for a tray that has an open one. *)
Theorem at_most_one_open_task :
  (forall db, reachable db ->
     forall tray_id,
       (List.length (filter (open_task_of tray_id) (restock_tasks db)) <= 1)%nat)
  /\ (forall now tray_id c d task,
        first_open_task d tray_id = Some task ->
        ensure_open_restock_task now tray_id {| committed := c; pending := d |}
        = (Return task, {| committed := c; pending := d |}))
  /\ (forall now tray_id c d,
        first_open_task d tray_id = None ->
        exists task,
          ensure_open_restock_task now tray_id {| committed := c; pending := d |}
          = (Return task, {| committed := c; pending := insert_task task d |})
          /\ RestockTask.tray_id task = tray_id
          /\ RestockTask.status task = RestockStatus.open
          /\ ~ In (RestockTask.id task) (map RestockTask.id (restock_tasks d)))
  /\ (forall db now req tray_id task,
        reachable db ->
        first_open_task db tray_id = Some task ->
        forall t, In t (restock_tasks (snd (handle now req db))) ->
                  RestockTask.tray_id t = tray_id ->
                  In (RestockTask.id t) (map RestockTask.id (restock_tasks db))).
Proof.
  repeat split.
  - intros db Hr. apply reachable_task_invariant in Hr. apply Hr.
  - intros now tray_id c d task Hf.
    rewrite ensure_open_restock_task_run. unfold ensure_task. now rewrite Hf.
  - intros now tray_id c d Hf.
    rewrite ensure_open_restock_task_run. unfold ensure_task. rewrite Hf. cbn.
    eexists. split; [reflexivity|]. cbn. repeat split. apply fresh_id_not_in.
  - intros db now req tray_id task Hr Hf t Hin Htr.
    apply reachable_task_invariant in Hr.
    destruct (@handle_task_origin now req db t Hr Hin) as [[x [Hx [Hid _]]]|[Hn _]].
    + rewrite <- Hid. now apply in_map.
    + rewrite Htr in Hn. congruence.
Qed.

Lemma at_most_one_open_task_witness :
  (List.length (filter (open_task_of 1) (restock_tasks checked_db)) <= 1)%nat
  /\ (forall t, In t (restock_tasks
                       (snd (handle 4 (POST_inventory_checks scenario_check) checked_db))) ->
                RestockTask.tray_id t = 1 ->
                In (RestockTask.id t) (map RestockTask.id (restock_tasks checked_db))).
Proof.
  split.
  - apply (proj1 at_most_one_open_task). apply reachable_checked_db.
  - apply (proj2 (proj2 (proj2 at_most_one_open_task)) checked_db 4
             (POST_inventory_checks scenario_check) 1
             (RestockTask.mk 1 1 RestockStatus.open 3 3)).
    + apply reachable_checked_db.
    + vm_compute. reflexivity.
Defined.

Lemma handle_closed_stays (now : Z) (req : Request) (db : DB) (t : RestockTask.t) :
  task_invariant db ->
  In t (restock_tasks db) -> RestockTask.status t = RestockStatus.closed ->
  In t (restock_tasks (snd (handle now req db))).
Proof.
  intros Hinv Hin Hc.
  assert (Hkeep : forall k f l,
            In t l -> RestockTask.id t <> k ->
            In t (update_where (fun x => RestockTask.id x =? k) f l)).
  { intros k f l Hl Hne. apply in_update_where. exists t. split; [exact Hl|].
    apply Z.eqb_neq in Hne. now rewrite Hne. }
  assert (Hens : forall now tray_id,
            In t (restock_tasks (snd (ensure_task now tray_id db)))
            /\ RestockTask.id t <> RestockTask.id (fst (ensure_task now tray_id db))).
  { intros now' tray_id.
    assert (H1 : In t (restock_tasks (snd (ensure_task now' tray_id db)))).
    { destruct (ensure_task_cases now' tray_id db) as [[_ E]|[_ [_ E]]]; rewrite E; auto.
      cbn. apply in_app_iff. now left. }
    split; [exact H1|].
    eapply ensure_task_closed_old; eauto. apply Hinv. }
  destruct req as [p|p|p|p|p|p].
  - destruct (seed_trays_frame now p db) as [_ [E1 E2]]. now rewrite E1.
  - destruct (seed_tray_items_frame now p db) as [E1 [E2 _]]. now rewrite E1.
  - destruct (dropoff_frame now p db) as [_ [E1 E2]]. now rewrite E1.
  - destruct (valid_InventoryCheckRequest p) eqn:Hv;
      [|now rewrite handle_invalid by assumption].
    destruct (get_tray db (InventoryCheckRequest.tray_id p)) as [tray|] eqn:Ht;
      [|now rewrite inventory_check_not_found by assumption].
    destruct (InventoryCheckRequest.items p) as [|it items] eqn:Hi;
      [now rewrite (inventory_check_empty now p db Hv Ht Hi)|].
    destruct (first_stray (tray_items db) (Tray.id tray) (InventoryCheckRequest.items p))
      as [s|] eqn:Hs;
      [now rewrite (inventory_check_stray now p db Hv Ht Hs)|].
    rewrite (inventory_check_ok now p db Hv Ht) by (rewrite ?Hi; congruence).
    cbn [snd inventory_check_db restock_tasks]. apply Hkeep; apply Hens.
  - destruct (valid_RestockFullRequest p) eqn:Hv;
      [|now rewrite handle_invalid by assumption].
    destruct (get_tray db (RestockFullRequest.tray_id p)) as [tray|] eqn:Ht;
      [|now rewrite restock_full_not_found by assumption].
    rewrite (restock_full_ok now p db Hv Ht).
    cbn [snd restock_full_db restock_tasks].
    destruct (first_open_task db (Tray.id tray)) as [task|] eqn:Hf; [|exact Hin].
    apply Hkeep; [exact Hin|]. intros Hid.
    apply first_open_task_some in Hf. destruct Hf as [Hin' [_ Ho]].
    assert (t = task)
      by (apply (nodup_key_inj RestockTask.id (restock_tasks db)); auto; apply Hinv).
    congruence.
  - destruct (valid_RestockPartialRequest p) eqn:Hv;
      [|now rewrite handle_invalid by assumption].
    destruct (get_tray db (RestockPartialRequest.tray_id p)) as [tray|] eqn:Ht;
      [|now rewrite restock_partial_not_found by assumption].
    destruct (RestockPartialRequest.items p) as [|it items] eqn:Hi;
      [now rewrite (restock_partial_empty now p db Hv Ht Hi)|].
    rewrite (restock_partial_ok now p db Hv Ht) by (rewrite Hi; congruence).
    cbn [snd restock_partial_db restock_tasks].
    destruct (filter _ _); [apply Hkeep|]; apply Hens.
Qed.

(** C5. After every request on a reachable store, a restock task is closed
    if and only if none of its rows is unresolved; and a task that was
    closed before the request is still there, closed and unchanged. *)
Theorem task_closed_iff_no_unresolved :
  forall db now req,
    reachable db ->
    let db' := snd (handle now req db) in
    (forall t, In t (restock_tasks db') ->
               (RestockTask.status t = RestockStatus.closed
                <-> open_items db' (RestockTask.id t) = []))
    /\ (forall t, In t (restock_tasks db) ->
                  RestockTask.status t = RestockStatus.closed ->
                  In t (restock_tasks db')).
Proof.
  intros db now req Hr db'.
  pose proof (reachable_task_invariant Hr) as Hinv.
  pose proof (handle_task_invariant now req Hinv) as Hinv'. fold db' in Hinv'.
  split.
  - intros t Hin. split.
    + now apply Hinv'.
    + intros Hnil. destruct (RestockTask.status t) eqn:Hs; [|reflexivity].
      exfalso. now apply (inv_open Hinv' t Hin Hs).
  - intros t Hin Hc. now apply handle_closed_stays.
Qed.

Lemma task_closed_iff_no_unresolved_witness :
  let db' := snd (handle 4 (POST_restocks_partial scenario_partial) checked_db) in
  (forall t, In t (restock_tasks db') ->
             (RestockTask.status t = RestockStatus.closed
              <-> open_items db' (RestockTask.id t) = []))
  /\ (forall t, In t (restock_tasks checked_db) ->
                RestockTask.status t = RestockStatus.closed ->
                In t (restock_tasks db')).
Proof.
  exact (task_closed_iff_no_unresolved 4 (POST_restocks_partial scenario_partial)
           reachable_checked_db).
Defined.

(* ================================================================= *)
(** ** Full restock *)

Lemma find_none_all {A : Type} (p : A -> bool) (l : list A) :
  (forall x, In x l -> p x = false) -> find p l = None.
Proof.
  induction l as [|x l IH]; cbn; [reflexivity|].
  intros H. rewrite (H x) by auto. apply IH. auto.
Qed.

Lemma filter_le_1_unique {A : Type} (p : A -> bool) (l : list A) (x y : A) :
  (List.length (filter p l) <= 1)%nat ->
  In x l -> p x = true -> In y l -> p y = true -> x = y.
Proof.
  intros Hlen Hx Hpx Hy Hpy.
  assert (Hfx : In x (filter p l)) by (apply filter_In; auto).
  assert (Hfy : In y (filter p l)) by (apply filter_In; auto).
  destruct (filter p l) as [|a [|b l']]; cbn in *; [easy| |lia].
  destruct Hfx as [<-|[]], Hfy as [<-|[]]. reflexivity.
Qed.

Lemma get_tray_save (db : DB) (tray_id : Z) (tray tray' : Tray.t) :
  get_tray db tray_id = Some tray ->
  Tray.id tray' = Tray.id tray ->
  find (fun t => Tray.id t =? tray_id)
       (update_where (fun t => Tray.id t =? Tray.id tray) (fun _ => tray') (trays db))
  = Some tray'.
Proof.
  intros Ht Hid. pose proof (get_tray_id _ _ Ht) as Hk.
  rewrite find_update_where_key
    by (intros x Hx; apply Z.eqb_eq in Hx; now rewrite Hid, Hx).
  unfold get_tray in Ht. rewrite Ht. cbn. now rewrite Z.eqb_refl.
Qed.



Lemma restock_full_tray_update_fields (now : Z) (p : RestockFullRequest.t)
    (tray : Tray.t) :
  let tray' := restock_full_tray_update now p tray in
  Tray.status tray' = ready /\ Tray.priority_numeric tray' = None
  /\ Tray.priority_partial tray' = false /\ Tray.color tray' = "green"%string.
Proof.
  unfold restock_full_tray_update.
  destruct (RestockFullRequest.location_type p); cbn; auto.
Qed.



(* ================================================================= *)
(** ** Partial restock *)

Lemma restock_partial_tray_update_fields (now : Z) (p : RestockPartialRequest.t)
    (remaining_open : list RestockTaskItem.t) (tray : Tray.t) :
  let tray' := restock_partial_tray_update now p remaining_open tray in
  Tray.status tray' = match remaining_open with
                      | _ :: _ => needs_restock
                      | [] => ready
                      end
  /\ Tray.priority_numeric tray'
     = match RestockPartialRequest.new_priority p with
       | np_partial => None
       | n => Some (int_of_NewPriority n)
       end
  /\ Tray.priority_partial tray'
     = match RestockPartialRequest.new_priority p with
       | np_partial => match remaining_open with _ :: _ => true | [] => false end
       | _ => false
       end.
Proof.
  unfold restock_partial_tray_update.
  destruct (RestockPartialRequest.new_priority p), remaining_open,
    (RestockPartialRequest.location_type p); cbn; auto.
Qed.

Lemma ensure_open_restock_task_returns (now tray_id : Z) (db : DB)
    (task : RestockTask.t) :
  fst (ensure_open_restock_task now tray_id {| committed := db; pending := db |})
  = Return task ->
  task = fst (ensure_task now tray_id db).
Proof. rewrite ensure_open_restock_task_run. cbn. congruence. Qed.

Lemma restock_partial_db_tray (now : Z) (p : RestockPartialRequest.t) (db : DB)
    (tray : Tray.t) :
  get_tray db (RestockPartialRequest.tray_id p) = Some tray ->
  let db' := restock_partial_db now p tray db in
  let task := fst (ensure_task now (Tray.id tray) db) in
  get_tray db' (RestockPartialRequest.tray_id p)
  = Some (restock_partial_tray_update now p (open_items db' (RestockTask.id task)) tray).
Proof.
  intros Ht. unfold get_tray. cbn [restock_partial_db trays].
  apply get_tray_save with (db := db); auto using restock_partial_tray_update_id.
Qed.

Lemma restock_partial_db_closed (now : Z) (p : RestockPartialRequest.t) (db : DB)
    (tray : Tray.t) :
  let db' := restock_partial_db now p tray db in
  let task := fst (ensure_task now (Tray.id tray) db) in
  open_items db' (RestockTask.id task) = [] ->
  In (close_task now task) (restock_tasks db')
  /\ forall t, In t (restock_tasks db') ->
               RestockTask.id t = RestockTask.id task ->
               RestockTask.status t = RestockStatus.closed.
Proof.
  intros db' task Hrem.
  assert (Htasks : restock_tasks db'
                   = update_where (fun t => RestockTask.id t =? RestockTask.id task)
                                  (close_task now)
                                  (restock_tasks (snd (ensure_task now (Tray.id tray) db)))).
  { unfold open_items in Hrem. subst db' task.
    cbn [restock_partial_db restock_task_items] in Hrem.
    cbn [restock_partial_db restock_tasks]. now rewrite Hrem. }
  rewrite Htasks. split.
  - apply in_update_where. exists task. rewrite Z.eqb_refl.
    split; [apply ensure_task_open|reflexivity].
  - intros t Hin Hk. apply in_update_where in Hin. destruct Hin as [x [_ E]].
    destruct (Z.eqb_spec (RestockTask.id x) (RestockTask.id task)); subst t;
      [reflexivity|contradiction].
Qed.

(** C7. A partial restock of an existing tray with a non-empty item list
    succeeds.  With [task] the task it works on: if unresolved rows remain
    under the task afterwards, the tray is needs_restock; if none remain, the
    tray is ready and the task is closed.  "partial" gives priority
    (null, true) when rows remain and (null, false) when none do; a numeric
    new priority n, which is 1, 2 or 3, gives (n, false). *)
Theorem restock_partial_outcome :
  forall now p db tray task,
    valid_RestockPartialRequest p = true ->
    get_tray db (RestockPartialRequest.tray_id p) = Some tray ->
    RestockPartialRequest.items p <> [] ->
    fst (ensure_open_restock_task now (Tray.id tray)
                                  {| committed := db; pending := db |})
    = Return task ->
    exists out db' tray',
      handle now (POST_restocks_partial p) db = (Return (tray_response out), db')
      /\ get_tray db' (RestockPartialRequest.tray_id p) = Some tray'
      /\ out_tray out = tray'
      /\ (open_items db' (RestockTask.id task) <> [] ->
          Tray.status tray' = needs_restock)
      /\ (open_items db' (RestockTask.id task) = [] ->
          Tray.status tray' = ready
          /\ In (close_task now task) (restock_tasks db')
          /\ forall t, In t (restock_tasks db') ->
                       RestockTask.id t = RestockTask.id task ->
                       RestockTask.status t = RestockStatus.closed)
      /\ (RestockPartialRequest.new_priority p = np_partial ->
          Tray.priority_numeric tray' = None
          /\ (open_items db' (RestockTask.id task) <> [] ->
              Tray.priority_partial tray' = true)
          /\ (open_items db' (RestockTask.id task) = [] ->
              Tray.priority_partial tray' = false))
      /\ (RestockPartialRequest.new_priority p <> np_partial ->
          let n := int_of_NewPriority (RestockPartialRequest.new_priority p) in
          1 <= n <= 3
          /\ Tray.priority_numeric tray' = Some n
          /\ Tray.priority_partial tray' = false).
Proof.
  intros now p db tray task Hv Ht Hne Hens.
  apply ensure_open_restock_task_returns in Hens. subst task.
  set (task := fst (ensure_task now (Tray.id tray) db)).
  set (db' := restock_partial_db now p tray db).
  exists (tray_out (restock_partial_tray_update
                      now p (open_items db' (RestockTask.id task)) tray) db'),
    db', (restock_partial_tray_update
            now p (open_items db' (RestockTask.id task)) tray).
  split; [apply (restock_partial_ok now p db Hv Ht Hne)|].
  split; [apply (@restock_partial_db_tray now p db tray Ht)|].
  split; [reflexivity|].
  pose proof (@restock_partial_db_closed now p db tray) as Hclosed.
  cbn zeta in Hclosed. fold db' task in Hclosed.
  destruct (restock_partial_tray_update_fields
              now p (open_items db' (RestockTask.id task)) tray) as [Hst [Hpn Hpp]].
  rewrite Hst, Hpn, Hpp. clear Hst Hpn Hpp.
  destruct (open_items db' (RestockTask.id task)) as [|r remaining_open].
  - split; [congruence|]. split; [intros _; split; [reflexivity|now apply Hclosed]|].
    split.
    + intros ->. repeat split; congruence.
    + intros Hp n. subst n.
      destruct (RestockPartialRequest.new_priority p); cbn; try congruence;
        repeat split; lia.
  - split; [reflexivity|]. split; [congruence|].
    split.
    + intros ->. repeat split; congruence.
    + intros Hp n. subst n.
      destruct (RestockPartialRequest.new_priority p); cbn; try congruence;
        repeat split; lia.
Qed.

Lemma restock_partial_outcome_witness :
  exists out db' tray',
    handle 4 (POST_restocks_partial scenario_partial) checked_db
    = (Return (tray_response out), db')
    /\ get_tray db' 1 = Some tray'
    /\ Tray.status tray' = ready
    /\ Tray.priority_numeric tray' = None
    /\ Tray.priority_partial tray' = false.
Proof.
  destruct (@restock_partial_outcome 4 scenario_partial checked_db _
              (RestockTask.mk 1 1 RestockStatus.open 3 3)
              eq_refl eq_refl ltac:(discriminate) eq_refl)
    as [out [db' [tray' [Hrun [Hget [_ [_ [Hnone [Hpart _]]]]]]]]].
  exists out, db', tray'. split; [exact Hrun|]. split; [exact Hget|].
  assert (Hnil : open_items db' 1 = []).
  { replace db' with (snd (handle 4 (POST_restocks_partial scenario_partial) checked_db))
      by (now rewrite Hrun).
    vm_compute. reflexivity. }
  destruct (Hnone Hnil) as [Hst _]. destruct (Hpart eq_refl) as [Hpn [_ Hpp]].
  auto.
Defined.





(* ================================================================= *)
(** ** Quantity bookkeeping *)

Lemma find_id_update_qty (rows : list TrayItem.t) (item item' : TrayItem.t) (k i : Z) :
  find (fun x => TrayItem.id x =? k) rows = Some item ->
  TrayItem.id item' = TrayItem.id item ->
  find (fun x => TrayItem.id x =? i)
       (update_where (fun x => TrayItem.id x =? TrayItem.id item) (fun _ => item') rows)
  = option_map (fun x => if k =? i then item' else x)
               (find (fun x => TrayItem.id x =? i) rows).
Proof.
  intros Hf Hid.
  rewrite find_update_where_key
    by (intros x Hx; apply Z.eqb_eq in Hx; now rewrite Hid, Hx).
  pose proof (find_some _ _ Hf) as [_ Hk]. apply Z.eqb_eq in Hk.
  destruct (find (fun x => TrayItem.id x =? i) rows) as [x|] eqn:Hx; [|reflexivity].
  pose proof (find_some _ _ Hx) as [_ Hi]. apply Z.eqb_eq in Hi.
  cbn. rewrite Hk, Hi. now rewrite Z.eqb_sym.
Qed.

Lemma find_use_item_rows (it : InventoryCheckItem.t) (rows : list TrayItem.t) (i : Z) :
  find (fun x => TrayItem.id x =? i) (use_item_rows it rows)
  = option_map (fun item => if InventoryCheckItem.item_id it =? i
                            then use_report it item else item)
               (find (fun x => TrayItem.id x =? i) rows).
Proof.
  unfold use_item_rows, use_report.
  destruct (find (fun x => TrayItem.id x =? InventoryCheckItem.item_id it) rows)
    as [item|] eqn:Hf.
  - destruct (use_qty _ item) as [item'|] eqn:Hu.
    + rewrite (@find_id_update_qty rows item item' _ i Hf) by (now apply use_qty_keeps in Hu).
      destruct (find (fun x => TrayItem.id x =? i) rows) as [x|] eqn:Hx; [|reflexivity].
      cbn. destruct (Z.eqb_spec (InventoryCheckItem.item_id it) i) as [E|E];
        [|reflexivity].
      rewrite E in Hf. rewrite Hf in Hx. injection Hx as <-. now rewrite Hu.
    + destruct (find (fun x => TrayItem.id x =? i) rows) as [x|] eqn:Hx; [|reflexivity].
      cbn. destruct (Z.eqb_spec (InventoryCheckItem.item_id it) i) as [E|E];
        [|reflexivity].
      rewrite E in Hf. rewrite Hf in Hx. injection Hx as <-. now rewrite Hu.
  - destruct (find (fun x => TrayItem.id x =? i) rows) as [x|] eqn:Hx; [|reflexivity].
    cbn. destruct (Z.eqb_spec (InventoryCheckItem.item_id it) i) as [E|E];
      [|reflexivity].
    rewrite E in Hf. congruence.
Qed.

Lemma find_use_items_rows (items : list InventoryCheckItem.t) (rows : list TrayItem.t)
    (i : Z) :
  find (fun x => TrayItem.id x =? i)
       (fold_left (fun rows it => use_item_rows it rows) items rows)
  = option_map
      (fold_left (fun item it => use_report it item)
                 (filter (fun it => InventoryCheckItem.item_id it =? i) items))
      (find (fun x => TrayItem.id x =? i) rows).
Proof.
  revert rows. induction items as [|it items IH]; intros rows; cbn.
  - now destruct (find _ rows).
  - rewrite IH, find_use_item_rows.
    destruct (find (fun x => TrayItem.id x =? i) rows) as [x|]; [|reflexivity].
    cbn. destruct (InventoryCheckItem.item_id it =? i); reflexivity.
Qed.

Lemma tray_id_restock_report (ip : RestockPartialItem.t) (item : TrayItem.t) :
  TrayItem.tray_id (restock_report ip item) = TrayItem.tray_id item.
Proof.
  unfold restock_report. destruct (add_qty _ item) eqn:E; [|reflexivity].
  now apply add_qty_keeps in E.
Qed.

Lemma find_restock_item_rows (tray_id : Z) (ip : RestockPartialItem.t)
    (rows : list TrayItem.t) (i : Z) :
  find (fun x => TrayItem.id x =? i) (restock_item_rows tray_id ip rows)
  = option_map (fun item => if (RestockPartialItem.item_id ip =? i)
                               && (TrayItem.tray_id item =? tray_id)
                            then restock_report ip item else item)
               (find (fun x => TrayItem.id x =? i) rows).
Proof.
  unfold restock_item_rows, restock_report.
  destruct (find (fun x => TrayItem.id x =? RestockPartialItem.item_id ip) rows)
    as [item|] eqn:Hf.
  - destruct (TrayItem.tray_id item =? tray_id) eqn:Htr.
    + destruct (add_qty _ item) as [item'|] eqn:Hu.
      * rewrite (@find_id_update_qty rows item item' _ i Hf) by (now apply add_qty_keeps in Hu).
        destruct (find (fun x => TrayItem.id x =? i) rows) as [x|] eqn:Hx;
          [|reflexivity].
        cbn. destruct (Z.eqb_spec (RestockPartialItem.item_id ip) i) as [E|E];
          [|reflexivity].
        rewrite E in Hf. rewrite Hf in Hx. injection Hx as <-. now rewrite Htr, Hu.
      * destruct (find (fun x => TrayItem.id x =? i) rows) as [x|] eqn:Hx;
          [|reflexivity].
        cbn. destruct (Z.eqb_spec (RestockPartialItem.item_id ip) i) as [E|E];
          [|reflexivity].
        rewrite E in Hf. rewrite Hf in Hx. injection Hx as <-. now rewrite Htr, Hu.
    + destruct (find (fun x => TrayItem.id x =? i) rows) as [x|] eqn:Hx; [|reflexivity].
      cbn. destruct (Z.eqb_spec (RestockPartialItem.item_id ip) i) as [E|E];
        [|reflexivity].
      rewrite E in Hf. rewrite Hf in Hx. injection Hx as <-. now rewrite Htr.
  - destruct (find (fun x => TrayItem.id x =? i) rows) as [x|] eqn:Hx; [|reflexivity].
    cbn. destruct (Z.eqb_spec (RestockPartialItem.item_id ip) i) as [E|E];
      [|reflexivity].
    rewrite E in Hf. congruence.
Qed.

Lemma find_restock_items_rows (tray_id : Z) (items : list RestockPartialItem.t)
    (rows : list TrayItem.t) (i : Z) :
  find (fun x => TrayItem.id x =? i)
       (fold_left (fun rows ip => restock_item_rows tray_id ip rows) items rows)
  = option_map
      (fun item =>
         if TrayItem.tray_id item =? tray_id then
           fold_left (fun item ip => restock_report ip item)
                     (filter (fun ip => RestockPartialItem.item_id ip =? i) items) item
         else item)
      (find (fun x => TrayItem.id x =? i) rows).
Proof.
  revert rows. induction items as [|ip items IH]; intros rows; cbn.
  - destruct (find _ rows) as [x|]; [|reflexivity].
    cbn. now destruct (TrayItem.tray_id x =? tray_id).
  - rewrite IH, find_restock_item_rows.
    destruct (find (fun x => TrayItem.id x =? i) rows) as [x|]; [|reflexivity].
    cbn. destruct (RestockPartialItem.item_id ip =? i); cbn.
    + destruct (TrayItem.tray_id x =? tray_id) eqn:Htr.
      * now rewrite tray_id_restock_report, Htr.
      * now rewrite Htr.
    + reflexivity.
Qed.

Lemma qty_nonneg_use_qty (u : option Z) (item item' : TrayItem.t) :
  qty_nonneg item -> use_qty u item = Some item' -> qty_nonneg item'.
Proof.
  intros [He Hq]. unfold use_qty. destruct u as [u|]; [|discriminate].
  destruct (u >? 0); [|discriminate]. intros [= <-].
  split; cbn; [exact He|]. intros q [= <-]. lia.
Qed.

Lemma qty_nonneg_add_qty (r : option Z) (item item' : TrayItem.t) :
  qty_nonneg item -> add_qty r item = Some item' -> qty_nonneg item'.
Proof.
  intros [He Hq]. unfold add_qty. destruct r as [r|]; [|discriminate].
  destruct (Z.gtb_spec r 0) as [Hr|Hr]; [|discriminate].
  assert (Hcur : 0 <= or_0 (TrayItem.qty_on_hand item))
    by (unfold or_0; destruct (TrayItem.qty_on_hand item) as [q|]; [now apply Hq|lia]).
  destruct (TrayItem.qty_expected item) as [e|] eqn:Ee; intros [= <-];
    split; cbn; rewrite ?Ee; try exact He; intros q [= <-].
  - specialize (He e eq_refl). lia.
  - lia.
Qed.

Lemma qty_nonneg_reset_to_expected (item : TrayItem.t) :
  qty_nonneg item -> qty_nonneg (reset_to_expected item).
Proof.
  intros Hnn. unfold reset_to_expected.
  destruct (TrayItem.qty_expected item) as [e|] eqn:Ee; [|exact Hnn].
  destruct Hnn as [He Hq].
  split; cbn; [exact He|]. intros q [= <-]. now apply He.
Qed.

Lemma qty_nonneg_use_item_rows (it : InventoryCheckItem.t) (rows : list TrayItem.t) :
  (forall x, In x rows -> qty_nonneg x) ->
  forall x, In x (use_item_rows it rows) -> qty_nonneg x.
Proof.
  intros H x. unfold use_item_rows.
  destruct (find _ rows) as [item|] eqn:Hf; [|apply H].
  destruct (use_qty _ item) as [item'|] eqn:Hu; [|apply H].
  intros Hin. apply in_update_where in Hin. destruct Hin as [y [Hy ->]].
  destruct (TrayItem.id y =? TrayItem.id item); [|now apply H].
  apply (qty_nonneg_use_qty (item := item) _ (H _ (proj1 (find_some _ _ Hf))) Hu).
Qed.

Lemma qty_nonneg_restock_item_rows (tray_id : Z) (ip : RestockPartialItem.t)
    (rows : list TrayItem.t) :
  (forall x, In x rows -> qty_nonneg x) ->
  forall x, In x (restock_item_rows tray_id ip rows) -> qty_nonneg x.
Proof.
  intros H x. unfold restock_item_rows.
  destruct (find _ rows) as [item|] eqn:Hf; [|apply H].
  destruct (TrayItem.tray_id item =? tray_id); [|apply H].
  destruct (add_qty _ item) as [item'|] eqn:Hu; [|apply H].
  intros Hin. apply in_update_where in Hin. destruct Hin as [y [Hy ->]].
  destruct (TrayItem.id y =? TrayItem.id item); [|now apply H].
  apply (qty_nonneg_add_qty (item := item) _ (H _ (proj1 (find_some _ _ Hf))) Hu).
Qed.

Lemma qty_nonneg_fold {A : Type} (step : A -> list TrayItem.t -> list TrayItem.t)
    (items : list A) (rows : list TrayItem.t) :
  (forall a rows, (forall x, In x rows -> qty_nonneg x) ->
                  forall x, In x (step a rows) -> qty_nonneg x) ->
  (forall x, In x rows -> qty_nonneg x) ->
  forall x, In x (fold_left (fun rows a => step a rows) items rows) -> qty_nonneg x.
Proof.
  intros Hstep. revert rows. induction items as [|a items IH]; intros rows H; cbn;
    [exact H|].
  apply IH. now apply Hstep.
Qed.

(** A request that returned normally did what its success path does. *)
Lemma inventory_check_returned (now : Z) (p : InventoryCheckRequest.t) (db db' : DB)
    (out : Response) :
  handle now (POST_inventory_checks p) db = (Return out, db') ->
  exists tray,
    get_tray db (InventoryCheckRequest.tray_id p) = Some tray
    /\ first_stray (tray_items db) (Tray.id tray) (InventoryCheckRequest.items p) = None
    /\ db' = inventory_check_db now p tray db.
Proof.
  destruct (valid_InventoryCheckRequest p) eqn:Hv;
    [|rewrite handle_invalid by assumption; discriminate].
  destruct (get_tray db (InventoryCheckRequest.tray_id p)) as [tray|] eqn:Ht;
    [|rewrite inventory_check_not_found by assumption; discriminate].
  destruct (InventoryCheckRequest.items p) as [|it items] eqn:Hi;
    [rewrite (inventory_check_empty now p db Hv Ht Hi); discriminate|].
  destruct (first_stray (tray_items db) (Tray.id tray) (InventoryCheckRequest.items p))
    as [s|] eqn:Hs;
    [rewrite (inventory_check_stray now p db Hv Ht Hs); discriminate|].
  rewrite (inventory_check_ok now p db Hv Ht) by (rewrite ?Hi; congruence).
  intros [= _ <-]. exists tray. rewrite <- Hi. auto.
Qed.

Lemma restock_partial_returned (now : Z) (p : RestockPartialRequest.t) (db db' : DB)
    (out : Response) :
  handle now (POST_restocks_partial p) db = (Return out, db') ->
  exists tray,
    get_tray db (RestockPartialRequest.tray_id p) = Some tray
    /\ db' = restock_partial_db now p tray db.
Proof.
  destruct (valid_RestockPartialRequest p) eqn:Hv;
    [|rewrite handle_invalid by assumption; discriminate].
  destruct (get_tray db (RestockPartialRequest.tray_id p)) as [tray|] eqn:Ht;
    [|rewrite restock_partial_not_found by assumption; discriminate].
  destruct (RestockPartialRequest.items p) as [|it items] eqn:Hi;
    [rewrite (restock_partial_empty now p db Hv Ht Hi); discriminate|].
  rewrite (restock_partial_ok now p db Hv Ht) by (rewrite Hi; congruence).
  intros [= _ <-]. exists tray. auto.
Qed.

Lemma handle_qty_invariant (now : Z) (req : Request) (db : DB) :
  qty_invariant db -> qty_invariant (snd (handle now req db)).
Proof.
  intros Hinv. destruct req as [p|p|p|p|p|p].
  - destruct (seed_trays_frame now p db) as [E _]. unfold qty_invariant. now rewrite E.
  - destruct (seed_tray_items_frame now p db) as [_ [_ [E|[Hv [id E]]]]];
      unfold qty_invariant; rewrite E; [exact Hinv|].
    intros item Hin. apply in_app_iff in Hin. destruct Hin as [Hin|[<-|[]]];
      [now apply Hinv|].
    unfold valid_CreateTrayItemIn in Hv.
    apply andb_prop in Hv. destruct Hv as [Hv Hq].
    apply andb_prop in Hv. destruct Hv as [_ He].
    split; cbn; intros v Ev.
    + rewrite Ev in He. cbn in He. lia.
    + rewrite Ev in Hq. cbn in Hq. lia.
  - destruct (dropoff_frame now p db) as [E _]. unfold qty_invariant. now rewrite E.
  - destruct (handle now (POST_inventory_checks p) db) as [[out|e] db'] eqn:Hrun.
    + apply inventory_check_returned in Hrun. destruct Hrun as [tray [_ [_ ->]]].
      intros item. cbn [snd inventory_check_db tray_items].
      apply qty_nonneg_fold; [apply qty_nonneg_use_item_rows|exact Hinv].
    + assert (E : db' = db); [|cbn; now rewrite E].
      destruct (valid_InventoryCheckRequest p) eqn:Hv;
        [|rewrite handle_invalid in Hrun by assumption; congruence].
      destruct (get_tray db (InventoryCheckRequest.tray_id p)) as [tray|] eqn:Ht;
        [|rewrite inventory_check_not_found in Hrun by assumption; congruence].
      destruct (InventoryCheckRequest.items p) as [|it items] eqn:Hi;
        [rewrite (inventory_check_empty now p db Hv Ht Hi) in Hrun; congruence|].
      destruct (first_stray (tray_items db) (Tray.id tray)
                            (InventoryCheckRequest.items p)) as [s|] eqn:Hs;
        [rewrite (inventory_check_stray now p db Hv Ht Hs) in Hrun; congruence|].
      rewrite (inventory_check_ok now p db Hv Ht) in Hrun
        by (rewrite ?Hi; congruence).
      discriminate.
  - destruct (valid_RestockFullRequest p) eqn:Hv;
      [|now rewrite handle_invalid by assumption].
    destruct (get_tray db (RestockFullRequest.tray_id p)) as [tray|] eqn:Ht;
      [|now rewrite restock_full_not_found by assumption].
    rewrite (restock_full_ok now p db Hv Ht).
    intros item Hin. cbn [snd restock_full_db tray_items] in Hin.
    apply in_update_where in Hin. destruct Hin as [x [Hx ->]].
    destruct (TrayItem.tray_id x =? Tray.id tray);
      [apply qty_nonneg_reset_to_expected|]; now apply Hinv.
  - destruct (valid_RestockPartialRequest p) eqn:Hv;
      [|now rewrite handle_invalid by assumption].
    destruct (get_tray db (RestockPartialRequest.tray_id p)) as [tray|] eqn:Ht;
      [|now rewrite restock_partial_not_found by assumption].
    destruct (RestockPartialRequest.items p) as [|it items] eqn:Hi;
      [now rewrite (restock_partial_empty now p db Hv Ht Hi)|].
    rewrite (restock_partial_ok now p db Hv Ht) by (rewrite Hi; congruence).
    intros item. cbn [snd restock_partial_db tray_items].
    apply qty_nonneg_fold; [apply qty_nonneg_restock_item_rows|exact Hinv].
Qed.

Lemma reachable_qty_invariant (db : DB) : reachable db -> qty_invariant db.
Proof.
  induction 1; [intros item []|now apply handle_qty_invariant].
Qed.

Lemma reachable_overstocked_db : reachable overstocked_db.
Proof. apply reachable_run. constructor. Qed.

(** C8, as stated, fails: a partial restock that reports a restocked
    quantity of 0 for an item with 10 on hand and 5 expected succeeds and
    leaves 10 on hand, not min(10 + 0, 5) = 5. *)
Lemma partial_restock_zero_counterexample :
  reachable overstocked_db
  /\ valid_RestockPartialRequest zero_restock = true
  /\ option_map (fun i => (TrayItem.tray_id i, TrayItem.qty_expected i,
                           TrayItem.qty_on_hand i))
                (get_tray_item overstocked_db 1)
     = Some (1, Some 5, Some 10)
  /\ (exists out,
        fst (handle 3 (POST_restocks_partial zero_restock) overstocked_db) = Return out)
  /\ option_map TrayItem.qty_on_hand
                (get_tray_item
                   (snd (handle 3 (POST_restocks_partial zero_restock) overstocked_db)) 1)
     = Some (Some 10)
  /\ Some 10 <> Some (Z.min (10 + 0) 5).
Proof.
  split; [apply reachable_overstocked_db|].
  split; [reflexivity|]. split; [reflexivity|].
  split; [eexists; vm_compute; reflexivity|].
  split; [reflexivity|]. discriminate.
Qed.

Lemma use_report_spec (it : InventoryCheckItem.t) (item : TrayItem.t) :
  TrayItem.qty_expected (use_report it item) = TrayItem.qty_expected item
  /\ TrayItem.qty_on_hand (use_report it item)
     = match InventoryCheckItem.qty_used it with
       | Some u =>
           if u >? 0
           then Some (Z.max 0 (or_0 (TrayItem.qty_on_hand item) - u))
           else TrayItem.qty_on_hand item
       | None => TrayItem.qty_on_hand item
       end.
Proof.
  unfold use_report, use_qty.
  destruct (InventoryCheckItem.qty_used it) as [u|]; [|auto].
  destruct (u >? 0); auto.
Qed.

Lemma restock_report_spec (ip : RestockPartialItem.t) (item : TrayItem.t) :
  TrayItem.qty_expected (restock_report ip item) = TrayItem.qty_expected item
  /\ TrayItem.qty_on_hand (restock_report ip item)
     = match RestockPartialItem.qty_restocked ip with
       | Some r =>
           if r >? 0 then
             match TrayItem.qty_expected item with
             | Some e => Some (Z.min (or_0 (TrayItem.qty_on_hand item) + r) e)
             | None => Some (or_0 (TrayItem.qty_on_hand item) + r)
             end
           else TrayItem.qty_on_hand item
       | None => TrayItem.qty_on_hand item
       end.
Proof.
  unfold restock_report, add_qty.
  destruct (RestockPartialItem.qty_restocked ip) as [r|]; [|auto].
  destruct (r >? 0); [|auto].
  destruct (TrayItem.qty_expected item) eqn:Ee; cbn; auto.
Qed.

(** C8, amended.  On a reachable store, the row of an item after an
    inventory check that returns is its row before with the entries that
    name it applied in list order, and likewise after a partial restock that
    returns, for an item of its tray.  An inventory-check entry with a
    quantity used u > 0 sets on-hand to max(0, on-hand - u); a
    partial-restock entry with a quantity restocked r > 0 sets on-hand to
    min(on-hand + r, expected) when there is an expected quantity and to
    on-hand + r otherwise; an entry whose quantity is absent or 0 leaves
    on-hand as it is; a null on-hand is read as 0.  Whatever the request, no
    expected or on-hand quantity of the store is negative afterwards. *)
Theorem qty_bookkeeping :
  forall db now,
    reachable db ->
    (forall p out db' item_id item,
        handle now (POST_inventory_checks p) db = (Return out, db') ->
        get_tray_item db item_id = Some item ->
        get_tray_item db' item_id
        = Some (fold_left (fun item it => use_report it item)
                          (filter (fun it => InventoryCheckItem.item_id it =? item_id)
                                  (InventoryCheckRequest.items p))
                          item))
    /\ (forall it item,
          TrayItem.qty_expected (use_report it item) = TrayItem.qty_expected item
          /\ TrayItem.qty_on_hand (use_report it item)
             = match InventoryCheckItem.qty_used it with
               | Some u =>
                   if u >? 0
                   then Some (Z.max 0 (or_0 (TrayItem.qty_on_hand item) - u))
                   else TrayItem.qty_on_hand item
               | None => TrayItem.qty_on_hand item
               end)
    /\ (forall p out db' item_id item,
          handle now (POST_restocks_partial p) db = (Return out, db') ->
          get_tray_item db item_id = Some item ->
          TrayItem.tray_id item = RestockPartialRequest.tray_id p ->
          get_tray_item db' item_id
          = Some (fold_left (fun item ip => restock_report ip item)
                            (filter (fun ip => RestockPartialItem.item_id ip =? item_id)
                                    (RestockPartialRequest.items p))
                            item))
    /\ (forall ip item,
          TrayItem.qty_expected (restock_report ip item) = TrayItem.qty_expected item
          /\ TrayItem.qty_on_hand (restock_report ip item)
             = match RestockPartialItem.qty_restocked ip with
               | Some r =>
                   if r >? 0 then
                     match TrayItem.qty_expected item with
                     | Some e => Some (Z.min (or_0 (TrayItem.qty_on_hand item) + r) e)
                     | None => Some (or_0 (TrayItem.qty_on_hand item) + r)
                     end
                   else TrayItem.qty_on_hand item
               | None => TrayItem.qty_on_hand item
               end)
    /\ (forall req item,
          In item (tray_items (snd (handle now req db))) ->
          (forall e, TrayItem.qty_expected item = Some e -> 0 <= e)
          /\ (forall q, TrayItem.qty_on_hand item = Some q -> 0 <= q)).
Proof.
  intros db now Hr. split; [|split; [|split; [|split]]].
  - intros p out db' i item Hrun Hitem.
    apply inventory_check_returned in Hrun. destruct Hrun as [tray [_ [_ ->]]].
    unfold get_tray_item in *. cbn [inventory_check_db tray_items].
    now rewrite find_use_items_rows, Hitem.
  - apply use_report_spec.
  - intros p out db' i item Hrun Hitem Htray.
    apply restock_partial_returned in Hrun. destruct Hrun as [tray [Ht ->]].
    apply get_tray_id in Ht.
    unfold get_tray_item in *. cbn [restock_partial_db tray_items].
    rewrite find_restock_items_rows, Hitem. cbn.
    now rewrite Htray, Ht, Z.eqb_refl.
  - apply restock_report_spec.
  - intros req item Hin.
    apply (handle_qty_invariant now req (reachable_qty_invariant Hr) _ Hin).
Qed.

Lemma qty_bookkeeping_witness :
  (exists item',
     get_tray_item checked_db 1 = Some item'
     /\ TrayItem.qty_expected item' = Some 10
     /\ TrayItem.qty_on_hand item' = Some (Z.max 0 (10 - 4)))
  /\ (exists item',
        get_tray_item
          (snd (handle 4 (POST_restocks_partial scenario_partial) checked_db)) 1
        = Some item'
        /\ TrayItem.qty_expected item' = Some 10
        /\ TrayItem.qty_on_hand item' = Some (Z.min (6 + 6) 10))
  /\ (forall item,
        In item (tray_items
                   (snd (handle 4 (POST_restocks_partial scenario_partial) checked_db))) ->
        (forall e, TrayItem.qty_expected item = Some e -> 0 <= e)
        /\ (forall q, TrayItem.qty_on_hand item = Some q -> 0 <= q)).
Proof.
  assert (H1 : exists out,
             handle 3 (POST_inventory_checks scenario_check) seeded_db
             = (Return out, checked_db))
    by (eexists; vm_compute; reflexivity).
  assert (H2 : exists out,
             handle 4 (POST_restocks_partial scenario_partial) checked_db
             = (Return out,
                snd (handle 4 (POST_restocks_partial scenario_partial) checked_db)))
    by (eexists; vm_compute; reflexivity).
  destruct H1 as [out1 H1]. destruct H2 as [out2 H2].
  destruct (@qty_bookkeeping seeded_db 3 reachable_seeded_db)
    as [Hcheck [Huse _]].
  destruct (@qty_bookkeeping checked_db 4 reachable_checked_db)
    as [_ [_ [Hpartial [Hadd Hnonneg]]]].
  split; [|split].
  - eexists. split; [|split].
    + exact (Hcheck scenario_check out1 checked_db 1
                    (TrayItem.mk 1 1 "A" "Item A" false (Some 10) (Some 10))
                    H1 eq_refl).
    + reflexivity.
    + reflexivity.
  - eexists. split; [|split].
    + exact (Hpartial scenario_partial out2 _ 1
                      (TrayItem.mk 1 1 "A" "Item A" false (Some 10) (Some 6))
                      H2 eq_refl eq_refl).
    + reflexivity.
    + reflexivity.
  - exact (Hnonneg (POST_restocks_partial scenario_partial)).
Defined.

(* ================================================================= *)
(** ** Failure semantics *)






(* ================================================================= *)
(** ** The two urgency signals *)

Lemma merge_exclusive_without_partial (existing_numeric new_numeric : option Z)
    (new_partial : option bool) :
  let out := apply_priority_non_downgrade existing_numeric false new_numeric new_partial in
  snd out = true -> fst out = None.
Proof.
  unfold apply_priority_non_downgrade.
  destruct new_numeric as [n|], existing_numeric as [e|], (truthy new_partial); cbn;
    try discriminate; try reflexivity;
    destruct (n >? e); cbn; discriminate.
Qed.

Lemma restock_full_exclusive (now : Z) (p : RestockFullRequest.t) (tray : Tray.t) :
  priority_exclusive (restock_full_tray_update now p tray).
Proof.
  unfold priority_exclusive.
  destruct (restock_full_tray_update_fields now p tray) as [_ [H1 [H2 _]]]. congruence.
Qed.

Lemma restock_partial_exclusive (now : Z) (p : RestockPartialRequest.t)
    (remaining_open : list RestockTaskItem.t) (tray : Tray.t) :
  priority_exclusive (restock_partial_tray_update now p remaining_open tray).
Proof.
  unfold priority_exclusive.
  destruct (restock_partial_tray_update_fields now p remaining_open tray)
    as [_ [H1 H2]].
  rewrite H1, H2. destruct (RestockPartialRequest.new_priority p); congruence.
Qed.

Lemma dropoff_keeps_priority (now : Z) (p : DropoffRequest.t) (tray : Tray.t) :
  Tray.priority_numeric (dropoff_tray_update now p tray) = Tray.priority_numeric tray
  /\ Tray.priority_partial (dropoff_tray_update now p tray) = Tray.priority_partial tray.
Proof.
  unfold dropoff_tray_update. destruct (DropoffRequest.case_id p) as [c|]; cbn;
    [destruct (String.eqb c "")|]; split; reflexivity.
Qed.

Lemma inventory_check_exclusive_without_partial (now : Z) (p : InventoryCheckRequest.t)
    (tray : Tray.t) :
  Tray.priority_partial tray = false ->
  priority_exclusive (inventory_check_tray_update now p tray).
Proof.
  intros Hp. unfold priority_exclusive, inventory_check_tray_update.
  cbn [Tray.priority_numeric Tray.priority_partial Tray.set_status
       Tray.set_last_seen_gps Tray.set_last_seen_at].
  rewrite Hp.
  match goal with
  | |- context [apply_priority_non_downgrade ?e false ?n ?q] =>
      pose proof (@merge_exclusive_without_partial e n q) as Hm;
      destruct (apply_priority_non_downgrade e false n q) as [on op]
  end.
  cbn in Hm. destruct (InventoryCheckRequest.location_type p); cbn; exact Hm.
Qed.

(** C3, at the failing input.  On the seeded store (tray 1 with priority
    (null, false)), an inventory check with the partial hint leaves the tray
    at (null, true); a second inventory check with the numeric hint 2 leaves
    it at (2, true): both urgency signals are set in a reachable store.  The
    merge alone already gives (2, true) from (null, true). *)
Lemma inventory_check_numeric_over_partial :
  let db1 := snd (handle 3 (POST_inventory_checks partial_hint_check) seeded_db) in
  let db2 := snd (handle 4 (POST_inventory_checks numeric_hint_check) db1) in
  reachable db2
  /\ option_map (fun t => (Tray.priority_numeric t, Tray.priority_partial t))
                (get_tray seeded_db 1) = Some (None, false)
  /\ option_map (fun t => (Tray.priority_numeric t, Tray.priority_partial t))
                (get_tray db1 1) = Some (None, true)
  /\ option_map (fun t => (Tray.priority_numeric t, Tray.priority_partial t))
                (get_tray db2 1) = Some (Some 2, true)
  /\ (exists tray, get_tray db2 1 = Some tray /\ ~ priority_exclusive tray)
  /\ apply_priority_non_downgrade None true (Some 2) (Some false) = (Some 2, true).
Proof.
  intros db1 db2.
  split; [do 2 apply reachable_handle; apply reachable_seeded_db|].
  split; [reflexivity|]. split; [reflexivity|]. split; [reflexivity|].
  split; [|reflexivity].
  eexists. split; [vm_compute; reflexivity|].
  unfold priority_exclusive; cbn. intros H. specialize (H eq_refl). discriminate.
Qed.

(* ================================================================= *)
(** ** The committed steps of the service *)

Lemma create_tray_ok (now : Z) (p : CreateTrayIn) (db : DB) :
  valid_CreateTrayIn p = true ->
  tray_named db (cti_name p) = None ->
  handle now (POST_seed_trays p) db
  = (Return (tray_response (tray_out (new_tray p db) (create_tray_db p db))),
     create_tray_db p db).
Proof.
  intros Hv Hn. unfold handle, with_Session, endpoint, validated. rewrite Hv.
  destruct db as [ts tis tks rws evs]. unfold tray_named in Hn; cbn in Hn.
  unfold create_tray, create_tray_db, new_tray, tray_to_out, tray_out, bind, query,
    modify, commit, raise, ret; cbn.
  rewrite Hn. reflexivity.
Qed.

Lemma create_tray_exists (now : Z) (p : CreateTrayIn) (db : DB) (t : Tray.t) :
  valid_CreateTrayIn p = true ->
  tray_named db (cti_name p) = Some t ->
  handle now (POST_seed_trays p) db
  = (Raise {| status_code := 400; detail := tray_already_exists (cti_name p) |}, db).
Proof.
  intros Hv Hn. unfold handle, with_Session, endpoint, validated. rewrite Hv.
  destruct db as [ts tis tks rws evs]. unfold tray_named in Hn; cbn in Hn.
  unfold create_tray, bind, query, raise; cbn. rewrite Hn. reflexivity.
Qed.

Lemma create_tray_item_not_found (now : Z) (p : CreateTrayItemIn.t) (db : DB) :
  valid_CreateTrayItemIn p = true ->
  get_tray db (CreateTrayItemIn.tray_id p) = None ->
  handle now (POST_seed_tray_items p) db
  = (Raise {| status_code := 404;
              detail := tray_not_found (CreateTrayItemIn.tray_id p) |}, db).
Proof.
  intros Hv Ht. unfold handle, with_Session, endpoint, validated. rewrite Hv.
  unfold create_tray_item, get_tray_or_404, bind, query, raise; cbn. now rewrite Ht.
Qed.

Lemma create_tray_item_exists (now : Z) (p : CreateTrayItemIn.t) (db : DB)
    (tray : Tray.t) (i : TrayItem.t) :
  valid_CreateTrayItemIn p = true ->
  get_tray db (CreateTrayItemIn.tray_id p) = Some tray ->
  item_with_sku db (CreateTrayItemIn.tray_id p) (CreateTrayItemIn.sku p) = Some i ->
  handle now (POST_seed_tray_items p) db
  = (Raise {| status_code := 400;
              detail := sku_already_exists (CreateTrayItemIn.sku p) |}, db).
Proof.
  intros Hv Ht Hs. unfold handle, with_Session, endpoint, validated. rewrite Hv.
  destruct db as [ts tis tks rws evs].
  unfold item_with_sku in Hs. unfold get_tray in Ht. cbn in Hs, Ht.
  unfold create_tray_item, get_tray_or_404, get_tray, bind, query, raise, ret; cbn.
  rewrite Ht; cbn. rewrite Hs. reflexivity.
Qed.

Lemma create_tray_item_ok (now : Z) (p : CreateTrayItemIn.t) (db : DB) (tray : Tray.t) :
  valid_CreateTrayItemIn p = true ->
  get_tray db (CreateTrayItemIn.tray_id p) = Some tray ->
  item_with_sku db (CreateTrayItemIn.tray_id p) (CreateTrayItemIn.sku p) = None ->
  handle now (POST_seed_tray_items p) db
  = (Return (tray_response (tray_out tray (create_tray_item_db p db))),
     create_tray_item_db p db).
Proof.
  intros Hv Ht Hs. unfold handle, with_Session, endpoint, validated. rewrite Hv.
  destruct db as [ts tis tks rws evs].
  unfold item_with_sku in Hs. unfold get_tray in Ht. cbn in Hs, Ht.
  unfold create_tray_item, create_tray_item_db, new_tray_item, get_tray_or_404, get_tray,
    tray_to_out, tray_out, insert_tray_item, bind, query, modify, commit, raise, ret; cbn.
  rewrite Ht; cbn. rewrite Hs. reflexivity.
Qed.

Lemma dropoff_not_found (now : Z) (p : DropoffRequest.t) (db : DB) :
  valid_DropoffRequest p = true ->
  get_tray db (DropoffRequest.tray_id p) = None ->
  handle now (POST_scan_events_dropoff p) db
  = (Raise {| status_code := 404;
              detail := tray_not_found (DropoffRequest.tray_id p) |}, db).
Proof.
  intros Hv Ht. unfold handle, with_Session, endpoint, validated. rewrite Hv.
  unfold log_dropoff, get_tray_or_404, bind, query, raise; cbn. now rewrite Ht.
Qed.

Lemma dropoff_ok (now : Z) (p : DropoffRequest.t) (db : DB) (tray : Tray.t) :
  valid_DropoffRequest p = true ->
  get_tray db (DropoffRequest.tray_id p) = Some tray ->
  handle now (POST_scan_events_dropoff p) db
  = (Return (dropoff_response (fresh_id (map Event.id (events db)))),
     dropoff_db now p tray db).
Proof.
  intros Hv Ht. unfold handle, with_Session, endpoint, validated. rewrite Hv.
  destruct db as [ts tis tks rws evs]. unfold get_tray in Ht. cbn in Ht.
  unfold log_dropoff, dropoff_db, get_tray_or_404, get_tray, add_event, bind, query,
    modify, commit, raise, ret; cbn -[dropoff_tray_update].
  now rewrite Ht.
Qed.

(** Every request either fails with the error of [error_of] and leaves the
    store as it is, or returns and takes a committed step. *)
Lemma handle_transition (now : Z) (req : Request) (db : DB) :
  match error_of db req with
  | Some e => handle now req db = (Raise e, db)
  | None => exists out db',
      handle now req db = (Return out, db') /\ transition db db'
  end.
Proof.
  destruct req as [p|p|p|p|p|p]; cbn [error_of].
  - destruct (valid_CreateTrayIn p) eqn:Hv; cbn [negb];
      [|now apply handle_invalid].
    destruct (tray_named db (cti_name p)) eqn:Hn.
    + now apply create_tray_exists with (t := t).
    + eexists. eexists. split; [now apply create_tray_ok|now constructor].
  - destruct (valid_CreateTrayItemIn p) eqn:Hv; cbn [negb];
      [|now apply handle_invalid].
    destruct (get_tray db (CreateTrayItemIn.tray_id p)) as [tray|] eqn:Ht;
      [|now apply create_tray_item_not_found].
    destruct (item_with_sku db _ _) eqn:Hs.
    + now apply create_tray_item_exists with (tray := tray) (i := t).
    + eexists. eexists. split; [now apply create_tray_item_ok with (tray := tray)|].
      now apply tr_create_tray_item with (tray := tray).
  - destruct (valid_DropoffRequest p) eqn:Hv; cbn [negb];
      [|now apply handle_invalid].
    destruct (get_tray db (DropoffRequest.tray_id p)) as [tray|] eqn:Ht;
      [|now apply dropoff_not_found].
    eexists. eexists. split; [now apply dropoff_ok with (tray := tray)|].
    now constructor.
  - destruct (valid_InventoryCheckRequest p) eqn:Hv; cbn [negb];
      [|now apply handle_invalid].
    destruct (get_tray db (InventoryCheckRequest.tray_id p)) as [tray|] eqn:Ht;
      [|now apply inventory_check_not_found].
    destruct (InventoryCheckRequest.items p) as [|it items] eqn:Hi;
      [now apply inventory_check_empty with (tray := tray)|].
    destruct (first_stray _ _ _) as [s|] eqn:Hs; rewrite <- Hi in Hs.
    { exact (inventory_check_stray now p db Hv Ht Hs). }
    assert (Hne : InventoryCheckRequest.items p <> []) by (rewrite Hi; discriminate).
    eexists. eexists. split; [exact (inventory_check_ok now p db Hv Ht Hne Hs)|now constructor].
  - destruct (valid_RestockFullRequest p) eqn:Hv; cbn [negb];
      [|now apply handle_invalid].
    destruct (get_tray db (RestockFullRequest.tray_id p)) as [tray|] eqn:Ht;
      [|now apply restock_full_not_found].
    eexists. eexists. split; [exact (restock_full_ok now p db Hv Ht)|now constructor].
  - destruct (valid_RestockPartialRequest p) eqn:Hv; cbn [negb];
      [|now apply handle_invalid].
    destruct (get_tray db (RestockPartialRequest.tray_id p)) as [tray|] eqn:Ht;
      [|now apply restock_partial_not_found].
    destruct (RestockPartialRequest.items p) as [|it items] eqn:Hi;
      [now apply restock_partial_empty with (tray := tray)|].
    assert (Hne : RestockPartialRequest.items p <> []) by (rewrite Hi; discriminate).
    eexists. eexists. split; [exact (restock_partial_ok now p db Hv Ht Hne)|now constructor].
Qed.

Lemma handle_store (now : Z) (req : Request) (db : DB) :
  snd (handle now req db) = db \/ transition db (snd (handle now req db)).
Proof.
  pose proof (handle_transition now req db) as H.
  destruct (error_of db req) as [e|].
  - left. now rewrite H.
  - right. destruct H as [out [db' [-> Ht]]]. exact Ht.
Qed.

Lemma reachable_transition_ind (P : DB -> Prop) :
  P empty_db ->
  (forall db db', reachable db -> P db -> transition db db' -> P db') ->
  forall db, reachable db -> P db.
Proof.
  intros H0 Hstep db Hr. induction Hr as [|now req db Hr IH]; [exact H0|].
  destruct (handle_store now req db) as [->|Ht]; [exact IH|].
  now apply (Hstep db).
Qed.

(* ================================================================= *)
(** ** The tray table *)

Lemma in_get_tray (db : DB) (tray_id : Z) (tray : Tray.t) :
  get_tray db tray_id = Some tray -> In tray (trays db).
Proof. intros H. now apply find_some in H. Qed.

Lemma dropoff_db_tables (now : Z) (p : DropoffRequest.t) (tray : Tray.t) (db : DB) :
  trays (dropoff_db now p tray db)
  = update_where (fun t => Tray.id t =? Tray.id tray)
                 (fun _ => dropoff_tray_update now p tray) (trays db)
  /\ tray_items (dropoff_db now p tray db) = tray_items db
  /\ restock_tasks (dropoff_db now p tray db) = restock_tasks db
  /\ restock_task_items (dropoff_db now p tray db) = restock_task_items db
  /\ events (dropoff_db now p tray db)
     = events db ++ [dropoff_event now p tray (fresh_id (map Event.id (events db)))].
Proof.
  unfold dropoff_db, save_tray, update_tray, insert_event.
  cbn [trays tray_items restock_tasks restock_task_items events set_trays set_events].
  assert (E : Tray.id (dropoff_tray_update now p tray) = Tray.id tray).
  { unfold dropoff_tray_update. destruct (DropoffRequest.case_id p) as [c|]; cbn;
      [destruct (String.eqb c "")|]; reflexivity. }
  rewrite E. auto.
Qed.

(** The tray table after a committed step: unchanged, or one tray longer, or
    with the loaded tray replaced by its update. *)
Lemma transition_trays (db db' : DB) :
  transition db db' ->
  trays db' = trays db
  \/ (exists p, valid_CreateTrayIn p = true
                /\ tray_named db (cti_name p) = None
                /\ trays db' = trays db ++ [new_tray p db])
  \/ (exists tray tray',
        In tray (trays db) /\ tray_update tray tray'
        /\ trays db' = update_where (fun t => Tray.id t =? Tray.id tray)
                                    (fun _ => tray') (trays db)).
Proof.
  intros [p Hv Hn|p tray Hv Ht Hs|now p tray Hv Ht|now p tray Hv Ht Hne Hs
         |now p tray Hv Ht|now p tray Hv Ht Hne].
  - right. left. exists p. auto.
  - now left.
  - right. right. exists tray, (dropoff_tray_update now p tray).
    split; [eapply in_get_tray; eauto|]. split; [constructor|].
    apply dropoff_db_tables.
  - right. right. exists tray, (inventory_check_tray_update now p tray).
    split; [eapply in_get_tray; eauto|]. split; [now constructor|reflexivity].
  - right. right. exists tray, (restock_full_tray_update now p tray).
    split; [eapply in_get_tray; eauto|]. split; [constructor|reflexivity].
  - right. right. eexists tray, _.
    split; [eapply in_get_tray; eauto|]. split; [constructor|reflexivity].
Qed.

Lemma tray_update_id_name (tray tray' : Tray.t) :
  tray_update tray tray' ->
  Tray.id tray' = Tray.id tray /\ Tray.name tray' = Tray.name tray.
Proof.
  intros [now p|now p Hv|now p|now p rem].
  - unfold dropoff_tray_update. destruct (DropoffRequest.case_id p) as [c|]; cbn;
      [destruct (String.eqb c "")|]; auto.
  - unfold inventory_check_tray_update.
    destruct (apply_priority_non_downgrade _ _ _ _).
    destruct (InventoryCheckRequest.location_type p); auto.
  - unfold restock_full_tray_update.
    destruct (RestockFullRequest.location_type p); auto.
  - unfold restock_partial_tray_update.
    destruct (RestockPartialRequest.new_priority p), rem,
      (RestockPartialRequest.location_type p); auto.
Qed.

Lemma tray_update_color_fresh (tray tray' : Tray.t) :
  tray_update tray tray' -> color_fresh tray'.
Proof.
  unfold color_fresh.
  intros [now p|now p Hv|now p|now p rem].
  - unfold dropoff_tray_update. destruct (DropoffRequest.case_id p) as [c|]; cbn;
      [destruct (String.eqb c "")|]; reflexivity.
  - unfold inventory_check_tray_update.
    destruct (apply_priority_non_downgrade _ _ _ _).
    destruct (InventoryCheckRequest.location_type p); reflexivity.
  - unfold restock_full_tray_update.
    destruct (RestockFullRequest.location_type p); reflexivity.
  - unfold restock_partial_tray_update.
    destruct (RestockPartialRequest.new_priority p), rem,
      (RestockPartialRequest.location_type p); reflexivity.
Qed.

Lemma auto_escalation_suggestion_range (c : bool) (w a : Q) (m : bool) (n : Z) :
  auto_escalation_suggestion c w a m = Some n -> 1 <= n <= 3.
Proof.
  unfold auto_escalation_suggestion.
  destruct (negb (Qle_bool w a)), c, m; cbn; intros [= <-]; lia.
Qed.

Lemma merge_numeric_source (en : option Z) (ep : bool) (nn : option Z) (np : option bool) :
  fst (apply_priority_non_downgrade en ep nn np) = en
  \/ fst (apply_priority_non_downgrade en ep nn np) = nn.
Proof.
  unfold apply_priority_non_downgrade; cbn.
  destruct nn as [n|]; [|now left].
  destruct en as [e|]; [|now right].
  destruct (n >? e); auto.
Qed.

Lemma tray_update_numeric_in_range (tray tray' : Tray.t) :
  tray_update tray tray' -> numeric_in_range tray -> numeric_in_range tray'.
Proof.
  unfold numeric_in_range.
  intros [now p|now p Hv|now p|now p rem] Hr n.
  - unfold dropoff_tray_update. destruct (DropoffRequest.case_id p) as [c|]; cbn;
      [destruct (String.eqb c "")|]; apply Hr.
  - unfold inventory_check_tray_update.
    match goal with
    | |- context [apply_priority_non_downgrade ?e ?ep ?nn ?q] =>
        pose proof (merge_numeric_source e ep nn q) as Hm;
        destruct (apply_priority_non_downgrade e ep nn q) as [on op]
    end.
    cbn in Hm.
    assert (Hn : Tray.priority_numeric
                   (match InventoryCheckRequest.location_type p with
                    | Some ty =>
                        Tray.set_last_location
                          (Some ty) (InventoryCheckRequest.location_name p)
                          (Tray.recolor
                             (Tray.set_priority on op
                                (Tray.set_last_seen_at (Some now)
                                   (Tray.set_last_seen_gps
                                      (Some (lat (InventoryCheckRequest.gps p)))
                                      (Some (lng (InventoryCheckRequest.gps p)))
                                      (Tray.set_status needs_restock tray)))))
                    | None =>
                        Tray.recolor
                          (Tray.set_priority on op
                             (Tray.set_last_seen_at (Some now)
                                (Tray.set_last_seen_gps
                                   (Some (lat (InventoryCheckRequest.gps p)))
                                   (Some (lng (InventoryCheckRequest.gps p)))
                                   (Tray.set_status needs_restock tray))))
                    end) = on)
      by (destruct (InventoryCheckRequest.location_type p); reflexivity).
    rewrite Hn. intros ->. destruct Hm as [Hm|Hm].
    + apply Hr. now rewrite <- Hm.
    + destruct (InventoryCheckRequest.user_priority_numeric p) as [u|] eqn:Hu.
      * injection Hm as <-.
        unfold valid_InventoryCheckRequest in Hv. rewrite Hu in Hv.
        apply andb_prop in Hv. destruct Hv as [_ Hv]. lia.
      * symmetry in Hm. now apply auto_escalation_suggestion_range in Hm.
  - unfold restock_full_tray_update.
    destruct (RestockFullRequest.location_type p); cbn; discriminate.
  - unfold restock_partial_tray_update.
    destruct (RestockPartialRequest.new_priority p), rem,
      (RestockPartialRequest.location_type p); cbn; intros [= <-]; lia.
Qed.

Lemma new_tray_fields (p : CreateTrayIn) (db : DB) :
  Tray.id (new_tray p db) = fresh_id (map Tray.id (trays db))
  /\ Tray.name (new_tray p db) = cti_name p
  /\ Tray.status (new_tray p db) = ready
  /\ Tray.priority_numeric (new_tray p db) = None
  /\ Tray.priority_partial (new_tray p db) = false
  /\ Tray.color (new_tray p db) = "green"%string.
Proof. repeat split. Qed.

(** Replacing the row of a key by a row that agrees with it under [g]
    leaves the column [g] alone. *)
Lemma map_replace_row {A B : Type} (key : A -> Z) (g : A -> B) (l : list A) (x x' : A) :
  NoDup (map key l) -> In x l -> g x' = g x ->
  map g (update_where (fun y => key y =? key x) (fun _ => x') l) = map g l.
Proof.
  intros Hnd Hin Hg. unfold update_where. rewrite map_map. apply map_ext_in.
  intros y Hy. destruct (Z.eqb_spec (key y) (key x)) as [E|E]; [|reflexivity].
  rewrite (@nodup_key_inj _ key l y x Hnd Hy Hin E). exact Hg.
Qed.

Lemma tray_named_none (db : DB) (name : string) :
  tray_named db name = None -> ~ In name (map Tray.name (trays db)).
Proof.
  intros Hn Hin. apply in_map_iff in Hin. destruct Hin as [t [<- Ht]].
  pose proof (find_none _ _ Hn t Ht) as H. cbn in H. now rewrite String.eqb_refl in H.
Qed.

Lemma nodup_snoc {A : Type} (l : list A) (x : A) :
  NoDup l -> ~ In x l -> NoDup (l ++ [x]).
Proof.
  intros Hnd Hx. apply NoDup_app; [exact Hnd|repeat constructor; easy|].
  intros a Ha [<-|[]]. contradiction.
Qed.

(** Tray keys and names are distinct in every reachable store. *)
Lemma reachable_tray_keys (db : DB) :
  reachable db ->
  NoDup (map Tray.id (trays db)) /\ NoDup (map Tray.name (trays db)).
Proof.
  revert db. apply (@reachable_transition_ind
    (fun db => NoDup (map Tray.id (trays db)) /\ NoDup (map Tray.name (trays db)))).
  - split; constructor.
  - intros d d' _ [Hid Hnm] Ht.
    destruct (transition_trays Ht) as [E|[[p [_ [Hn E]]]|[tray [tray' [Hin [Hu E]]]]]];
      rewrite E.
    + auto.
    + rewrite !map_app. cbn. split; apply nodup_snoc; auto.
      * apply fresh_id_not_in.
      * now apply tray_named_none.
    + destruct (tray_update_id_name Hu) as [Ei En].
      rewrite !(map_replace_row Tray.id) by auto. auto.
Qed.

(* ================================================================= *)
(** ** The item table *)

Lemma map_replace_key {A : Type} (key : A -> Z) (l : list A) (k : Z) (x' : A) :
  key x' = k ->
  map key (update_where (fun y => key y =? k) (fun _ => x') l) = map key l.
Proof.
  intros Hk. unfold update_where. rewrite map_map. apply map_ext.
  intros y. destruct (Z.eqb_spec (key y) k); congruence.
Qed.

Lemma item_static_id (l : list TrayItem.t) :
  map TrayItem.id l = map (fun s => fst (fst (fst (fst (fst s))))) (map item_static l).
Proof. rewrite map_map. reflexivity. Qed.

Lemma item_static_sku_key (l : list TrayItem.t) :
  map sku_key l
  = map (fun s : Z * Z * string * string * bool * option Z =>
           (snd (fst (fst (fst (fst s)))), snd (fst (fst (fst s)))))
        (map item_static l).
Proof. rewrite map_map. reflexivity. Qed.

Lemma item_static_tray_id (l : list TrayItem.t) :
  map TrayItem.tray_id l
  = map (fun s : Z * Z * string * string * bool * option Z =>
           snd (fst (fst (fst (fst s))))) (map item_static l).
Proof. rewrite map_map. reflexivity. Qed.

Lemma item_static_set_qty_on_hand (q : option Z) (i : TrayItem.t) :
  item_static (TrayItem.set_qty_on_hand q i) = item_static i.
Proof. reflexivity. Qed.

Lemma use_qty_static (u : option Z) (item item' : TrayItem.t) :
  use_qty u item = Some item' -> item_static item' = item_static item.
Proof.
  unfold use_qty. destruct u as [u|]; [|discriminate].
  destruct (u >? 0); [|discriminate]. now intros [= <-].
Qed.

Lemma add_qty_static (r : option Z) (item item' : TrayItem.t) :
  add_qty r item = Some item' -> item_static item' = item_static item.
Proof.
  unfold add_qty. destruct r as [r|]; [|discriminate].
  destruct (r >? 0); [|discriminate].
  destruct (TrayItem.qty_expected item) eqn:E; now intros [= <-].
Qed.

Lemma reset_to_expected_static (i : TrayItem.t) :
  item_static (reset_to_expected i) = item_static i.
Proof. unfold reset_to_expected. now destruct (TrayItem.qty_expected i). Qed.

Lemma use_item_rows_static (it : InventoryCheckItem.t) (rows : list TrayItem.t) :
  NoDup (map TrayItem.id rows) ->
  map item_static (use_item_rows it rows) = map item_static rows.
Proof.
  intros Hnd. unfold use_item_rows.
  destruct (find _ rows) as [item|] eqn:Hf; [|reflexivity].
  destruct (use_qty _ item) as [item'|] eqn:Hu; [|reflexivity].
  apply find_some in Hf. destruct Hf as [Hin _].
  apply (map_replace_row TrayItem.id); auto. eapply use_qty_static; eauto.
Qed.

Lemma restock_item_rows_static (tray_id : Z) (ip : RestockPartialItem.t)
    (rows : list TrayItem.t) :
  NoDup (map TrayItem.id rows) ->
  map item_static (restock_item_rows tray_id ip rows) = map item_static rows.
Proof.
  intros Hnd. unfold restock_item_rows.
  destruct (find _ rows) as [item|] eqn:Hf; [|reflexivity].
  destruct (TrayItem.tray_id item =? tray_id); [|reflexivity].
  destruct (add_qty _ item) as [item'|] eqn:Hu; [|reflexivity].
  apply find_some in Hf. destruct Hf as [Hin _].
  apply (map_replace_row TrayItem.id); auto. eapply add_qty_static; eauto.
Qed.

Lemma fold_rows_static {A : Type} (f : A -> list TrayItem.t -> list TrayItem.t)
    (l : list A) (rows : list TrayItem.t) :
  (forall a rows, NoDup (map TrayItem.id rows) ->
                  map item_static (f a rows) = map item_static rows) ->
  NoDup (map TrayItem.id rows) ->
  map item_static (fold_left (fun rows a => f a rows) l rows) = map item_static rows.
Proof.
  intros Hf. revert rows. induction l as [|a l IH]; cbn; [reflexivity|].
  intros rows Hnd. rewrite IH.
  - now apply Hf.
  - rewrite item_static_id, Hf, <- item_static_id; auto.
Qed.

Lemma item_with_sku_none (db : DB) (tray_id : Z) (sku : string) :
  item_with_sku db tray_id sku = None ->
  ~ In (tray_id, sku) (map sku_key (tray_items db)).
Proof.
  intros Hn Hin. apply in_map_iff in Hin. destruct Hin as [i [Hk Hi]].
  pose proof (find_none _ _ Hn i Hi) as H. cbn in H.
  unfold sku_key in Hk. injection Hk as <- <-.
  now rewrite Z.eqb_refl, String.eqb_refl in H.
Qed.

(** The item table after a committed step: the same rows up to the on-hand
    quantities, or one row longer. *)
Lemma transition_tray_items (db db' : DB) :
  transition db db' ->
  NoDup (map TrayItem.id (tray_items db)) ->
  map item_static (tray_items db') = map item_static (tray_items db)
  \/ (exists p tray,
        get_tray db (CreateTrayItemIn.tray_id p) = Some tray
        /\ item_with_sku db (CreateTrayItemIn.tray_id p) (CreateTrayItemIn.sku p) = None
        /\ tray_items db' = tray_items db ++ [new_tray_item p db]).
Proof.
  intros [p Hv Hn|p tray Hv Ht Hs|now p tray Hv Ht|now p tray Hv Ht Hne Hs
         |now p tray Hv Ht|now p tray Hv Ht Hne] Hnd.
  - now left.
  - right. exists p, tray. auto.
  - left. now destruct (dropoff_db_tables now p tray db) as [_ [-> _]].
  - left. cbn. apply fold_rows_static with (f := use_item_rows); auto.
    apply use_item_rows_static.
  - left. cbn. apply map_update_where. apply reset_to_expected_static.
  - left. cbn.
    apply fold_rows_static with (f := restock_item_rows (Tray.id tray)); auto.
    apply restock_item_rows_static.
Qed.

Lemma transition_tray_ids (db db' : DB) :
  transition db db' ->
  exists l, map Tray.id (trays db') = map Tray.id (trays db) ++ l.
Proof.
  intros Ht.
  destruct (transition_trays Ht) as [E|[[p [_ [Hn E]]]|[tray [tray' [Hin [Hu E]]]]]];
    rewrite E.
  - exists []. now rewrite app_nil_r.
  - rewrite map_app. eauto.
  - exists []. rewrite app_nil_r. apply (map_replace_key Tray.id).
    now destruct (tray_update_id_name Hu).
Qed.

Lemma item_invariant_empty : item_invariant empty_db.
Proof. split; cbn; [constructor|constructor|intros i []]. Qed.

Lemma transition_item_invariant (db db' : DB) :
  transition db db' -> item_invariant db -> item_invariant db'.
Proof.
  intros Ht [Hid Hsku Htr].
  destruct (transition_tray_ids Ht) as [lt Elt].
  destruct (transition_tray_items Ht Hid) as [E|[p [tray [Hg [Hs E]]]]].
  - split.
    + now rewrite item_static_id, E, <- item_static_id.
    + now rewrite item_static_sku_key, E, <- item_static_sku_key.
    + intros i Hi. rewrite Elt. apply in_or_app. left.
      apply (in_map TrayItem.tray_id) in Hi.
      rewrite item_static_tray_id, E, <- item_static_tray_id in Hi.
      apply in_map_iff in Hi. destruct Hi as [j [<- Hj]]. now apply Htr.
  - split.
    + rewrite E, map_app. apply nodup_snoc; [assumption|]. cbn. apply fresh_id_not_in.
    + rewrite E, map_app. apply nodup_snoc; [assumption|].
      now apply item_with_sku_none.
    + intros i Hi. rewrite E in Hi. rewrite Elt. apply in_or_app. left.
      apply in_app_or in Hi. destruct Hi as [Hi|[<-|[]]]; [now apply Htr|].
      cbn. apply find_some in Hg. destruct Hg as [Hin Hk].
      apply Z.eqb_eq in Hk. rewrite <- Hk. now apply in_map.
Qed.

Lemma reachable_item_invariant (db : DB) : reachable db -> item_invariant db.
Proof.
  revert db. apply (@reachable_transition_ind item_invariant).
  - apply item_invariant_empty.
  - intros db db' _ IH Ht. eapply transition_item_invariant; eauto.
Qed.

(* ================================================================= *)
(** ** The event log *)

Lemma transition_events (db db' : DB) :
  transition db db' ->
  events db' = events db
  \/ exists e, events db' = events db ++ [e]
               /\ Event.id e = fresh_id (map Event.id (events db)).
Proof.
  intros [p Hv Hn|p tray Hv Ht Hs|now p tray Hv Ht|now p tray Hv Ht Hne Hs
         |now p tray Hv Ht|now p tray Hv Ht Hne].
  - now left.
  - now left.
  - right. eexists. split; [apply dropoff_db_tables|reflexivity].
  - right. eexists. split; reflexivity.
  - right. eexists. split; reflexivity.
  - right. eexists. split; reflexivity.
Qed.

(* ================================================================= *)
(** ** The task rows *)

Lemma row_key_id (l : list RestockTaskItem.t) :
  map RestockTaskItem.id l = map (fun k => fst (fst k)) (map row_key l).
Proof. rewrite map_map. reflexivity. Qed.

Lemma row_key_reflag (it : InventoryCheckItem.t) (r : RestockTaskItem.t) :
  row_key (reflag it r) = row_key r.
Proof.
  unfold reflag.
  destruct (InventoryCheckItem.reason it), (InventoryCheckItem.qty_missing it); reflexivity.
Qed.

Lemma row_key_resolve_selected (now : Z) (p : RestockPartialRequest.t)
    (r : RestockTaskItem.t) :
  row_key (resolve_selected now p r) = row_key r.
Proof.
  unfold resolve_selected. destruct (by_id_get _ _) as [sel|]; [|reflexivity].
  destruct (RestockPartialItem.qty_restocked sel); reflexivity.
Qed.

Lemma unresolved_for_reflag (t i : Z) (it : InventoryCheckItem.t) (r : RestockTaskItem.t) :
  unresolved_for t i (reflag it r) = unresolved_for t i r.
Proof.
  unfold reflag.
  destruct (InventoryCheckItem.reason it), (InventoryCheckItem.qty_missing it); reflexivity.
Qed.

Lemma unresolved_for_resolve_selected (t i now : Z) (p : RestockPartialRequest.t)
    (r : RestockTaskItem.t) :
  unresolved_for t i (resolve_selected now p r) = true -> unresolved_for t i r = true.
Proof.
  unfold resolve_selected. destruct (by_id_get _ _) as [sel|]; [|easy].
  unfold unresolved_for.
  destruct (RestockPartialItem.qty_restocked sel); cbn; rewrite andb_false_r; discriminate.
Qed.

Lemma flag_row_cases (task_id : Z) (it : InventoryCheckItem.t)
    (rows : list RestockTaskItem.t) :
  (find (unresolved_for task_id (InventoryCheckItem.item_id it)) rows = None
   /\ flag_row task_id it rows
      = rows ++ [RestockTaskItem.mk (fresh_id (map RestockTaskItem.id rows)) task_id
                   (InventoryCheckItem.item_id it) (InventoryCheckItem.qty_missing it)
                   (InventoryCheckItem.reason it) false None None])
  \/ (exists existing,
        find (unresolved_for task_id (InventoryCheckItem.item_id it)) rows = Some existing
        /\ flag_row task_id it rows
           = update_where (fun r => RestockTaskItem.id r =? RestockTaskItem.id existing)
                          (reflag it) rows).
Proof.
  unfold flag_row. destruct (find _ rows) as [e|]; [right; eauto|left; auto].
Qed.

Lemma flag_row_keys (task_id : Z) (it : InventoryCheckItem.t)
    (rows : list RestockTaskItem.t) :
  exists l, map row_key (flag_row task_id it rows) = map row_key rows ++ l.
Proof.
  destruct (flag_row_cases task_id it rows) as [[_ ->]|[e [_ ->]]].
  - rewrite map_app. eauto.
  - exists []. rewrite app_nil_r. apply map_update_where. apply row_key_reflag.
Qed.

Lemma flag_row_nodup (task_id : Z) (it : InventoryCheckItem.t)
    (rows : list RestockTaskItem.t) :
  NoDup (map RestockTaskItem.id rows) ->
  NoDup (map RestockTaskItem.id (flag_row task_id it rows)).
Proof.
  intros Hnd. destruct (flag_row_cases task_id it rows) as [[_ ->]|[e [_ ->]]].
  - rewrite map_app. apply nodup_snoc; [assumption|]. cbn. apply fresh_id_not_in.
  - rewrite map_update_where; [assumption|].
    intros x. pose proof (row_key_reflag it x) as H.
    now apply (f_equal (fun k => fst (fst k))) in H.
Qed.

Lemma flag_row_one (task_id : Z) (it : InventoryCheckItem.t)
    (rows : list RestockTaskItem.t) (t i : Z) :
  (List.length (filter (unresolved_for t i) rows) <= 1)%nat ->
  (List.length (filter (unresolved_for t i) (flag_row task_id it rows)) <= 1)%nat.
Proof.
  intros H. destruct (flag_row_cases task_id it rows) as [[Hn ->]|[e [_ ->]]].
  - rewrite filter_app, length_app. cbn.
    destruct ((task_id =? t) && (InventoryCheckItem.item_id it =? i)) eqn:E.
    + apply andb_prop in E. destruct E as [E1 E2].
      apply Z.eqb_eq in E1, E2. subst t i.
      rewrite (find_none_filter _ _ Hn). cbn.
      destruct (unresolved_for _ _ _); cbn; lia.
    + unfold unresolved_for at 2. cbn. rewrite E. cbn. lia.
  - rewrite filter_length_update_where_same; [assumption|].
    intros x. apply unresolved_for_reflag.
Qed.

Lemma flag_row_resolved (task_id : Z) (it : InventoryCheckItem.t)
    (rows : list RestockTaskItem.t) (r : RestockTaskItem.t) :
  NoDup (map RestockTaskItem.id rows) ->
  In r rows -> RestockTaskItem.restocked r = true -> In r (flag_row task_id it rows).
Proof.
  intros Hnd Hin Hr. destruct (flag_row_cases task_id it rows) as [[_ ->]|[e [He ->]]].
  - apply in_or_app. now left.
  - apply in_update_where. exists r. split; [assumption|].
    destruct (Z.eqb_spec (RestockTaskItem.id r) (RestockTaskItem.id e)) as [E|E];
      [|reflexivity].
    apply find_some in He. destruct He as [Hine He].
    rewrite (@nodup_key_inj _ RestockTaskItem.id rows r e Hnd Hin Hine E) in Hr.
    unfold unresolved_for in He. rewrite Hr, andb_false_r in He. discriminate.
Qed.

Lemma fold_flag_row_keys (task_id : Z) (items : list InventoryCheckItem.t)
    (rows : list RestockTaskItem.t) :
  exists l, map row_key (fold_left (fun rows it => flag_row task_id it rows) items rows)
            = map row_key rows ++ l.
Proof.
  revert rows. induction items as [|it items IH]; cbn; intros rows.
  - exists []. now rewrite app_nil_r.
  - destruct (IH (flag_row task_id it rows)) as [l ->].
    destruct (flag_row_keys task_id it rows) as [l' ->].
    rewrite <- app_assoc. eauto.
Qed.

Lemma fold_flag_row_invariant (task_id : Z) (items : list InventoryCheckItem.t)
    (rows : list RestockTaskItem.t) :
  NoDup (map RestockTaskItem.id rows) ->
  (forall t i, (List.length (filter (unresolved_for t i) rows) <= 1)%nat) ->
  let rows' := fold_left (fun rows it => flag_row task_id it rows) items rows in
  NoDup (map RestockTaskItem.id rows')
  /\ (forall t i, (List.length (filter (unresolved_for t i) rows') <= 1)%nat)
  /\ (forall r, In r rows -> RestockTaskItem.restocked r = true -> In r rows').
Proof.
  revert rows. induction items as [|it items IH]; cbn; intros rows Hnd Hone; [auto|].
  destruct (IH (flag_row task_id it rows)) as [H1 [H2 H3]].
  - now apply flag_row_nodup.
  - intros t i. now apply flag_row_one.
  - repeat split; auto. intros r Hin Hr. apply H3; [|assumption].
    now apply flag_row_resolved.
Qed.

Lemma resolve_rows_invariant (q : RestockTaskItem.t -> bool)
    (f : RestockTaskItem.t -> RestockTaskItem.t) (rows : list RestockTaskItem.t) :
  (forall r, row_key (f r) = row_key r) ->
  (forall t i r, unresolved_for t i (f r) = true -> unresolved_for t i r = true) ->
  (forall r, q r = true -> RestockTaskItem.restocked r = false) ->
  NoDup (map RestockTaskItem.id rows) ->
  (forall t i, (List.length (filter (unresolved_for t i) rows) <= 1)%nat) ->
  let rows' := update_where q f rows in
  map row_key rows' = map row_key rows
  /\ NoDup (map RestockTaskItem.id rows')
  /\ (forall t i, (List.length (filter (unresolved_for t i) rows') <= 1)%nat)
  /\ (forall r, In r rows -> RestockTaskItem.restocked r = true -> In r rows').
Proof.
  intros Hk Hu Hq Hnd Hone. cbn.
  assert (E : map row_key (update_where q f rows) = map row_key rows)
    by now apply map_update_where.
  split; [exact E|]. split; [now rewrite row_key_id, E, <- row_key_id|]. split.
  - intros t i.
    etransitivity; [apply filter_length_update_where_le; apply Hu|apply Hone].
  - intros r Hin Hr. apply in_update_where. exists r. split; [assumption|].
    destruct (q r) eqn:Eq; [|reflexivity]. apply Hq in Eq. congruence.
Qed.

Lemma unresolved_of_restocked (k : Z) (r : RestockTaskItem.t) :
  unresolved_of k r = true -> RestockTaskItem.restocked r = false.
Proof.
  unfold unresolved_of. intros H. apply andb_prop in H. destruct H as [_ H].
  now destruct (RestockTaskItem.restocked r).
Qed.

(** The task rows after a committed step: no row is deleted, no row changes
    its task or its item, keys stay distinct, an item keeps at most one
    unresolved row under a task, and a resolved row is left as it is. *)
Lemma transition_rows (db db' : DB) :
  transition db db' -> row_invariant db ->
  (exists l, map row_key (restock_task_items db')
             = map row_key (restock_task_items db) ++ l)
  /\ row_invariant db'
  /\ (forall r, In r (restock_task_items db) -> RestockTaskItem.restocked r = true ->
                In r (restock_task_items db')).
Proof.
  assert (Hsame : forall d d', restock_task_items d' = restock_task_items d ->
    row_invariant d ->
    (exists l, map row_key (restock_task_items d') = map row_key (restock_task_items d) ++ l)
    /\ row_invariant d'
    /\ (forall r, In r (restock_task_items d) -> RestockTaskItem.restocked r = true ->
                  In r (restock_task_items d'))).
  { intros d d' E [H1 H2]. split; [exists []; now rewrite app_nil_r, E|].
    split; [split; now rewrite E|]. now rewrite E. }
  intros [p Hv Hn|p tray Hv Ht Hs|now p tray Hv Ht|now p tray Hv Ht Hne Hs
         |now p tray Hv Ht|now p tray Hv Ht Hne] Hinv.
  - now apply Hsame.
  - now apply Hsame.
  - apply Hsame; [|assumption]. apply dropoff_db_tables.
  - destruct Hinv as [H1 H2].
    destruct (@fold_flag_row_invariant
                (RestockTask.id (fst (ensure_task now (Tray.id tray) db)))
                (InventoryCheckRequest.items p) _ H1 H2) as [G1 [G2 G3]].
    split; [apply fold_flag_row_keys|]. split; [split; assumption|assumption].
  - destruct (first_open_task db (Tray.id tray)) as [task|] eqn:Ef.
    + destruct Hinv as [H1 H2].
      destruct (@resolve_rows_invariant (unresolved_of (RestockTask.id task))
                  (RestockTaskItem.resolve now (RestockFullRequest.user_id p))
                  (restock_task_items db)) as [G0 [G1 [G2 G3]]]; auto.
      * intros t i r. unfold unresolved_for. cbn. now rewrite andb_false_r.
      * apply unresolved_of_restocked.
      * unfold restock_full_db. cbn [restock_task_items]. rewrite Ef.
        split; [exists []; now rewrite app_nil_r|]. split; [split; assumption|assumption].
    + apply Hsame; [|assumption]. unfold restock_full_db. cbn [restock_task_items].
      now rewrite Ef.
  - destruct Hinv as [H1 H2].
    destruct (@resolve_rows_invariant
                (unresolved_of (RestockTask.id (fst (ensure_task now (Tray.id tray) db))))
                (resolve_selected now p)
                (restock_task_items db)) as [G0 [G1 [G2 G3]]]; auto.
    * apply row_key_resolve_selected.
    * intros t i r. apply unresolved_for_resolve_selected.
    * apply unresolved_of_restocked.
    * split; [exists []; now rewrite app_nil_r|]. split; [split; assumption|assumption].
Qed.

Lemma row_invariant_empty : row_invariant empty_db.
Proof. split; cbn; [constructor|intros; lia]. Qed.

Lemma reachable_row_invariant (db : DB) : reachable db -> row_invariant db.
Proof.
  revert db. apply (@reachable_transition_ind row_invariant).
  - apply row_invariant_empty.
  - intros db db' _ IH Ht. now apply (transition_rows Ht).
Qed.

(* ================================================================= *)
(** ** The task table *)

Lemma task_key_tray_id (l : list RestockTask.t) :
  map RestockTask.tray_id l = map (fun k => snd (fst k)) (map task_key l).
Proof. rewrite map_map. reflexivity. Qed.

Lemma ensure_task_keys (now : Z) (tray : Tray.t) (db : DB) :
  exists l, map task_key (restock_tasks (snd (ensure_task now (Tray.id tray) db)))
            = map task_key (restock_tasks db) ++ l
            /\ forall k, In k l -> snd (fst k) = Tray.id tray.
Proof.
  destruct (ensure_task_cases now (Tray.id tray) db) as [[_ E]|[_ [E1 E2]]]; cbn in *.
  - exists []. rewrite E, app_nil_r. split; [reflexivity|intros k []].
  - rewrite E2, E1. unfold insert_task. destruct db; cbn. rewrite map_app. cbn.
    eexists. split; [reflexivity|]. intros k [<-|[]]. reflexivity.
Qed.

(** The task table after a committed step: no task is deleted, no task
    changes its tray, and a new task is a task of the tray of the request. *)
Lemma transition_tasks (db db' : DB) :
  transition db db' ->
  exists l, map task_key (restock_tasks db') = map task_key (restock_tasks db) ++ l
            /\ forall k, In k l -> In (snd (fst k)) (map Tray.id (trays db)).
Proof.
  assert (Hsame : forall d d', restock_tasks d' = restock_tasks d ->
    exists l, map task_key (restock_tasks d') = map task_key (restock_tasks d) ++ l
              /\ forall k, In k l -> In (snd (fst k)) (map Tray.id (trays d))).
  { intros d d' ->. exists []. rewrite app_nil_r. split; [reflexivity|intros k []]. }
  assert (Hnew : forall now tray f,
    In tray (trays db) ->
    (forall x, task_key (f x) = task_key x) ->
    forall q,
    exists l, map task_key (update_where q f
                              (restock_tasks (snd (ensure_task now (Tray.id tray) db))))
              = map task_key (restock_tasks db) ++ l
              /\ forall k, In k l -> In (snd (fst k)) (map Tray.id (trays db))).
  { intros now tray f Hin Hf q. rewrite map_update_where by assumption.
    destruct (ensure_task_keys now tray db) as [l [-> Hl]]. exists l.
    split; [reflexivity|]. intros k Hk. rewrite (Hl k Hk). now apply in_map. }
  intros [p Hv Hn|p tray Hv Ht Hs|now p tray Hv Ht|now p tray Hv Ht Hne Hs
         |now p tray Hv Ht|now p tray Hv Ht Hne].
  - now apply Hsame.
  - now apply Hsame.
  - apply Hsame. apply dropoff_db_tables.
  - cbn [inventory_check_db restock_tasks]. apply Hnew; [eapply in_get_tray; eauto|].
    reflexivity.
  - unfold restock_full_db. cbn [restock_tasks].
    destruct (first_open_task db (Tray.id tray)) as [task|].
    + exists []. rewrite app_nil_r. split; [|intros k []].
      now apply map_update_where.
    + exists []. rewrite app_nil_r. split; [reflexivity|intros k []].
  - unfold restock_partial_db. cbn [restock_tasks].
    destruct (filter _ _) as [|r0 rest].
    + apply Hnew; [eapply in_get_tray; eauto|reflexivity].
    + destruct (ensure_task_keys now tray db) as [l [-> Hl]]. exists l.
      split; [reflexivity|]. intros k Hk. rewrite (Hl k Hk).
      apply in_map. eapply in_get_tray; eauto.
Qed.

Lemma open_task_of_set_updated_at (k now : Z) (t : RestockTask.t) :
  open_task_of k (RestockTask.set_updated_at now t) = open_task_of k t.
Proof. reflexivity. Qed.

Lemma open_task_of_close_task (k now : Z) (t : RestockTask.t) :
  open_task_of k (close_task now t) = false.
Proof. unfold open_task_of. cbn. apply andb_false_r. Qed.

Lemma dropoff_tray_update_status (now : Z) (p : DropoffRequest.t) (tray : Tray.t) :
  Tray.status (dropoff_tray_update now p tray) = in_location.
Proof.
  unfold dropoff_tray_update. destruct (DropoffRequest.case_id p) as [c|]; cbn;
    [destruct (String.eqb c "")|]; reflexivity.
Qed.

Lemma inventory_check_tray_update_status (now : Z) (p : InventoryCheckRequest.t)
    (tray : Tray.t) :
  Tray.status (inventory_check_tray_update now p tray) = needs_restock.
Proof.
  unfold inventory_check_tray_update.
  destruct (apply_priority_non_downgrade _ _ _ _).
  destruct (InventoryCheckRequest.location_type p); reflexivity.
Qed.

(** A task that [ensure_task] leaves in the table and that is open for
    another tray was in the table before. *)
Lemma ensure_task_open_other (now tray_id k : Z) (db : DB) (y : RestockTask.t) :
  In y (restock_tasks (snd (ensure_task now tray_id db))) ->
  k <> tray_id -> open_task_of k y = true -> In y (restock_tasks db).
Proof.
  intros Hy Hk Ho. destruct (ensure_task_old _ _ _ _ Hy) as [H|H]; [assumption|].
  exfalso. destruct (ensure_task_open now tray_id db) as [_ [Et _]].
  cbn in Et. rewrite <- H in Et. unfold open_task_of in Ho.
  apply andb_prop in Ho. destruct Ho as [Ho _]. apply Z.eqb_eq in Ho. congruence.
Qed.

Lemma tray_task_invariant_empty : tray_task_invariant empty_db.
Proof. split; [intros t []|intros tray t []]. Qed.

Lemma transition_tray_task_invariant (db db' : DB) :
  transition db db' ->
  NoDup (map Tray.id (trays db)) -> task_invariant db ->
  tray_task_invariant db -> tray_task_invariant db'.
Proof.
  intros Ht Hnd Hti [Htt Hrc]. split.
  - intros t Hin. destruct (transition_tray_ids Ht) as [lt ->].
    destruct (transition_tasks Ht) as [l [E Hl]].
    apply (in_map RestockTask.tray_id) in Hin.
    rewrite task_key_tray_id, E, map_app, <- task_key_tray_id in Hin.
    apply in_or_app. left. apply in_app_or in Hin. destruct Hin as [Hin|Hin].
    + apply in_map_iff in Hin. destruct Hin as [x [<- Hx]]. now apply Htt.
    + apply in_map_iff in Hin. destruct Hin as [k [<- Hk]]. now apply Hl.
  - destruct Ht as [p Hv Hn|p tray Hv Ht Hs|now p tray Hv Ht|now p tray Hv Ht Hne Hs
                   |now p tray Hv Ht|now p tray Hv Ht Hne].
    + intros x t Hx Hin Hr. cbn in Hx, Hin. unfold create_tray_db, insert_tray in *.
      destruct db as [ts its ks rs es]; cbn in *.
      apply in_app_or in Hx. destruct Hx as [Hx|[<-|[]]].
      * now apply Hrc.
      * unfold open_task_of. cbn -[fresh_id].
        destruct (Z.eqb_spec (RestockTask.tray_id t) (fresh_id (map Tray.id ts)))
          as [e|e]; [|reflexivity].
        exfalso. apply (@fresh_id_not_in (map Tray.id ts)). rewrite <- e.
        now apply Htt.
    + intros x t Hx Hin Hr. unfold create_tray_item_db in *. destruct db; cbn in *.
      now apply Hrc.
    + intros x t Hx Hin Hr.
      destruct (dropoff_db_tables now p tray db) as [Et [_ [Ek _]]].
      rewrite Et in Hx. rewrite Ek in Hin.
      apply in_update_where in Hx. destruct Hx as [y [Hy ->]].
      destruct (Tray.id y =? Tray.id tray).
      * rewrite dropoff_tray_update_status in Hr. discriminate.
      * now apply Hrc.
    + intros x t Hx Hin Hr. cbn [inventory_check_db trays restock_tasks] in Hx, Hin.
      apply in_update_where in Hx. destruct Hx as [y [Hy ->]].
      destruct (Z.eqb_spec (Tray.id y) (Tray.id tray)) as [E|E].
      * rewrite inventory_check_tray_update_status in Hr. discriminate.
      * apply in_update_where in Hin. destruct Hin as [u [Hu ->]].
        assert (G : open_task_of (Tray.id y) u = false).
        { destruct (open_task_of (Tray.id y) u) eqn:Eo; [|reflexivity].
          rewrite <- Eo. apply Hrc; auto. eapply ensure_task_open_other; eauto. }
        now destruct (RestockTask.id u =? _).
    + intros x t Hx Hin Hr. unfold restock_full_db in Hx, Hin.
      cbn [trays restock_tasks] in Hx, Hin.
      apply in_update_where in Hx. destruct Hx as [y [Hy ->]].
      destruct (first_open_task db (Tray.id tray)) as [task|] eqn:Ef.
      * apply in_update_where in Hin. destruct Hin as [u [Hu ->]].
        destruct (Z.eqb_spec (RestockTask.id u) (RestockTask.id task)) as [Eu|Eu];
          [apply open_task_of_close_task|].
        destruct (Z.eqb_spec (Tray.id y) (Tray.id tray)) as [E|E]; [|now apply Hrc].
        rewrite restock_full_tray_update_id.
        destruct (open_task_of (Tray.id tray) u) eqn:Eo; [|reflexivity].
        exfalso. apply Eu. f_equal.
        apply find_some in Ef. destruct Ef as [Hin Ho].
        eapply filter_le_1_unique; eauto. apply (inv_one_open Hti).
      * destruct (Z.eqb_spec (Tray.id y) (Tray.id tray)) as [E|E]; [|now apply Hrc].
        rewrite restock_full_tray_update_id.
        exact (find_none _ _ Ef t Hin).
    + intros x t Hx Hin Hr. unfold restock_partial_db in Hx, Hin.
      cbn [trays restock_tasks] in Hx, Hin.
      apply in_update_where in Hx. destruct Hx as [y [Hy ->]].
      destruct (Z.eqb_spec (Tray.id y) (Tray.id tray)) as [E|E].
      * rewrite restock_partial_tray_update_id.
        destruct (restock_partial_tray_update_fields now p
                    (filter (unresolved_of
                               (RestockTask.id (fst (ensure_task now (Tray.id tray) db))))
                            (update_where
                               (unresolved_of
                                  (RestockTask.id (fst (ensure_task now (Tray.id tray) db))))
                               (resolve_selected now p) (restock_task_items db)))
                    tray) as [Es _].
        cbn in Es. rewrite Es in Hr.
        destruct (filter _ _); [|discriminate].
        apply in_update_where in Hin. destruct Hin as [u [Hu ->]].
        destruct (Z.eqb_spec (RestockTask.id u)
                    (RestockTask.id (fst (ensure_task now (Tray.id tray) db))))
          as [Eu|Eu]; [apply open_task_of_close_task|].
        destruct (open_task_of (Tray.id tray) u) eqn:Eo; [|reflexivity].
        exfalso. apply Eu. f_equal.
        pose proof (ensure_task_first_open now (Tray.id tray) db) as Ef.
        apply find_some in Ef. destruct Ef as [Hi Ho].
        eapply filter_le_1_unique; eauto.
        apply ensure_task_one_open. apply (inv_one_open Hti).
      * assert (G : forall u, In u (restock_tasks (snd (ensure_task now (Tray.id tray) db)))
                              -> open_task_of (Tray.id y) u = false).
        { intros u Hu. destruct (open_task_of (Tray.id y) u) eqn:Eo; [|reflexivity].
          rewrite <- Eo. apply Hrc; auto. eapply ensure_task_open_other; eauto. }
        destruct (filter _ _).
        -- apply in_update_where in Hin. destruct Hin as [u [Hu ->]].
           destruct (RestockTask.id u =? _); [apply open_task_of_close_task|now apply G].
        -- now apply G.
Qed.

Lemma reachable_tray_task_invariant (db : DB) : reachable db -> tray_task_invariant db.
Proof.
  revert db. apply (@reachable_transition_ind tray_task_invariant).
  - apply tray_task_invariant_empty.
  - intros db db' Hr IH Ht. eapply transition_tray_task_invariant; eauto.
    + apply reachable_tray_keys; assumption.
    + now apply reachable_task_invariant.
Qed.

(* ================================================================= *)
(** ** Requests that fail, requests that return *)

Lemma error_of_code (db : DB) (req : Request) (e : HTTPException) :
  error_of db req = Some e -> In (status_code e) [400; 404; 422].
Proof.
  unfold error_of.
  destruct req as [p|p|p|p|p|p];
    repeat match goal with
           | |- context [if negb ?b then _ else _] => destruct b; cbn [negb]
           | |- context [match ?x with Some _ => _ | None => _ end] => destruct x
           | |- context [match ?x with [] => _ | _ :: _ => _ end] => destruct x
           end;
    try discriminate; intros [= <-]; cbn; auto.
Qed.

(** What a request that returns normally has done: it had no error, it
    loaded the tray it names, and the store and the answer are the ones of
    its summary. *)
Lemma handle_returned (now : Z) (req : Request) (db db' : DB) (out : Response) :
  handle now req db = (Return out, db') ->
  error_of db req = None
  /\ match req with
     | POST_seed_trays p =>
         db' = create_tray_db p db
         /\ out = tray_response (tray_out (new_tray p db) db')
     | POST_seed_tray_items p =>
         exists tray,
           get_tray db (CreateTrayItemIn.tray_id p) = Some tray
           /\ db' = create_tray_item_db p db
           /\ out = tray_response (tray_out tray db')
     | POST_scan_events_dropoff p =>
         exists tray,
           get_tray db (DropoffRequest.tray_id p) = Some tray
           /\ db' = dropoff_db now p tray db
           /\ out = dropoff_response (fresh_id (map Event.id (events db)))
     | POST_inventory_checks p =>
         exists tray,
           get_tray db (InventoryCheckRequest.tray_id p) = Some tray
           /\ db' = inventory_check_db now p tray db
           /\ out = tray_response (tray_out (inventory_check_tray_update now p tray) db')
     | POST_restocks_full p =>
         exists tray,
           get_tray db (RestockFullRequest.tray_id p) = Some tray
           /\ db' = restock_full_db now p tray db
           /\ out = tray_response (tray_out (restock_full_tray_update now p tray) db')
     | POST_restocks_partial p =>
         exists tray,
           get_tray db (RestockPartialRequest.tray_id p) = Some tray
           /\ db' = restock_partial_db now p tray db
           /\ out = tray_response
                      (tray_out (restock_partial_tray_update now p
                                   (open_items db'
                                      (RestockTask.id
                                         (fst (ensure_task now (Tray.id tray) db))))
                                   tray) db')
     end.
Proof.
  intros H. pose proof (handle_transition now req db) as Ht.
  destruct (error_of db req) as [e|] eqn:He; [rewrite Ht in H; discriminate|].
  split; [reflexivity|]. clear Ht.
  destruct req as [p|p|p|p|p|p]; cbn [error_of] in He.
  - destruct (valid_CreateTrayIn p) eqn:Hv; cbn [negb] in He; [|discriminate].
    destruct (tray_named db (cti_name p)) eqn:Hn; [discriminate|].
    rewrite (create_tray_ok now p db Hv Hn) in H. injection H as <- <-. auto.
  - destruct (valid_CreateTrayItemIn p) eqn:Hv; cbn [negb] in He; [|discriminate].
    destruct (get_tray db (CreateTrayItemIn.tray_id p)) as [tray|] eqn:Hg; [|discriminate].
    destruct (item_with_sku db _ _) eqn:Hs; [discriminate|].
    rewrite (create_tray_item_ok now p db Hv Hg Hs) in H. injection H as <- <-.
    exists tray. auto.
  - destruct (valid_DropoffRequest p) eqn:Hv; cbn [negb] in He; [|discriminate].
    destruct (get_tray db (DropoffRequest.tray_id p)) as [tray|] eqn:Hg; [|discriminate].
    rewrite (dropoff_ok now p db Hv Hg) in H. injection H as <- <-.
    exists tray. auto.
  - destruct (valid_InventoryCheckRequest p) eqn:Hv; cbn [negb] in He; [|discriminate].
    destruct (get_tray db (InventoryCheckRequest.tray_id p)) as [tray|] eqn:Hg;
      [|discriminate].
    destruct (InventoryCheckRequest.items p) as [|it items] eqn:Hi; [discriminate|].
    destruct (first_stray _ _ _) as [s|] eqn:Hs; [discriminate|]. rewrite <- Hi in Hs.
    assert (Hne : InventoryCheckRequest.items p <> []) by (rewrite Hi; discriminate).
    rewrite (inventory_check_ok now p db Hv Hg Hne Hs) in H. injection H as <- <-.
    exists tray. auto.
  - destruct (valid_RestockFullRequest p) eqn:Hv; cbn [negb] in He; [|discriminate].
    destruct (get_tray db (RestockFullRequest.tray_id p)) as [tray|] eqn:Hg;
      [|discriminate].
    rewrite (restock_full_ok now p db Hv Hg) in H. injection H as <- <-.
    exists tray. auto.
  - destruct (valid_RestockPartialRequest p) eqn:Hv; cbn [negb] in He; [|discriminate].
    destruct (get_tray db (RestockPartialRequest.tray_id p)) as [tray|] eqn:Hg;
      [|discriminate].
    destruct (RestockPartialRequest.items p) as [|it items] eqn:Hi; [discriminate|].
    assert (Hne : RestockPartialRequest.items p <> []) by (rewrite Hi; discriminate).
    pose proof (restock_partial_ok now p db Hv Hg Hne) as Hok. cbn zeta in Hok.
    rewrite Hok in H. injection H as <- <-.
    exists tray. auto.
Qed.

(** X1.  A request that is answered with an error has changed nothing: the
    store after it is the store before it.  The error is a 400, a 404 or a
    422.  This holds for the two seed endpoints, the drop-off, the inventory
    check and both restocks. *)
Theorem failed_request_is_atomic (now : Z) (req : Request) (db : DB)
    (e : HTTPException) :
  fst (handle now req db) = Raise e ->
  snd (handle now req db) = db /\ In (status_code e) [400; 404; 422].
Proof.
  intros H. pose proof (handle_transition now req db) as Ht.
  destruct (error_of db req) as [e'|] eqn:He.
  - rewrite Ht in H |- *. cbn in H |- *. injection H as <-.
    split; [reflexivity|]. eapply error_of_code; eauto.
  - destruct Ht as [out [db' [E _]]]. rewrite E in H. discriminate.
Qed.

Lemma failed_request_is_atomic_witness :
  fst (handle 3 (POST_inventory_checks stray_check) seeded_db)
  = Raise {| status_code := 400; detail := item_not_found_in_tray 7 1 |}
  /\ snd (handle 3 (POST_inventory_checks stray_check) seeded_db) = seeded_db
  /\ In 400 [400; 404; 422].
Proof.
  split; [vm_compute; reflexivity|].
  apply (@failed_request_is_atomic 3 (POST_inventory_checks stray_check) seeded_db
           {| status_code := 400; detail := item_not_found_in_tray 7 1 |}).
  vm_compute. reflexivity.
Defined.

(* ================================================================= *)
(** ** What holds in every reachable store *)

Lemma nodup_map_inj {A B : Type} (f : A -> B) (l : list A) (x y : A) :
  NoDup (map f l) -> In x l -> In y l -> f x = f y -> x = y.
Proof.
  induction l as [|a l IH]; cbn; [easy|].
  intros Hnd Hx Hy Hk. inversion Hnd as [|? ? Hna Hnd']; subst.
  destruct Hx as [->|Hx], Hy as [->|Hy]; auto.
  - exfalso. apply Hna. rewrite Hk. now apply in_map.
  - exfalso. apply Hna. rewrite <- Hk. now apply in_map.
Qed.

Lemma find_nodup {A B : Type} (f : A -> B) (eqb : B -> B -> bool) (l : list A) (x : A) :
  (forall a b, eqb a b = true <-> a = b) ->
  NoDup (map f l) -> In x l -> find (fun y => eqb (f y) (f x)) l = Some x.
Proof.
  intros Heq Hnd Hin.
  destruct (find (fun y => eqb (f y) (f x)) l) as [y|] eqn:Hf.
  - apply find_some in Hf. destruct Hf as [Hy Hk]. apply Heq in Hk.
    f_equal. eapply nodup_map_inj; eauto.
  - pose proof (find_none _ _ Hf x Hin) as H. cbn in H.
    assert (E : eqb (f x) (f x) = true) by now apply Heq. congruence.
Qed.

(** X2.  The stored color of a tray is never stale: in every store the
    service can reach, the color of each tray is the color [map_color]
    gives for its numeric priority, its partial flag and its status. *)
Theorem tray_color_never_stale (db : DB) (tray : Tray.t) :
  reachable db -> In tray (trays db) ->
  Tray.color tray
  = map_color (Tray.priority_numeric tray) (Tray.priority_partial tray)
              (TrayStatus_eqb (Tray.status tray) ready).
Proof.
  intros Hr. revert tray. revert db Hr.
  apply (@reachable_transition_ind (fun db => forall tray, In tray (trays db) ->
                                                           color_fresh tray)).
  - intros tray [].
  - intros d d' _ IH Ht tray.
    destruct (transition_trays Ht) as [E|[[p [_ [Hn E]]]|[t [t' [Hin [Hu E]]]]]];
      rewrite E.
    + apply IH.
    + rewrite in_app_iff. intros [H|[<-|[]]]; [now apply IH|reflexivity].
    + intros H. apply in_update_where in H. destruct H as [x [Hx ->]].
      destruct (Tray.id x =? Tray.id t); [|now apply IH].
      eapply tray_update_color_fresh; eauto.
Qed.

Lemma tray_color_never_stale_witness :
  In (new_tray {| cti_name := "Spine set" |} empty_db) (trays seeded_db)
  /\ Tray.color (new_tray {| cti_name := "Spine set" |} empty_db)
     = map_color None false true.
Proof.
  split; [left; reflexivity|].
  apply (@tray_color_never_stale seeded_db (new_tray {| cti_name := "Spine set" |} empty_db)).
  - apply reachable_seeded_db.
  - left. reflexivity.
Defined.

(** X3.  The numeric priority of a stored tray is absent or 1, 2 or 3, in
    every store the service can reach: the inventory check merges in only
    a validated hint or an auto-escalation suggestion, and the partial
    restock writes only the priority the request chose. *)
Theorem tray_numeric_priority_in_range (db : DB) (tray : Tray.t) (n : Z) :
  reachable db -> In tray (trays db) ->
  Tray.priority_numeric tray = Some n -> 1 <= n <= 3.
Proof.
  intros Hr. revert tray n. revert db Hr.
  apply (@reachable_transition_ind (fun db => forall tray n, In tray (trays db) ->
                                      Tray.priority_numeric tray = Some n -> 1 <= n <= 3)).
  - intros tray n [].
  - intros d d' _ IH Ht tray n.
    destruct (transition_trays Ht) as [E|[[p [_ [Hn E]]]|[t [t' [Hin [Hu E]]]]]];
      rewrite E.
    + apply IH.
    + rewrite in_app_iff. intros [H|[<-|[]]]; [now apply IH|discriminate].
    + intros H. apply in_update_where in H. destruct H as [x [Hx ->]].
      destruct (Tray.id x =? Tray.id t); [|now apply IH].
      apply (tray_update_numeric_in_range Hu). intros m. now apply IH.
Qed.

Lemma tray_numeric_priority_in_range_witness :
  let tray := Tray.mk 1 "Spine set" needs_restock (Some 2) false "orange"
                      (Some 0%Q) (Some 0%Q) (Some 4) None None None in
  In tray (trays (run [(4, POST_inventory_checks numeric_hint_check)] checked_db))
  /\ 1 <= 2 <= 3.
Proof.
  cbn zeta. split; [vm_compute; left; reflexivity|].
  apply (@tray_numeric_priority_in_range
           (run [(4, POST_inventory_checks numeric_hint_check)] checked_db)
           (Tray.mk 1 "Spine set" needs_restock (Some 2) false "orange"
                    (Some 0%Q) (Some 0%Q) (Some 4) None None None) 2).
  - apply reachable_run. apply reachable_checked_db.
  - vm_compute. left. reflexivity.
  - reflexivity.
Defined.

(** X4.  Tray ids and tray names identify a tray: in every reachable store
    two rows of the tray table with the same id or the same name are the
    same row, and looking a tray up by its id or by its name finds it. *)
Theorem tray_id_and_name_identify (db : DB) (t1 t2 : Tray.t) :
  reachable db -> In t1 (trays db) -> In t2 (trays db) ->
  (Tray.id t1 = Tray.id t2 \/ Tray.name t1 = Tray.name t2 -> t1 = t2)
  /\ get_tray db (Tray.id t1) = Some t1
  /\ tray_named db (Tray.name t1) = Some t1.
Proof.
  intros Hr H1 H2. destruct (reachable_tray_keys Hr) as [Hid Hnm].
  split; [|split].
  - intros [E|E].
    + exact (@nodup_map_inj _ _ Tray.id (trays db) t1 t2 Hid H1 H2 E).
    + exact (@nodup_map_inj _ _ Tray.name (trays db) t1 t2 Hnm H1 H2 E).
  - apply (find_nodup Tray.id Z.eqb); auto. apply Z.eqb_eq.
  - apply (find_nodup Tray.name String.eqb); auto. apply String.eqb_eq.
Qed.

Lemma tray_id_and_name_identify_witness :
  let t := new_tray {| cti_name := "Spine set" |} empty_db in
  In t (trays seeded_db)
  /\ get_tray seeded_db 1 = Some t /\ tray_named seeded_db "Spine set" = Some t.
Proof.
  cbn zeta. split; [left; reflexivity|].
  apply (@tray_id_and_name_identify seeded_db
           (new_tray {| cti_name := "Spine set" |} empty_db)
           (new_tray {| cti_name := "Spine set" |} empty_db)).
  - apply reachable_seeded_db.
  - left. reflexivity.
  - left. reflexivity.
Defined.

(** X5.  Item ids identify an item, a tray has no two items with one SKU,
    and every item belongs to a tray of the store, in every reachable
    store. *)
Theorem item_keys_identify (db : DB) (i j : TrayItem.t) :
  reachable db -> In i (tray_items db) -> In j (tray_items db) ->
  (TrayItem.id i = TrayItem.id j
   \/ (TrayItem.tray_id i = TrayItem.tray_id j /\ TrayItem.sku i = TrayItem.sku j) ->
   i = j)
  /\ get_tray_item db (TrayItem.id i) = Some i
  /\ exists tray, get_tray db (TrayItem.tray_id i) = Some tray.
Proof.
  intros Hr Hi Hj. destruct (reachable_item_invariant Hr) as [Hid Hsku Htr].
  split; [|split].
  - intros [E|[E1 E2]].
    + exact (@nodup_map_inj _ _ TrayItem.id (tray_items db) i j Hid Hi Hj E).
    + apply (@nodup_map_inj _ _ sku_key (tray_items db) i j Hsku Hi Hj).
      unfold sku_key. congruence.
  - apply (find_nodup TrayItem.id Z.eqb); auto. apply Z.eqb_eq.
  - specialize (Htr i Hi). apply in_map_iff in Htr. destruct Htr as [t [Et Ht]].
    exists t. rewrite <- Et.
    apply (find_nodup Tray.id Z.eqb); [apply Z.eqb_eq| |assumption].
    apply (reachable_tray_keys Hr).
Qed.

Lemma item_keys_identify_witness :
  let i := TrayItem.mk 1 1 "A" "Item A" false (Some 10) (Some 10) in
  In i (tray_items seeded_db)
  /\ get_tray_item seeded_db 1 = Some i
  /\ exists tray, get_tray seeded_db 1 = Some tray.
Proof.
  cbn zeta. split; [left; reflexivity|].
  apply (@item_keys_identify seeded_db
           (TrayItem.mk 1 1 "A" "Item A" false (Some 10) (Some 10))
           (TrayItem.mk 1 1 "A" "Item A" false (Some 10) (Some 10))).
  - apply reachable_seeded_db.
  - left. reflexivity.
  - left. reflexivity.
Defined.

Lemma transition_tray_keys (db db' : DB) :
  transition db db' -> NoDup (map Tray.id (trays db)) ->
  exists l, map tray_key (trays db') = map tray_key (trays db) ++ l.
Proof.
  intros Ht Hnd.
  destruct (transition_trays Ht) as [E|[[p [_ [Hn E]]]|[tray [tray' [Hin [Hu E]]]]]];
    rewrite E.
  - exists []. now rewrite app_nil_r.
  - rewrite map_app. eauto.
  - exists []. rewrite app_nil_r. apply (map_replace_row Tray.id); auto.
    unfold tray_key. destruct (tray_update_id_name Hu) as [-> ->]. reflexivity.
Qed.

(** X6.  No request deletes a row or changes the columns that identify it.
    Whatever the request, the store after it holds every tray of the store
    before it with its id and name, every item with its id, tray, SKU, name,
    critical flag and expected quantity, every task with its id, tray and
    creation time, and every task row with its id, task and item, in the
    same order; rows are only added at the end.  The event log only grows. *)
Theorem nothing_deleted_or_rekeyed (now : Z) (req : Request) (db : DB) :
  reachable db ->
  let db' := snd (handle now req db) in
  (exists l, map tray_key (trays db') = map tray_key (trays db) ++ l)
  /\ (exists l, map item_static (tray_items db')
                = map item_static (tray_items db) ++ l)
  /\ (exists l, map task_key (restock_tasks db') = map task_key (restock_tasks db) ++ l)
  /\ (exists l, map row_key (restock_task_items db')
                = map row_key (restock_task_items db) ++ l)
  /\ (exists l, events db' = events db ++ l).
Proof.
  intros Hr. cbn zeta.
  destruct (handle_store now req db) as [->|Ht].
  - repeat split; exists []; now rewrite app_nil_r.
  - split; [|split; [|split; [|split]]].
    + apply (transition_tray_keys Ht). apply (reachable_tray_keys Hr).
    + destruct (transition_tray_items Ht (items_ids (reachable_item_invariant Hr)))
        as [->|[p [tray [_ [_ ->]]]]].
      * exists []. now rewrite app_nil_r.
      * rewrite map_app. eauto.
    + destruct (transition_tasks Ht) as [l [E _]]. eauto.
    + apply (transition_rows Ht). now apply reachable_row_invariant.
    + destruct (transition_events Ht) as [->|[e [-> _]]]; [|eauto].
      exists []. now rewrite app_nil_r.
Qed.

Lemma nothing_deleted_or_rekeyed_witness :
  let db' := snd (handle 4 (POST_restocks_full scenario_full) checked_db) in
  (exists l, map tray_key (trays db') = map tray_key (trays checked_db) ++ l)
  /\ (exists l, map item_static (tray_items db')
                = map item_static (tray_items checked_db) ++ l)
  /\ (exists l, map task_key (restock_tasks db')
                = map task_key (restock_tasks checked_db) ++ l)
  /\ (exists l, map row_key (restock_task_items db')
                = map row_key (restock_task_items checked_db) ++ l)
  /\ (exists l, events db' = events checked_db ++ l).
Proof.
  apply (@nothing_deleted_or_rekeyed 4 (POST_restocks_full scenario_full) checked_db).
  apply reachable_checked_db.
Defined.

(** X7.  A drop-off, an inventory check, a full restock and a partial
    restock that return normally add exactly one event to the log: it takes
    the next key, names the tray and the user of the request, has the kind of
    the endpoint and the time of the request.  The seed endpoints log
    nothing. *)
Theorem one_event_per_lifecycle_request (now : Z) (req : Request) (db db' : DB)
    (out : Response) :
  handle now req db = (Return out, db') ->
  match req with
  | POST_seed_trays _ | POST_seed_tray_items _ => events db' = events db
  | POST_scan_events_dropoff p =>
      logged db db' now (DropoffRequest.tray_id p) (DropoffRequest.user_id p) "dropoff"
  | POST_inventory_checks p =>
      logged db db' now (InventoryCheckRequest.tray_id p)
             (InventoryCheckRequest.user_id p) "inventory_check"
  | POST_restocks_full p =>
      logged db db' now (RestockFullRequest.tray_id p)
             (RestockFullRequest.user_id p) "restock_full"
  | POST_restocks_partial p =>
      logged db db' now (RestockPartialRequest.tray_id p)
             (RestockPartialRequest.user_id p) "restock_partial"
  end.
Proof.
  intros H. destruct (@handle_returned now req db db' out H) as [_ Hc].
  destruct req as [p|p|p|p|p|p].
  - destruct Hc as [-> _]. reflexivity.
  - destruct Hc as [tray [_ [-> _]]]. reflexivity.
  - destruct Hc as [tray [Hg [-> _]]]. eexists.
    split; [apply dropoff_db_tables|]. cbn. rewrite (get_tray_id _ _ Hg). auto.
  - destruct Hc as [tray [Hg [-> _]]]. eexists.
    split; [reflexivity|]. cbn. rewrite (get_tray_id _ _ Hg). auto.
  - destruct Hc as [tray [Hg [-> _]]]. eexists.
    split; [reflexivity|]. cbn. rewrite (get_tray_id _ _ Hg). auto.
  - destruct Hc as [tray [Hg [-> _]]]. eexists.
    split; [reflexivity|]. cbn. rewrite (get_tray_id _ _ Hg). auto.
Qed.

Lemma one_event_per_lifecycle_request_witness :
  logged seeded_db checked_db 3 1 "rep001" "inventory_check".
Proof.
  apply (@one_event_per_lifecycle_request 3 (POST_inventory_checks scenario_check)
           seeded_db checked_db
           (match fst (handle 3 (POST_inventory_checks scenario_check) seeded_db) with
            | Return r => r
            | Raise _ => dropoff_response 0
            end)).
  vm_compute. reflexivity.
Defined.

(** X8.  Task rows are identified by their id, and an item has at most one
    unresolved row under a task: in every reachable store two unresolved
    rows of the same task and item are the same row, because the inventory
    check updates the unresolved row of a flagged item instead of adding a
    second one. *)
Theorem one_unresolved_row_per_item (db : DB) (r1 r2 : RestockTaskItem.t) :
  reachable db ->
  In r1 (restock_task_items db) -> In r2 (restock_task_items db) ->
  (RestockTaskItem.id r1 = RestockTaskItem.id r2 -> r1 = r2)
  /\ (RestockTaskItem.restocked r1 = false -> RestockTaskItem.restocked r2 = false ->
      RestockTaskItem.task_id r1 = RestockTaskItem.task_id r2 ->
      RestockTaskItem.item_id r1 = RestockTaskItem.item_id r2 -> r1 = r2).
Proof.
  intros Hr H1 H2. destruct (reachable_row_invariant Hr) as [Hid Hone]. split.
  - intros E.
    exact (@nodup_map_inj _ _ RestockTaskItem.id (restock_task_items db) r1 r2 Hid H1 H2 E).
  - intros U1 U2 Et Ei.
    apply (@filter_le_1_unique _
             (unresolved_for (RestockTaskItem.task_id r1) (RestockTaskItem.item_id r1))
             (restock_task_items db)); auto.
    + unfold unresolved_for. now rewrite !Z.eqb_refl, U1.
    + unfold unresolved_for. rewrite <- Et, <- Ei. now rewrite !Z.eqb_refl, U2.
Qed.

Lemma one_unresolved_row_per_item_witness :
  let db := run [(4, POST_inventory_checks scenario_check)] checked_db in
  let r := RestockTaskItem.mk 1 1 1 (Some 4) (Some "used in case"%string)
                              false None None in
  restock_task_items db = [r]
  /\ (RestockTaskItem.id r = RestockTaskItem.id r -> r = r)
  /\ (RestockTaskItem.restocked r = false -> RestockTaskItem.restocked r = false ->
      RestockTaskItem.task_id r = RestockTaskItem.task_id r ->
      RestockTaskItem.item_id r = RestockTaskItem.item_id r -> r = r).
Proof.
  cbn zeta. split; [vm_compute; reflexivity|].
  apply (@one_unresolved_row_per_item
           (run [(4, POST_inventory_checks scenario_check)] checked_db)
           (RestockTaskItem.mk 1 1 1 (Some 4) (Some "used in case"%string)
                               false None None)
           (RestockTaskItem.mk 1 1 1 (Some 4) (Some "used in case"%string)
                               false None None)).
  - apply reachable_run. apply reachable_checked_db.
  - vm_compute. left. reflexivity.
  - vm_compute. left. reflexivity.
Defined.

(* ================================================================= *)
(** ** Tray status and open tasks *)

Lemma existsb_open_ensure_task (now tray_id k : Z) (db : DB) :
  existsb (open_task_of k) (restock_tasks db) = true ->
  existsb (open_task_of k) (restock_tasks (snd (ensure_task now tray_id db))) = true.
Proof.
  intros H. destruct (ensure_task_cases now tray_id db) as [[_ E]|[_ [_ E]]]; cbn in E.
  - now rewrite E.
  - rewrite E. unfold insert_task. destruct db as [ts its ks rs es]; cbn in *.
    rewrite existsb_app, H. reflexivity.
Qed.

Lemma existsb_update_where_in {A : Type} (p q : A -> bool) (f : A -> A) (l : list A) :
  (forall x, In x l -> p x = true -> q (f x) = q x) ->
  existsb q (update_where p f l) = existsb q l.
Proof.
  unfold update_where. induction l as [|a l IH]; cbn; [reflexivity|].
  intros H. rewrite IH by (intros x Hx; apply H; now right).
  destruct (p a) eqn:E; [|reflexivity]. rewrite H; auto.
Qed.

Lemma existsb_open_close_other (now k : Z) (task : RestockTask.t)
    (tasks : list RestockTask.t) :
  NoDup (map RestockTask.id tasks) -> In task tasks ->
  RestockTask.tray_id task <> k ->
  existsb (open_task_of k)
          (update_where (fun t => RestockTask.id t =? RestockTask.id task)
                        (close_task now) tasks)
  = existsb (open_task_of k) tasks.
Proof.
  intros Hnd Hin Hk. apply existsb_update_where_in. intros u Hu E.
  apply Z.eqb_eq in E.
  rewrite (@nodup_key_inj _ RestockTask.id tasks u task Hnd Hu Hin E).
  rewrite open_task_of_close_task. unfold open_task_of.
  destruct (Z.eqb_spec (RestockTask.tray_id task) k); [contradiction|reflexivity].
Qed.

Lemma transition_needs_restock_open (db db' : DB) :
  transition db db' ->
  NoDup (map RestockTask.id (restock_tasks db)) ->
  needs_restock_open db -> needs_restock_open db'.
Proof.
  intros Ht Hnd IH.
  destruct Ht as [p Hv Hn|p tray Hv Ht Hs|now p tray Hv Ht|now p tray Hv Ht Hne Hs
                 |now p tray Hv Ht|now p tray Hv Ht Hne]; intros x Hx Hs'.
  - unfold create_tray_db, insert_tray in *. destruct db as [ts its ks rs es]; cbn in *.
    apply in_app_or in Hx. destruct Hx as [Hx|[<-|[]]]; [now apply IH|discriminate].
  - unfold create_tray_item_db in *. destruct db as [ts its ks rs es]; cbn in *.
    now apply IH.
  - destruct (dropoff_db_tables now p tray db) as [Et [_ [Ek _]]].
    rewrite Et in Hx. rewrite Ek.
    apply in_update_where in Hx. destruct Hx as [y [Hy ->]].
    destruct (Tray.id y =? Tray.id tray).
    + rewrite dropoff_tray_update_status in Hs'. discriminate.
    + now apply IH.
  - cbn [inventory_check_db trays restock_tasks] in Hx |- *.
    rewrite existsb_update_where_same by (intros u _; reflexivity).
    apply in_update_where in Hx. destruct Hx as [y [Hy ->]].
    destruct (Z.eqb_spec (Tray.id y) (Tray.id tray)) as [E|E].
    + rewrite inventory_check_tray_update_id.
      pose proof (ensure_task_first_open now (Tray.id tray) db) as Hf.
      apply find_some in Hf. apply existsb_exists. eauto.
    + apply existsb_open_ensure_task. now apply IH.
  - unfold restock_full_db in Hx |- *. cbn [trays restock_tasks] in Hx |- *.
    apply in_update_where in Hx. destruct Hx as [y [Hy ->]].
    destruct (Z.eqb_spec (Tray.id y) (Tray.id tray)) as [E|E].
    + destruct (restock_full_tray_update_fields now p tray) as [Es _].
      cbn in Es. rewrite Es in Hs'. discriminate.
    + destruct (first_open_task db (Tray.id tray)) as [task|] eqn:Ef; [|now apply IH].
      destruct (first_open_task_some _ _ Ef) as [Hin [Etr _]].
      rewrite existsb_open_close_other; [now apply IH|assumption|assumption|].
      rewrite Etr. congruence.
  - unfold restock_partial_db in Hx |- *. cbn [trays restock_tasks] in Hx |- *.
    apply in_update_where in Hx. destruct Hx as [y [Hy ->]].
    destruct (ensure_task_open now (Tray.id tray) db) as [Hin [Etr _]]. cbn in Hin, Etr.
    destruct (Z.eqb_spec (Tray.id y) (Tray.id tray)) as [E|E].
    + rewrite restock_partial_tray_update_id.
      destruct (restock_partial_tray_update_fields now p
                  (filter (unresolved_of
                             (RestockTask.id (fst (ensure_task now (Tray.id tray) db))))
                          (update_where
                             (unresolved_of
                                (RestockTask.id (fst (ensure_task now (Tray.id tray) db))))
                             (resolve_selected now p) (restock_task_items db)))
                  tray) as [Es _].
      cbn in Es. rewrite Es in Hs'.
      destruct (filter _ _) as [|r0 rest]; [discriminate|].
      pose proof (ensure_task_first_open now (Tray.id tray) db) as Hf.
      apply find_some in Hf. apply existsb_exists. eauto.
    + assert (G : existsb (open_task_of (Tray.id y))
                          (restock_tasks (snd (ensure_task now (Tray.id tray) db))) = true)
        by (apply existsb_open_ensure_task; now apply IH).
      destruct (filter _ _) as [|r0 rest]; [|exact G].
      rewrite existsb_open_close_other; auto.
      * now apply ensure_task_nodup.
      * rewrite Etr. congruence.
Qed.

Lemma reachable_needs_restock_open (db : DB) : reachable db -> needs_restock_open db.
Proof.
  revert db. apply (@reachable_transition_ind needs_restock_open).
  - intros tray [].
  - intros db db' Hr IH Ht. apply (transition_needs_restock_open Ht); [|assumption].
    apply (inv_ids (reachable_task_invariant Hr)).
Qed.

(** X9.  A tray that is ready has nothing left to restock: in every
    reachable store a tray with status ready has no open task, every task of
    the tray is closed and none of them has an unresolved row. *)
Theorem ready_tray_has_nothing_open (db : DB) (tray : Tray.t) :
  reachable db -> In tray (trays db) -> Tray.status tray = ready ->
  first_open_task db (Tray.id tray) = None
  /\ forall t, In t (restock_tasks db) -> RestockTask.tray_id t = Tray.id tray ->
               RestockTask.status t = RestockStatus.closed
               /\ open_items db (RestockTask.id t) = [].
Proof.
  intros Hr Hin Hs. pose proof (reachable_tray_task_invariant Hr) as [_ Hrc].
  pose proof (reachable_task_invariant Hr) as Hti.
  split.
  - apply find_none_all. intros t Ht. now apply Hrc.
  - intros t Ht Et. specialize (Hrc tray t Hin Ht Hs).
    unfold open_task_of in Hrc. rewrite Et, Z.eqb_refl in Hrc. cbn in Hrc.
    assert (Hc : RestockTask.status t = RestockStatus.closed)
      by (destruct (RestockTask.status t); [discriminate|reflexivity]).
    split; [exact Hc|]. now apply (inv_closed Hti).
Qed.

Lemma ready_tray_has_nothing_open_witness :
  let db := run [(4, POST_restocks_full scenario_full)] checked_db in
  let tray := Tray.mk 1 "Spine set" ready None false "green"
                      (Some 0%Q) (Some 0%Q) (Some 3) None None None in
  trays db = [tray] /\ first_open_task db 1 = None.
Proof.
  cbn zeta. split; [vm_compute; reflexivity|].
  apply (@ready_tray_has_nothing_open
           (run [(4, POST_restocks_full scenario_full)] checked_db)
           (Tray.mk 1 "Spine set" ready None false "green"
                    (Some 0%Q) (Some 0%Q) (Some 3) None None None)).
  - apply reachable_run. apply reachable_checked_db.
  - vm_compute. left. reflexivity.
  - reflexivity.
Defined.

(** X10.  A tray that needs restock has work recorded for it: in every
    reachable store a tray with status needs_restock has an open task, and
    that task has an unresolved row. *)
Theorem needs_restock_tray_has_open_task (db : DB) (tray : Tray.t) :
  reachable db -> In tray (trays db) -> Tray.status tray = needs_restock ->
  exists task,
    first_open_task db (Tray.id tray) = Some task
    /\ In task (restock_tasks db)
    /\ RestockTask.tray_id task = Tray.id tray
    /\ open_items db (RestockTask.id task) <> [].
Proof.
  intros Hr Hin Hs. pose proof (reachable_needs_restock_open Hr tray Hin Hs) as He.
  pose proof (reachable_task_invariant Hr) as Hti.
  destruct (first_open_task db (Tray.id tray)) as [task|] eqn:Ef.
  - exists task. destruct (first_open_task_some _ _ Ef) as [Ht [Etr Eo]].
    repeat split; auto. now apply (inv_open Hti).
  - exfalso. apply existsb_exists in He. destruct He as [t [Ht Ho]].
    pose proof (find_none _ _ Ef t Ht) as Hn. cbn in Hn. congruence.
Qed.

Lemma needs_restock_tray_has_open_task_witness :
  let tray := Tray.mk 1 "Spine set" needs_restock None false "green"
                      (Some 0%Q) (Some 0%Q) (Some 3) None None None in
  trays checked_db = [tray]
  /\ exists task,
       first_open_task checked_db 1 = Some task
       /\ In task (restock_tasks checked_db)
       /\ RestockTask.tray_id task = 1
       /\ open_items checked_db (RestockTask.id task) <> [].
Proof.
  cbn zeta. split; [vm_compute; reflexivity|].
  apply (@needs_restock_tray_has_open_task checked_db
           (Tray.mk 1 "Spine set" needs_restock None false "green"
                    (Some 0%Q) (Some 0%Q) (Some 3) None None None)).
  - apply reachable_checked_db.
  - vm_compute. left. reflexivity.
  - reflexivity.
Defined.

(** X11.  History is frozen: whatever request comes next, a task row that
    is resolved and a task that is closed stay in the store exactly as they
    are, field for field. *)
Theorem history_is_frozen (now : Z) (req : Request) (db : DB) :
  reachable db ->
  let db' := snd (handle now req db) in
  (forall r, In r (restock_task_items db) -> RestockTaskItem.restocked r = true ->
             In r (restock_task_items db'))
  /\ (forall t, In t (restock_tasks db) -> RestockTask.status t = RestockStatus.closed ->
                In t (restock_tasks db')).
Proof.
  intros Hr. cbn zeta. split.
  - destruct (handle_store now req db) as [->|Ht]; [auto|].
    apply (transition_rows Ht). now apply reachable_row_invariant.
  - intros t Hin Hc. apply handle_closed_stays; auto.
    now apply reachable_task_invariant.
Qed.

Lemma history_is_frozen_witness :
  let db := run [(4, POST_restocks_full scenario_full)] checked_db in
  let db' := snd (handle 5 (POST_inventory_checks scenario_check) db) in
  (forall r, In r (restock_task_items db) -> RestockTaskItem.restocked r = true ->
             In r (restock_task_items db'))
  /\ (forall t, In t (restock_tasks db) -> RestockTask.status t = RestockStatus.closed ->
                In t (restock_tasks db')).
Proof.
  apply (@history_is_frozen 5 (POST_inventory_checks scenario_check)
           (run [(4, POST_restocks_full scenario_full)] checked_db)).
  apply reachable_run. apply reachable_checked_db.
Defined.

(* ================================================================= *)
(** ** A full restock, twice *)

Lemma ready_closed_none (db : DB) (tray : Tray.t) :
  reachable db -> In tray (trays db) -> Tray.status tray = ready ->
  first_open_task db (Tray.id tray) = None.
Proof.
  intros Hr Hin Hs. apply find_none_all. intros t Ht.
  now apply (ready_closed (reachable_tray_task_invariant Hr)).
Qed.

Lemma update_where_idem {A : Type} (p : A -> bool) (f : A -> A) (l : list A) :
  (forall x, p x = true -> p (f x) = true /\ f (f x) = f x) ->
  update_where p f (update_where p f l) = update_where p f l.
Proof.
  intros H. unfold update_where. rewrite map_map. apply map_ext. intros x.
  destruct (p x) eqn:E; [|now rewrite E].
  destruct (H x E) as [-> ->]. reflexivity.
Qed.

Lemma reset_to_expected_idem (i : TrayItem.t) :
  reset_to_expected (reset_to_expected i) = reset_to_expected i.
Proof.
  unfold reset_to_expected. destruct (TrayItem.qty_expected i) eqn:E; cbn.
  - now rewrite E.
  - now rewrite E.
Qed.

Lemma restock_full_db_no_open (now : Z) (p : RestockFullRequest.t) (tray : Tray.t)
    (db : DB) :
  first_open_task db (Tray.id tray) = None ->
  restock_tasks (restock_full_db now p tray db) = restock_tasks db
  /\ restock_task_items (restock_full_db now p tray db) = restock_task_items db.
Proof.
  intros H. unfold restock_full_db. cbn [restock_tasks restock_task_items].
  now rewrite H.
Qed.

(** X12.  A full restock is idempotent on the stock and on the tasks: in a
    reachable store, a second full restock of the same tray right after the
    first returns normally and leaves the item table, the task table and
    the task rows as the first left them. *)
Theorem restock_full_twice (now1 now2 : Z) (p1 p2 : RestockFullRequest.t) (db : DB)
    (tray : Tray.t) :
  reachable db ->
  valid_RestockFullRequest p1 = true -> valid_RestockFullRequest p2 = true ->
  RestockFullRequest.tray_id p2 = RestockFullRequest.tray_id p1 ->
  get_tray db (RestockFullRequest.tray_id p1) = Some tray ->
  let db1 := snd (handle now1 (POST_restocks_full p1) db) in
  let db2 := snd (handle now2 (POST_restocks_full p2) db1) in
  (exists out, fst (handle now2 (POST_restocks_full p2) db1) = Return out)
  /\ tray_items db2 = tray_items db1
  /\ restock_tasks db2 = restock_tasks db1
  /\ restock_task_items db2 = restock_task_items db1.
Proof.
  intros Hr Hv1 Hv2 Eid Hg. cbn zeta.
  assert (Hr1 : reachable (snd (handle now1 (POST_restocks_full p1) db)))
    by now constructor.
  rewrite (restock_full_ok now1 p1 db Hv1 Hg) in Hr1 |- *. cbn [snd] in Hr1 |- *.
  set (tray1 := restock_full_tray_update now1 p1 tray).
  assert (Hg1 : get_tray (restock_full_db now1 p1 tray db) (RestockFullRequest.tray_id p2)
                = Some tray1).
  { rewrite Eid. unfold get_tray, restock_full_db. cbn [trays].
    apply get_tray_save; [exact Hg|apply restock_full_tray_update_id]. }
  rewrite (restock_full_ok now2 p2 _ Hv2 Hg1). cbn [fst snd].
  split; [eauto|].
  assert (Eid1 : Tray.id tray1 = Tray.id tray) by apply restock_full_tray_update_id.
  assert (Hnone : first_open_task (restock_full_db now1 p1 tray db) (Tray.id tray1) = None).
  { apply (@ready_closed_none (restock_full_db now1 p1 tray db) tray1 Hr1).
    - apply find_some in Hg1. tauto.
    - apply (restock_full_tray_update_fields now1 p1 tray). }
  split; [|exact (restock_full_db_no_open now2 p2 tray1 _ Hnone)].
  unfold restock_full_db. cbn [tray_items]. rewrite Eid1.
  apply update_where_idem. intros x Hx. split.
  - unfold reset_to_expected. now destruct (TrayItem.qty_expected x).
  - apply reset_to_expected_idem.
Qed.

Lemma restock_full_twice_witness :
  let db1 := snd (handle 4 (POST_restocks_full scenario_full) checked_db) in
  let db2 := snd (handle 5 (POST_restocks_full scenario_full) db1) in
  (exists out, fst (handle 5 (POST_restocks_full scenario_full) db1) = Return out)
  /\ tray_items db2 = tray_items db1
  /\ restock_tasks db2 = restock_tasks db1
  /\ restock_task_items db2 = restock_task_items db1.
Proof.
  apply (@restock_full_twice 4 5 scenario_full scenario_full checked_db
           (Tray.mk 1 "Spine set" needs_restock None false "green"
                    (Some 0%Q) (Some 0%Q) (Some 3) None None None)).
  - apply reachable_checked_db.
  - vm_compute. reflexivity.
  - vm_compute. reflexivity.
  - reflexivity.
  - vm_compute. reflexivity.
Defined.

(* ================================================================= *)
(** ** What an inventory check leaves *)

Lemma existsb_unresolved_for_flag_row (t i task_id : Z) (it : InventoryCheckItem.t)
    (rows : list RestockTaskItem.t) :
  existsb (unresolved_for t i) rows = true ->
  existsb (unresolved_for t i) (flag_row task_id it rows) = true.
Proof.
  intros H. destruct (flag_row_cases task_id it rows) as [[_ ->]|[e [_ ->]]].
  - rewrite existsb_app, H. reflexivity.
  - rewrite existsb_update_where_same; [exact H|].
    intros x _. apply unresolved_for_reflag.
Qed.

Lemma existsb_unresolved_for_flag_row_self (task_id : Z) (it : InventoryCheckItem.t)
    (rows : list RestockTaskItem.t) :
  existsb (unresolved_for task_id (InventoryCheckItem.item_id it))
          (flag_row task_id it rows) = true.
Proof.
  destruct (flag_row_cases task_id it rows) as [[_ ->]|[e [He ->]]].
  - rewrite existsb_app. cbn. unfold unresolved_for. cbn.
    rewrite !Z.eqb_refl. cbn. apply orb_true_r.
  - rewrite existsb_update_where_same by (intros x _; apply unresolved_for_reflag).
    apply find_some in He. apply existsb_exists. eauto.
Qed.

Lemma existsb_unresolved_for_flag_rows (task_id : Z) (items : list InventoryCheckItem.t)
    (rows : list RestockTaskItem.t) (it : InventoryCheckItem.t) :
  In it items ->
  existsb (unresolved_for task_id (InventoryCheckItem.item_id it))
          (fold_left (fun rows it => flag_row task_id it rows) items rows) = true.
Proof.
  assert (Hmono : forall items rows t i,
            existsb (unresolved_for t i) rows = true ->
            existsb (unresolved_for t i)
                    (fold_left (fun rows it => flag_row task_id it rows) items rows) = true).
  { clear. intros items. induction items as [|a items IH]; cbn; intros rows t i H; [exact H|].
    apply IH. now apply existsb_unresolved_for_flag_row. }
  revert rows. induction items as [|a items IH]; cbn; intros rows Hin; [easy|].
  destruct Hin as [->|Hin]; [|now apply IH].
  apply Hmono. apply existsb_unresolved_for_flag_row_self.
Qed.

(** X13.  After an inventory check that returns normally the tray needs
    restock, it has an open task touched at the time of the request, and
    every item the request lists has an unresolved row under that task.  The
    answer shows the tray as the store now has it. *)
Theorem inventory_check_flags_every_item (now : Z) (p : InventoryCheckRequest.t)
    (db db' : DB) (out : Response) :
  handle now (POST_inventory_checks p) db = (Return out, db') ->
  exists tray' task,
    get_tray db' (InventoryCheckRequest.tray_id p) = Some tray'
    /\ out = tray_response (tray_out tray' db')
    /\ Tray.status tray' = needs_restock
    /\ first_open_task db' (InventoryCheckRequest.tray_id p) = Some task
    /\ RestockTask.updated_at task = now
    /\ forall it, In it (InventoryCheckRequest.items p) ->
         exists r, first_unresolved_for db' (RestockTask.id task)
                                        (InventoryCheckItem.item_id it) = Some r.
Proof.
  intros H.
  destruct (@handle_returned now (POST_inventory_checks p) db db' out H)
    as [_ [tray [Hg [-> ->]]]].
  pose proof (get_tray_id _ _ Hg) as Eid.
  exists (inventory_check_tray_update now p tray),
         (RestockTask.set_updated_at now (fst (ensure_task now (Tray.id tray) db))).
  split; [|split; [reflexivity|split; [apply inventory_check_tray_update_status|]]].
  - unfold get_tray, inventory_check_db. cbn [trays].
    apply get_tray_save; [exact Hg|apply inventory_check_tray_update_id].
  - split; [|split; [reflexivity|]].
    + unfold first_open_task, inventory_check_db. cbn [restock_tasks].
      rewrite find_update_where_key by (intros x _; reflexivity).
      pose proof (ensure_task_first_open now (Tray.id tray) db) as Hf.
      unfold first_open_task in Hf. rewrite <- Eid, Hf. cbn.
      now rewrite Z.eqb_refl.
    + intros it Hin. cbn [RestockTask.id RestockTask.set_updated_at].
      unfold first_unresolved_for, inventory_check_db. cbn [restock_task_items].
      pose proof (existsb_unresolved_for_flag_rows
                    (RestockTask.id (fst (ensure_task now (Tray.id tray) db)))
                    (InventoryCheckRequest.items p) (restock_task_items db) it Hin) as He.
      destruct (find _ _) as [r|] eqn:Hf; [eauto|].
      apply existsb_exists in He. destruct He as [r [Hr Hu]].
      pose proof (find_none _ _ Hf r Hr) as Hn. cbn in Hn. congruence.
Qed.

Lemma inventory_check_flags_every_item_witness :
  exists tray' task,
    get_tray checked_db 1 = Some tray'
    /\ fst (handle 3 (POST_inventory_checks scenario_check) seeded_db)
       = Return (tray_response (tray_out tray' checked_db))
    /\ Tray.status tray' = needs_restock
    /\ first_open_task checked_db 1 = Some task
    /\ RestockTask.updated_at task = 3
    /\ forall it, In it (InventoryCheckRequest.items scenario_check) ->
         exists r, first_unresolved_for checked_db (RestockTask.id task)
                                        (InventoryCheckItem.item_id it) = Some r.
Proof.
  destruct (@inventory_check_flags_every_item 3 scenario_check seeded_db checked_db
              (match fst (handle 3 (POST_inventory_checks scenario_check) seeded_db) with
               | Return r => r
               | Raise _ => dropoff_response 0
               end))
    as [tray' [task [H1 [H2 H3]]]].
  - vm_compute. reflexivity.
  - exists tray', task. split; [exact H1|]. split; [|exact H3].
    rewrite <- H2. vm_compute. reflexivity.
Defined.

(* ================================================================= *)
(** ** What a drop-off leaves *)

(** X14.  A drop-off that returns normally moves the tray and nothing else:
    the tray is in_location at the place of the request and seen at its
    time, its numeric priority and partial flag are as before, and it is
    linked to the case of the request only if the request gives a
    non-empty case id; items, tasks and task rows are untouched, so a tray
    with an open task keeps it. *)
Theorem dropoff_only_moves_the_tray (now : Z) (p : DropoffRequest.t) (db db' : DB)
    (out : Response) :
  handle now (POST_scan_events_dropoff p) db = (Return out, db') ->
  exists tray tray',
    get_tray db (DropoffRequest.tray_id p) = Some tray
    /\ get_tray db' (DropoffRequest.tray_id p) = Some tray'
    /\ Tray.status tray' = in_location
    /\ Tray.priority_numeric tray' = Tray.priority_numeric tray
    /\ Tray.priority_partial tray' = Tray.priority_partial tray
    /\ Tray.last_seen_at tray' = Some now
    /\ Tray.last_location_type tray' = Some (DropoffRequest.location_type p)
    /\ Tray.last_location_name tray' = DropoffRequest.location_name p
    /\ Tray.linked_case_id tray'
       = match DropoffRequest.case_id p with
         | Some c => if String.eqb c "" then Tray.linked_case_id tray else Some c
         | None => Tray.linked_case_id tray
         end
    /\ tray_items db' = tray_items db
    /\ restock_tasks db' = restock_tasks db
    /\ restock_task_items db' = restock_task_items db.
Proof.
  intros H.
  destruct (@handle_returned now (POST_scan_events_dropoff p) db db' out H)
    as [_ [tray [Hg [-> _]]]].
  destruct (dropoff_db_tables now p tray db) as [Et [Ei [Ek [Er _]]]].
  exists tray, (dropoff_tray_update now p tray).
  split; [exact Hg|]. split.
  { unfold get_tray. rewrite Et. apply get_tray_save; [exact Hg|].
    now destruct (tray_update_id_name (tu_dropoff tray now p)). }
  split; [apply dropoff_tray_update_status|].
  destruct (dropoff_keeps_priority now p tray) as [-> ->].
  repeat split; auto;
    unfold dropoff_tray_update; destruct (DropoffRequest.case_id p) as [c|]; cbn;
    try destruct (String.eqb c ""); reflexivity.
Qed.

Lemma dropoff_only_moves_the_tray_witness :
  let p := DropoffRequest.mk 1 "rep001" demo_gps hospital None (Some "case-7"%string)
                             None None in
  exists tray', get_tray (snd (handle 4 (POST_scan_events_dropoff p) checked_db)) 1 = Some tray'
                /\ Tray.status tray' = in_location.
Proof.
  cbn zeta.
  destruct (@dropoff_only_moves_the_tray 4
              (DropoffRequest.mk 1 "rep001" demo_gps hospital None
                                 (Some "case-7"%string) None None)
              checked_db
              (snd (handle 4 (POST_scan_events_dropoff
                                (DropoffRequest.mk 1 "rep001" demo_gps hospital None
                                                   (Some "case-7"%string) None None))
                           checked_db))
              (dropoff_response 2))
    as [tray [tray' [_ [H1 [H2 _]]]]].
  - vm_compute. reflexivity.
  - exists tray'. auto.
Defined.

(* ================================================================= *)
(** ** What the task rows refer to *)

Lemma in_map_prefix {A B : Type} (f : A -> B) (l l' : list A) (x : list B) (a : A) :
  map f l' = map f l ++ x -> In a l -> exists a', In a' l' /\ f a' = f a.
Proof.
  intros E Hin. apply (in_map f) in Hin.
  assert (H : In (f a) (map f l')) by (rewrite E; apply in_or_app; now left).
  apply in_map_iff in H. destruct H as [a' [Ea Ha]]. eauto.
Qed.

Lemma in_map_same {A B : Type} (f : A -> B) (l l' : list A) (a : A) :
  map f l' = map f l -> In a l' -> exists a0, In a0 l /\ f a0 = f a.
Proof.
  intros E Hin. apply (in_map f) in Hin. rewrite E in Hin.
  apply in_map_iff in Hin. destruct Hin as [a0 [Ea Ha]]. eauto.
Qed.

Lemma flag_rows_origin (task_id : Z) (items : list InventoryCheckItem.t)
    (rows : list RestockTaskItem.t) (r : RestockTaskItem.t) :
  In r (fold_left (fun rows it => flag_row task_id it rows) items rows) ->
  (exists r0, In r0 rows /\ row_key r0 = row_key r)
  \/ (RestockTaskItem.task_id r = task_id
      /\ exists it, In it items
                    /\ RestockTaskItem.item_id r = InventoryCheckItem.item_id it).
Proof.
  revert rows. induction items as [|a items IH]; cbn; intros rows Hin; [left; eauto|].
  destruct (IH _ Hin) as [[r0 [H0 E0]]|[Et [it [Hit Ei]]]].
  - destruct (flag_row_cases task_id a rows) as [[_ E]|[e [_ E]]]; rewrite E in H0.
    + apply in_app_or in H0. destruct H0 as [H0|[<-|[]]]; [left; eauto|].
      right. unfold row_key in E0. cbn in E0. injection E0 as _ Et Ei.
      split; [auto|]. exists a. auto.
    + apply in_update_where in H0. destruct H0 as [x [Hx ->]]. left. exists x.
      split; [assumption|]. rewrite <- E0.
      destruct (RestockTaskItem.id x =? _); [now rewrite row_key_reflag|reflexivity].
  - right. split; [assumption|]. exists it. auto.
Qed.

Lemma first_stray_none_item (rows : list TrayItem.t) (tray_id : Z)
    (items : list InventoryCheckItem.t) (it : InventoryCheckItem.t) :
  first_stray rows tray_id items = None -> In it items ->
  exists i, In i rows /\ TrayItem.id i = InventoryCheckItem.item_id it
            /\ TrayItem.tray_id i = tray_id.
Proof.
  intros Hs Hin. pose proof (find_none _ _ Hs it Hin) as H. cbn in H.
  apply negb_false_iff in H. unfold in_tray in H.
  destruct (find _ rows) as [i|] eqn:Hf; [|discriminate].
  apply find_some in Hf. destruct Hf as [Hi Hk].
  exists i. split; [assumption|]. split; [now apply Z.eqb_eq|now apply Z.eqb_eq].
Qed.

(** Where a row of the store after a committed step comes from: it is a
    row of the store before, with the same key, or a row for an item of the
    tray of the request under the open task of that tray. *)
Lemma transition_rows_origin (db db' : DB) (r : RestockTaskItem.t) :
  transition db db' -> In r (restock_task_items db') ->
  (exists r0, In r0 (restock_task_items db) /\ row_key r0 = row_key r)
  \/ (exists t i,
        In t (restock_tasks db') /\ RestockTask.id t = RestockTaskItem.task_id r
        /\ In i (tray_items db) /\ TrayItem.id i = RestockTaskItem.item_id r
        /\ TrayItem.tray_id i = RestockTask.tray_id t).
Proof.
  intros [p Hv Hn|p tray Hv Ht Hs|now p tray Hv Ht|now p tray Hv Ht Hne Hs
         |now p tray Hv Ht|now p tray Hv Ht Hne] Hin.
  - left. eauto.
  - left. eauto.
  - left. destruct (dropoff_db_tables now p tray db) as [_ [_ [_ [E _]]]].
    rewrite E in Hin. eauto.
  - cbn [inventory_check_db restock_task_items] in Hin.
    destruct (@flag_rows_origin _ _ _ _ Hin) as [H|[Et [it [Hit Ei]]]]; [now left|].
    right. destruct (@first_stray_none_item _ _ _ it Hs Hit) as [i [Hi [Eid Etr]]].
    destruct (ensure_task_open now (Tray.id tray) db) as [Hk [Ek _]]. cbn in Hk, Ek.
    exists (RestockTask.set_updated_at now (fst (ensure_task now (Tray.id tray) db))), i.
    split; [|cbn; repeat split; congruence].
    cbn [inventory_check_db restock_tasks]. apply in_update_where.
    eexists. split; [exact Hk|]. now rewrite Z.eqb_refl.
  - left. unfold restock_full_db in Hin. cbn [restock_task_items] in Hin.
    destruct (first_open_task db (Tray.id tray)); [|eauto].
    apply in_update_where in Hin. destruct Hin as [x [Hx ->]]. exists x.
    split; [assumption|]. now destruct (unresolved_of _ x).
  - left. unfold restock_partial_db in Hin. cbn [restock_task_items] in Hin.
    apply in_update_where in Hin. destruct Hin as [x [Hx ->]]. exists x.
    split; [assumption|].
    destruct (unresolved_of _ x); [now rewrite row_key_resolve_selected|reflexivity].
Qed.

Lemma transition_row_references (db db' : DB) :
  transition db db' -> NoDup (map TrayItem.id (tray_items db)) ->
  row_references db -> row_references db'.
Proof.
  intros Ht Hnd IH r Hin.
  assert (Hitem : forall i, In i (tray_items db) ->
            exists i', In i' (tray_items db') /\ item_static i' = item_static i).
  { intros i Hi. destruct (transition_tray_items Ht Hnd) as [E|[p [tray [_ [_ E]]]]].
    - apply in_map_prefix with (l := tray_items db) (x := []); [|assumption].
      now rewrite app_nil_r.
    - exists i. split; [|reflexivity]. rewrite E. apply in_or_app. now left. }
  assert (Htask : forall t, In t (restock_tasks db) ->
            exists t', In t' (restock_tasks db') /\ task_key t' = task_key t).
  { intros t Hk. destruct (transition_tasks Ht) as [l [E _]].
    eapply in_map_prefix; eauto. }
  destruct (@transition_rows_origin db db' r Ht Hin) as [[r0 [H0 E0]]|[t [i [Hk [Ek [Hi [Ei Etr]]]]]]].
  - destruct (IH r0 H0) as [t [i [Hk [Ek [Hi [Ei Etr]]]]]].
    destruct (Htask t Hk) as [t' [Hk' Ek']]. destruct (Hitem i Hi) as [i' [Hi' Ei']].
    unfold row_key in E0. unfold task_key in Ek'. unfold item_static in Ei'.
    exists t', i'. repeat split; auto; congruence.
  - destruct (Hitem i Hi) as [i' [Hi' Ei']]. unfold item_static in Ei'.
    exists t, i'. repeat split; auto; congruence.
Qed.

(** X15.  The task rows never dangle: in every reachable store each task
    row hangs under a task of the store and names an item of the store, and
    that item belongs to the tray the task is for. *)
Theorem task_rows_refer_to_items_of_the_tray (db : DB) (r : RestockTaskItem.t) :
  reachable db -> In r (restock_task_items db) ->
  exists t i,
    In t (restock_tasks db) /\ RestockTask.id t = RestockTaskItem.task_id r
    /\ get_tray_item db (RestockTaskItem.item_id r) = Some i
    /\ TrayItem.tray_id i = RestockTask.tray_id t
    /\ exists tray, get_tray db (RestockTask.tray_id t) = Some tray.
Proof.
  intros Hr Hin.
  assert (Href : row_references db).
  { clear r Hin. revert db Hr. apply (@reachable_transition_ind row_references).
    - intros r [].
    - intros db db' Hr IH Ht. apply (transition_row_references Ht); [|assumption].
      apply (items_ids (reachable_item_invariant Hr)). }
  destruct (Href r Hin) as [t [i [Hk [Ek [Hi [Ei Etr]]]]]].
  exists t, i. split; [assumption|]. split; [assumption|]. split; [|split; [assumption|]].
  - rewrite <- Ei. apply (find_nodup TrayItem.id Z.eqb); [apply Z.eqb_eq| |assumption].
    apply (items_ids (reachable_item_invariant Hr)).
  - pose proof (task_tray (reachable_tray_task_invariant Hr) t Hk) as Htr.
    apply in_map_iff in Htr. destruct Htr as [tray [Et Htray]].
    exists tray. rewrite <- Et.
    apply (find_nodup Tray.id Z.eqb); [apply Z.eqb_eq| |assumption].
    apply (reachable_tray_keys Hr).
Qed.

Lemma task_rows_refer_to_items_of_the_tray_witness :
  let r := RestockTaskItem.mk 1 1 1 (Some 4) (Some "used in case"%string)
                              false None None in
  restock_task_items checked_db = [r]
  /\ exists t i,
       In t (restock_tasks checked_db) /\ RestockTask.id t = RestockTaskItem.task_id r
       /\ get_tray_item checked_db (RestockTaskItem.item_id r) = Some i
       /\ TrayItem.tray_id i = RestockTask.tray_id t
       /\ exists tray, get_tray checked_db (RestockTask.tray_id t) = Some tray.
Proof.
  cbn zeta. split; [vm_compute; reflexivity|].
  apply (@task_rows_refer_to_items_of_the_tray checked_db
           (RestockTaskItem.mk 1 1 1 (Some 4) (Some "used in case"%string)
                               false None None)).
  - apply reachable_checked_db.
  - vm_compute. left. reflexivity.
Defined.

(* ================================================================= *)
(** ** Reading the trays *)

Lemma tray_to_out_run (tray : Tray.t) (s : Session) :
  tray_to_out tray s = (Return (tray_out tray (pending s)), s).
Proof. reflexivity. Qed.

Lemma map_M_tray_to_out_run (l : list Tray.t) (s : Session) :
  map_M tray_to_out l s = (Return (map (fun t => tray_out t (pending s)) l), s).
Proof.
  induction l as [|t l IH]; [reflexivity|].
  cbn [map_M map]. unfold bind. rewrite tray_to_out_run, IH. reflexivity.
Qed.

Lemma get_tray_run (tray_id : Z) (db : DB) :
  with_Session (GET.get_tray tray_id) db
  = match get_tray db tray_id with
    | Some tray => (Return (tray_out tray db), db)
    | None => (Raise {| status_code := 404; detail := tray_not_found tray_id |}, db)
    end.
Proof.
  unfold with_Session, GET.get_tray, get_tray_or_404, bind, query. cbn.
  destruct (get_tray db tray_id); reflexivity.
Qed.

Lemma list_trays_run (lower : string -> string) (sort : SortKey) (limit : option Z)
    (offset : Z) (db : DB) :
  valid_list_trays limit offset = true ->
  with_Session (GET.list_trays lower sort limit offset) db
  = (Return (map (fun t => tray_out t db)
                 (paginate limit offset (stable_sort (GET.key_le lower sort) (trays db)))),
     db).
Proof.
  intros Hv. unfold with_Session, GET.list_trays, validated. rewrite Hv.
  unfold bind, query. cbn [pending]. rewrite map_M_tray_to_out_run. reflexivity.
Qed.

Lemma insert_sorted_perm {A : Type} (le : A -> A -> bool) (x : A) (l : list A) :
  Permutation (insert_sorted le x l) (x :: l).
Proof.
  induction l as [|y l IH]; cbn; [reflexivity|].
  destruct (le x y); [reflexivity|]. rewrite IH. apply perm_swap.
Qed.

Lemma stable_sort_perm {A : Type} (le : A -> A -> bool) (l : list A) :
  Permutation (stable_sort le l) l.
Proof.
  induction l as [|x l IH]; cbn; [constructor|].
  rewrite insert_sorted_perm. now constructor.
Qed.

Lemma insert_sorted_sorted {A : Type} (le : A -> A -> bool) (x : A) (l : list A) :
  (forall a b, le a b = false -> le b a = true) ->
  Sorted (fun a b => le a b = true) l ->
  Sorted (fun a b => le a b = true) (insert_sorted le x l).
Proof.
  intros Htot Hs. induction Hs as [|y l Hs IH Hd]; cbn.
  - repeat constructor.
  - destruct (le x y) eqn:E.
    + constructor; [now constructor|now constructor].
    + constructor; [exact IH|].
      destruct l as [|z l]; cbn.
      * constructor. now apply Htot.
      * destruct (le x z); constructor; [now apply Htot|now inversion Hd].
Qed.

Lemma stable_sort_sorted {A : Type} (le : A -> A -> bool) (l : list A) :
  (forall a b, le a b = false -> le b a = true) ->
  Sorted (fun a b => le a b = true) (stable_sort le l).
Proof.
  intros Htot. induction l as [|x l IH]; cbn; [constructor|].
  now apply insert_sorted_sorted.
Qed.

Lemma filter_insert_sorted {A : Type} (le : A -> A -> bool) (q : A -> bool)
    (x : A) (l : list A) :
  (forall y, q x = true -> q y = true -> le x y = true) ->
  filter q (insert_sorted le x l) = filter q (x :: l).
Proof.
  intros H. induction l as [|y l IH]; [reflexivity|].
  cbn [insert_sorted]. destruct (le x y) eqn:E; [reflexivity|].
  cbn [filter] in IH |- *. rewrite IH.
  destruct (q x) eqn:Ex, (q y) eqn:Ey; try reflexivity.
  assert (G : le x y = true) by (apply H; auto). congruence.
Qed.

Lemma filter_stable_sort {A : Type} (le : A -> A -> bool) (q : A -> bool) (l : list A) :
  (forall x y, q x = true -> q y = true -> le x y = true) ->
  filter q (stable_sort le l) = filter q l.
Proof.
  intros H. induction l as [|x l IH]; [reflexivity|].
  cbn [stable_sort fold_right]. rewrite filter_insert_sorted by (intros y; apply H).
  cbn [filter]. fold (stable_sort le l). now rewrite IH.
Qed.

Lemma key_le_total (lower : string -> string) (sort : SortKey) (a b : Tray.t) :
  GET.key_le lower sort a b = false -> GET.key_le lower sort b a = true.
Proof.
  destruct sort; cbn.
  - intros H. apply Z.leb_gt in H. apply Z.leb_le. lia.
  - intros H. destruct (String.leb_total (lower (Tray.name a)) (lower (Tray.name b)));
      congruence.
Qed.

(** X16.  Reading after writing: when a seed request, an inventory check or
    a restock has returned a tray, [GET /trays/{id}] for that tray answers
    with the same tray and the same items, and changes nothing. *)
Theorem get_tray_after_request (now : Z) (req : Request) (db db' : DB) (out : TrayOut) :
  handle now req db = (Return (tray_response out), db') ->
  with_Session (GET.get_tray (Tray.id (out_tray out))) db' = (Return out, db').
Proof.
  intros H. rewrite get_tray_run.
  destruct (@handle_returned now req db db' (tray_response out) H) as [_ Hc].
  destruct req as [p|p|p|p|p|p].
  - destruct Hc as [-> [= ->]]. cbn [out_tray tray_out].
    unfold get_tray, create_tray_db, insert_tray. destruct db as [ts its ks rs es].
    cbn [trays set_trays]. rewrite find_app_none.
    + cbn [find]. destruct (new_tray_fields p {| trays := ts; tray_items := its;
        restock_tasks := ks; restock_task_items := rs; events := es |}) as [_ _].
      now rewrite Z.eqb_refl.
    + apply find_none_all. intros t Ht. apply Z.eqb_neq. intros E.
      apply (@fresh_id_not_in (map Tray.id ts)).
      change (fresh_id (map Tray.id ts))
        with (Tray.id (new_tray p {| trays := ts; tray_items := its;
                restock_tasks := ks; restock_task_items := rs; events := es |})).
      rewrite <- E. now apply in_map.
  - destruct Hc as [tray [Hg [-> [= ->]]]]. cbn [out_tray tray_out].
    assert (E : get_tray (create_tray_item_db p db) (Tray.id tray) = Some tray).
    { rewrite (get_tray_id _ _ Hg). unfold create_tray_item_db.
      destruct db as [ts its ks rs es]. exact Hg. }
    now rewrite E.
  - destruct Hc as [tray [_ [_ E]]]. discriminate.
  - destruct Hc as [tray [Hg [-> [= ->]]]]. cbn [out_tray tray_out].
    assert (E : get_tray (inventory_check_db now p tray db)
                  (Tray.id (inventory_check_tray_update now p tray))
                = Some (inventory_check_tray_update now p tray)).
    { rewrite inventory_check_tray_update_id, (get_tray_id _ _ Hg).
      unfold get_tray, inventory_check_db. cbn [trays].
      apply get_tray_save; [exact Hg|apply inventory_check_tray_update_id]. }
    now rewrite E.
  - destruct Hc as [tray [Hg [-> [= ->]]]]. cbn [out_tray tray_out].
    assert (E : get_tray (restock_full_db now p tray db)
                  (Tray.id (restock_full_tray_update now p tray))
                = Some (restock_full_tray_update now p tray)).
    { rewrite restock_full_tray_update_id, (get_tray_id _ _ Hg).
      unfold get_tray, restock_full_db. cbn [trays].
      apply get_tray_save; [exact Hg|apply restock_full_tray_update_id]. }
    now rewrite E.
  - destruct Hc as [tray [Hg [-> [= ->]]]]. cbn [out_tray tray_out].
    rewrite restock_partial_tray_update_id.
    pose proof (restock_partial_db_tray now p db Hg) as E. cbn zeta in E.
    rewrite <- (get_tray_id _ _ Hg) in E at 1. now rewrite E.
Qed.

Lemma get_tray_after_request_witness :
  let out := {| out_tray := Tray.mk 1 "Spine set" needs_restock None false "green"
                                    (Some 0%Q) (Some 0%Q) (Some 3) None None None;
                out_items := [TrayItem.mk 1 1 "A" "Item A" false (Some 10) (Some 6)] |} in
  handle 3 (POST_inventory_checks scenario_check) seeded_db
  = (Return (tray_response out), checked_db)
  /\ with_Session (GET.get_tray (Tray.id (out_tray out))) checked_db
     = (Return out, checked_db).
Proof.
  cbn zeta. split; [vm_compute; reflexivity|].
  apply (@get_tray_after_request 3 (POST_inventory_checks scenario_check) seeded_db
           checked_db
           {| out_tray := Tray.mk 1 "Spine set" needs_restock None false "green"
                                  (Some 0%Q) (Some 0%Q) (Some 3) None None None;
              out_items := [TrayItem.mk 1 1 "A" "Item A" false (Some 10) (Some 6)] |}).
  vm_compute. reflexivity.
Defined.

(* ================================================================= *)
(** ** Listing the trays *)

Lemma firstn_plus {A : Type} (n m : nat) (l : list A) :
  firstn (n + m) l = firstn n l ++ firstn m (skipn n l).
Proof.
  revert l. induction n as [|n IH]; intros l; [reflexivity|].
  destruct l as [|x l]; cbn; [now rewrite firstn_nil|]. now rewrite IH.
Qed.

Lemma prio_rank_sorted (lower : string -> string) (l : list Tray.t) :
  Sorted (fun a b => GET.key_le lower sort_priority a b = true) l ->
  StronglySorted (fun a b => prio_rank (Tray.color a) <= prio_rank (Tray.color b)) l.
Proof.
  intros H. apply Sorted_StronglySorted.
  - intros a b c Hab Hbc. lia.
  - induction H as [|a l Hs IH Hd]; constructor; [assumption|].
    destruct Hd as [|b l Hab]; constructor. cbn in Hab. now apply Z.leb_le.
Qed.

(** X17.  [GET /trays] without a page lists every tray of the store once,
    in the order of the sort key, and changes nothing.  Sorted by priority,
    red trays come first, then orange, yellow, blue and green ones, and
    trays of the same color keep the order of the table; sorted by name, the
    lower-cased names ascend and trays with equal lower-cased names keep the
    order of the table. *)
Theorem list_trays_sorted_and_stable (lower : string -> string) (sort : SortKey) (db : DB) :
  exists listing,
    with_Session (GET.list_trays lower sort None 0) db
    = (Return (map (fun t => tray_out t db) listing), db)
    /\ Permutation listing (trays db)
    /\ match sort with
       | sort_priority =>
           StronglySorted (fun a b => prio_rank (Tray.color a) <= prio_rank (Tray.color b))
                          listing
           /\ forall rank,
                filter (fun t => prio_rank (Tray.color t) =? rank) listing
                = filter (fun t => prio_rank (Tray.color t) =? rank) (trays db)
       | sort_name =>
           Sorted (fun a b => String.leb (lower (Tray.name a)) (lower (Tray.name b)) = true)
                  listing
           /\ forall name,
                filter (fun t => String.eqb (lower (Tray.name t)) name) listing
                = filter (fun t => String.eqb (lower (Tray.name t)) name) (trays db)
       end.
Proof.
  exists (stable_sort (GET.key_le lower sort) (trays db)).
  split; [now rewrite list_trays_run|]. split; [apply stable_sort_perm|].
  pose proof (@stable_sort_sorted _ (GET.key_le lower sort) (trays db)
                (key_le_total lower sort)) as Hs.
  destruct sort.
  - split; [now apply (prio_rank_sorted lower)|].
    intros rank. apply filter_stable_sort. intros x y Hx Hy. cbn.
    apply Z.eqb_eq in Hx, Hy. apply Z.leb_le. lia.
  - split; [exact Hs|].
    intros name. apply filter_stable_sort. intros x y Hx Hy. cbn.
    apply String.eqb_eq in Hx, Hy. rewrite Hx, Hy.
    now destruct (String.leb_total name name).
Qed.

(** X18.  The pages of [GET /trays] tile the listing: a page of [n] trays
    at an offset followed by the page of [m] trays at the offset plus [n]
    is the page of [n + m] trays at the offset; a page holds at most as many
    trays as its limit, and no page changes the store. *)
Theorem list_trays_pages_tile (lower : string -> string) (sort : SortKey)
    (n m offset : Z) (db : DB) :
  1 <= n -> 1 <= m -> n + m <= 1000 -> 0 <= offset ->
  exists page1 page2,
    with_Session (GET.list_trays lower sort (Some n) offset) db = (Return page1, db)
    /\ with_Session (GET.list_trays lower sort (Some m) (offset + n)) db
       = (Return page2, db)
    /\ with_Session (GET.list_trays lower sort (Some (n + m)) offset) db
       = (Return (page1 ++ page2), db)
    /\ (List.length page1 <= Z.to_nat n)%nat.
Proof.
  intros Hn Hm Hnm Ho.
  assert (Hv : forall k o, 1 <= k <= 1000 -> 0 <= o -> valid_list_trays (Some k) o = true).
  { intros k o Hk Ho'. unfold valid_list_trays.
    apply andb_true_intro. split; [apply andb_true_intro; split|]; apply Z.leb_le; lia. }
  assert (Hp : forall k o (l : list Tray.t), 1 <= k ->
            paginate (Some k) o l = firstn (Z.to_nat k) (skipn (Z.to_nat o) l)).
  { intros k o l Hk. unfold paginate.
    destruct (Z.eqb_spec k 0); [lia|reflexivity]. }
  eexists. eexists.
  rewrite (@list_trays_run lower sort (Some n) offset db) by (apply Hv; lia).
  rewrite (@list_trays_run lower sort (Some m) (offset + n) db) by (apply Hv; lia).
  rewrite (@list_trays_run lower sort (Some (n + m)) offset db) by (apply Hv; lia).
  rewrite (Hp n), (Hp m), (Hp (n + m)) by lia.
  split; [reflexivity|]. split; [reflexivity|]. split.
  - rewrite <- map_app. do 2 f_equal.
    rewrite (Z2Nat.inj_add n m), (Z2Nat.inj_add offset n) by lia.
    rewrite firstn_plus, skipn_skipn, (Nat.add_comm (Z.to_nat n)). reflexivity.
  - rewrite length_map, length_firstn. lia.
Qed.

Lemma list_trays_pages_tile_witness :
  exists page1 page2,
    with_Session (GET.list_trays (fun s => s) sort_priority (Some 1) 0) checked_db
    = (Return page1, checked_db)
    /\ with_Session (GET.list_trays (fun s => s) sort_priority (Some 1) (0 + 1)) checked_db
       = (Return page2, checked_db)
    /\ with_Session (GET.list_trays (fun s => s) sort_priority (Some (1 + 1)) 0) checked_db
       = (Return (page1 ++ page2), checked_db)
    /\ (List.length page1 <= Z.to_nat 1)%nat.
Proof.
  apply (@list_trays_pages_tile (fun s => s) sort_priority 1 1 0 checked_db); lia.
Defined.

(* ================================================================= *)
(** ** Priorities between restocks *)

Lemma find_app_some {A : Type} (p : A -> bool) (l l' : list A) (x : A) :
  find p l = Some x -> find p (l ++ l') = Some x.
Proof.
  induction l as [|a l IH]; cbn; [discriminate|]. destruct (p a); auto.
Qed.

Lemma failed_request_store (now : Z) (req : Request) (db : DB) (e : HTTPException) :
  fst (handle now req db) = Raise e ->
  snd (handle now req db) = db /\ error_of db req = Some e.
Proof.
  intros H. pose proof (handle_transition now req db) as Ht.
  destruct (error_of db req) as [e'|] eqn:He.
  - rewrite Ht in H |- *. cbn in H |- *. now injection H as <-.
  - destruct Ht as [out [db' [E _]]]. rewrite E in H. discriminate.
Qed.

Lemma merge_numeric_ge (e : Z) (ep : bool) (nn : option Z) (np : option bool) :
  exists o, fst (apply_priority_non_downgrade (Some e) ep nn np) = Some o /\ e <= o.
Proof.
  unfold apply_priority_non_downgrade; cbn.
  destruct nn as [n|]; [|exists e; split; [reflexivity|lia]].
  destruct (Z.gtb_spec n e); eexists; (split; [reflexivity|lia]).
Qed.

Lemma inventory_check_tray_update_numeric (now : Z) (p : InventoryCheckRequest.t)
    (tray : Tray.t) (n : Z) :
  Tray.priority_numeric tray = Some n ->
  exists n', Tray.priority_numeric (inventory_check_tray_update now p tray) = Some n'
             /\ n <= n'.
Proof.
  intros Hn. unfold inventory_check_tray_update.
  cbn [Tray.priority_numeric Tray.priority_partial Tray.set_status Tray.set_last_seen_gps
       Tray.set_last_seen_at].
  rewrite Hn.
  match goal with
  | |- context [apply_priority_non_downgrade (Some n) ?ep ?nn ?np] =>
      destruct (merge_numeric_ge n ep nn np) as [o [Ho Hle]];
      destruct (apply_priority_non_downgrade (Some n) ep nn np) as [on op]
  end.
  cbn in Ho. subst on. exists o. split; [|assumption].
  destruct (InventoryCheckRequest.location_type p); reflexivity.
Qed.

(** X19.  Only a restock lowers or clears a numeric priority: in a reachable
    store, after a seed request, a drop-off or an inventory check, whether
    it fails or returns, a tray that had a numeric priority still has one
    and it is not lower than before. *)
Theorem priority_only_lowered_by_restock (now : Z) (req : Request) (db : DB)
    (tray : Tray.t) (n : Z) :
  reachable db -> is_restock req = false ->
  In tray (trays db) -> Tray.priority_numeric tray = Some n ->
  exists tray' n',
    get_tray (snd (handle now req db)) (Tray.id tray) = Some tray'
    /\ Tray.priority_numeric tray' = Some n' /\ n <= n'.
Proof.
  intros Hr Hreq Hin Hn.
  pose proof (reachable_tray_keys Hr) as [Hid _].
  assert (Hfind : get_tray db (Tray.id tray) = Some tray).
  { apply (find_nodup Tray.id Z.eqb); auto. apply Z.eqb_eq. }
  assert (Hsame : forall d, trays d = trays db ->
            exists tray' n', get_tray d (Tray.id tray) = Some tray'
                             /\ Tray.priority_numeric tray' = Some n' /\ n <= n').
  { intros d E. exists tray, n. unfold get_tray in *. rewrite E.
    split; [assumption|]. split; [assumption|lia]. }
  destruct (handle now req db) as [[out|e] db'] eqn:H; cbn [snd].
  2:{ apply Hsame. f_equal.
      destruct (@failed_request_store now req db e) as [E _]; [now rewrite H|].
      now rewrite H in E. }
  destruct (@handle_returned now req db db' out H) as [_ Hc].
  destruct req as [p|p|p|p|p|p]; try discriminate.
  - destruct Hc as [-> _]. exists tray, n.
    split; [|split; [assumption|lia]].
    unfold get_tray, create_tray_db, insert_tray. destruct db as [ts its ks rs es].
    cbn [trays set_trays] in *. unfold get_tray in Hfind. cbn [trays] in Hfind.
    now apply find_app_some.
  - destruct Hc as [t [_ [-> _]]]. apply Hsame.
    unfold create_tray_item_db. now destruct db.
  - destruct Hc as [t [Hg [-> _]]].
    destruct (dropoff_db_tables now p t db) as [Et _].
    destruct (Z.eqb_spec (Tray.id tray) (Tray.id t)) as [E|E].
    + assert (t = tray).
      { apply find_some in Hg. destruct Hg as [Ht _].
        exact (@nodup_map_inj _ _ Tray.id (trays db) t tray Hid Ht Hin (eq_sym E)). }
      subst t. exists (dropoff_tray_update now p tray), n.
      split; [|split; [|lia]].
      * unfold get_tray. rewrite Et. apply get_tray_save; [exact Hfind|].
        now destruct (tray_update_id_name (tu_dropoff tray now p)).
      * destruct (dropoff_keeps_priority now p tray) as [-> _]. exact Hn.
    + exists tray, n. split; [|split; [assumption|lia]].
      unfold get_tray. rewrite Et.
      rewrite find_update_where_key.
      * unfold get_tray in Hfind. rewrite Hfind. cbn.
        destruct (Z.eqb_spec (Tray.id tray) (Tray.id t)); [contradiction|reflexivity].
      * intros x Hx. apply Z.eqb_eq in Hx.
        destruct (tray_update_id_name (tu_dropoff t now p)) as [-> _].
        now rewrite Hx.
  - destruct Hc as [t [Hg [-> _]]].
    destruct (Z.eqb_spec (Tray.id tray) (Tray.id t)) as [E|E].
    + assert (t = tray).
      { apply find_some in Hg. destruct Hg as [Ht _].
        exact (@nodup_map_inj _ _ Tray.id (trays db) t tray Hid Ht Hin (eq_sym E)). }
      subst t.
      destruct (inventory_check_tray_update_numeric now p tray Hn) as [n' [En Hle]].
      exists (inventory_check_tray_update now p tray), n'.
      split; [|split; assumption].
      unfold get_tray, inventory_check_db. cbn [trays].
      apply get_tray_save; [exact Hfind|apply inventory_check_tray_update_id].
    + exists tray, n. split; [|split; [assumption|lia]].
      unfold get_tray, inventory_check_db. cbn [trays].
      rewrite find_update_where_key.
      * unfold get_tray in Hfind. rewrite Hfind. cbn.
        destruct (Z.eqb_spec (Tray.id tray) (Tray.id t)); [contradiction|reflexivity].
      * intros x Hx. apply Z.eqb_eq in Hx.
        rewrite inventory_check_tray_update_id. now rewrite Hx.
Qed.

Lemma priority_only_lowered_by_restock_witness :
  let db := run [(4, POST_inventory_checks numeric_hint_check)] checked_db in
  let tray := Tray.mk 1 "Spine set" needs_restock (Some 2) false "orange"
                      (Some 0%Q) (Some 0%Q) (Some 4) None None None in
  exists tray' n',
    get_tray (snd (handle 5 (POST_inventory_checks scenario_check) db)) (Tray.id tray)
    = Some tray'
    /\ Tray.priority_numeric tray' = Some n' /\ 2 <= n'.
Proof.
  cbn zeta.
  apply (@priority_only_lowered_by_restock 5 (POST_inventory_checks scenario_check)
           (run [(4, POST_inventory_checks numeric_hint_check)] checked_db)
           (Tray.mk 1 "Spine set" needs_restock (Some 2) false "orange"
                    (Some 0%Q) (Some 0%Q) (Some 4) None None None) 2).
  - apply reachable_run. apply reachable_checked_db.
  - reflexivity.
  - vm_compute. left. reflexivity.
  - reflexivity.
Defined.

(* ================================================================= *)
(** ** The user endpoints on the program's own database *)


(* ================================================================= *)
(** ** Notes and their pins *)

Lemma nodup_map_filter {A B : Type} (f : A -> B) (q : A -> bool) (l : list A) :
  NoDup (map f l) -> NoDup (map f (filter q l)).
Proof.
  induction l as [|a l IH]; cbn; [constructor|]. intros H.
  inversion H as [|? ? Hn Hnd]; subst.
  destruct (q a); cbn; [|now apply IH]. constructor; [|now apply IH].
  intros Hc. apply Hn. apply in_map_iff in Hc. destruct Hc as [x [Ex Hx]].
  apply filter_In in Hx. rewrite <- Ex. apply in_map. tauto.
Qed.

Lemma filter_all {A : Type} (q : A -> bool) (l : list A) :
  (forall x, In x l -> q x = true) -> filter q l = l.
Proof.
  induction l as [|a l IH]; cbn; [reflexivity|]. intros H.
  rewrite (H a) by now left. f_equal. apply IH. intros x Hx. apply H. now right.
Qed.

Lemma add_pin_spec (now note_id : Z) (ty : string) (entity_id : Z) (nb : Notebook) :
  notes (add_pin now note_id ty entity_id nb) = notes nb
  /\ (NoDup (map NotePin.id (note_pins nb)) ->
      NoDup (map NotePin.id (note_pins (add_pin now note_id ty entity_id nb))))
  /\ forall p, In p (note_pins (add_pin now note_id ty entity_id nb)) ->
               In p (note_pins nb) \/ NotePin.note_id p = note_id.
Proof.
  unfold add_pin. cbn. split; [reflexivity|]. split.
  - intros H. rewrite map_app. apply nodup_snoc; [assumption|]. cbn.
    apply fresh_id_not_in.
  - intros p Hp. apply in_app_or in Hp. destruct Hp as [Hp|[<-|[]]]; auto.
Qed.

Lemma add_pins_spec (now note_id : Z) (ty : string) (ids : option (list Z))
    (nb : Notebook) :
  notes (add_pins now note_id ty ids nb) = notes nb
  /\ (NoDup (map NotePin.id (note_pins nb)) ->
      NoDup (map NotePin.id (note_pins (add_pins now note_id ty ids nb))))
  /\ forall p, In p (note_pins (add_pins now note_id ty ids nb)) ->
               In p (note_pins nb) \/ NotePin.note_id p = note_id.
Proof.
  unfold add_pins. destruct ids as [l|]; [|auto].
  revert nb. induction l as [|x l IH]; intros nb; cbn [fold_left]; [auto|].
  destruct (IH (add_pin now note_id ty x nb)) as [H1 [H2 H3]].
  destruct (add_pin_spec now note_id ty x nb) as [G1 [G2 G3]].
  split; [congruence|]. split; [auto|].
  intros p Hp. destruct (H3 p Hp) as [H|H]; auto.
Qed.

Lemma delete_pins_spec (l : list NotePin.t) (nb : Notebook) :
  fold_left (fun nb pin => delete_pin_row pin nb) l nb
  = {| notes := notes nb;
       note_pins := filter (fun p => negb (existsb (fun q => NotePin.id p =? NotePin.id q) l))
                           (note_pins nb) |}.
Proof.
  revert nb. induction l as [|q l IH]; intros nb; cbn [fold_left existsb].
  - destruct nb as [ns ps]. cbn. f_equal. induction ps as [|p ps IHp]; cbn; congruence.
  - rewrite IH. unfold delete_pin_row. cbn [notes note_pins]. f_equal.
    induction (note_pins nb) as [|p ps IHp]; cbn; [reflexivity|].
    destruct (NotePin.id p =? NotePin.id q); cbn; [assumption|].
    destruct (existsb _ l); cbn; congruence.
Qed.

Lemma get_note_or_404_some (k : Z) (nb : Notebook) (note : Note.t) :
  get_note_or_404 k nb = inr note ->
  In note (notes nb) /\ Note.id note = k /\ Note.user_id note = USER_ID
  /\ find (fun n => Note.id n =? k) (notes nb) = Some note.
Proof.
  unfold get_note_or_404. destruct (find _ (notes nb)) as [n|] eqn:Hf; [|discriminate].
  destruct (String.eqb (Note.user_id n) USER_ID) eqn:Eu; [|discriminate].
  intros [= ->]. apply find_some in Hf as Hs. destruct Hs as [Hin Hk].
  repeat split; auto; [now apply Z.eqb_eq|now apply String.eqb_eq].
Qed.

Lemma notebook_invariant_empty : notebook_invariant empty_notebook.
Proof. split; cbn; try constructor; intros x []. Qed.

Lemma notebook_invariant_add_pins (now k : Z) (ty : string) (ids : option (list Z))
    (nb : Notebook) :
  In k (map Note.id (notes nb)) ->
  notebook_invariant nb -> notebook_invariant (add_pins now k ty ids nb).
Proof.
  intros Hk [H1 H2 H3 H4].
  destruct (add_pins_spec now k ty ids nb) as [E [G2 G3]].
  split; rewrite ?E; auto.
  intros p Hp. destruct (G3 p Hp) as [H| ->]; auto.
Qed.

Lemma note_step_invariant
    (tray_name case_name doctor_name standalone_name : Z -> option string)
    (now : Z) (req : NoteRequest) (nb : Notebook) :
  notebook_invariant nb ->
  notebook_invariant (Notes.note_step tray_name case_name doctor_name standalone_name now req nb).
Proof.
  intros Hinv. destruct req as [p|k p|k|k p|k pin_id]; cbn [Notes.note_step].
  - unfold Notes.create_note. destruct (valid_CreateNoteIn p); cbn [negb]; [|assumption].
    set (note := Note.mk (fresh_id (map Note.id (notes nb))) USER_ID (cn_title p)
                         (cn_content p) now now).
    assert (H0 : notebook_invariant {| notes := notes nb ++ [note];
                                       note_pins := note_pins nb |}).
    { destruct Hinv as [H1 H2 H3 H4]. split; cbn.
      - rewrite map_app. apply nodup_snoc; [assumption|]. apply fresh_id_not_in.
      - assumption.
      - intros n Hn. apply in_app_or in Hn. destruct Hn as [Hn|[<-|[]]]; auto.
      - intros q Hq. rewrite map_app. apply in_or_app. left. auto. }
    assert (Hk : forall nb', notes nb' = notes nb ++ [note] ->
                             In (Note.id note) (map Note.id (notes nb'))).
    { intros nb' ->. rewrite map_app. apply in_or_app. right. now left. }
    repeat (apply notebook_invariant_add_pins;
            [apply Hk; repeat (rewrite (proj1 (add_pins_spec _ _ _ _ _))); reflexivity|]).
    exact H0.
  - unfold Notes.update_note. destruct (valid_UpdateNoteIn p); cbn [negb]; [|assumption].
    destruct (get_note_or_404 k nb) as [e|note] eqn:Hg; [assumption|].
    destruct (get_note_or_404_some _ _ Hg) as [Hin [Ek [Eu _]]].
    destruct Hinv as [H1 H2 H3 H4]. cbn [Note.id].
    assert (E : map Note.id
                  (update_where (fun n => Note.id n =? Note.id note)
                     (fun _ => Note.mk (Note.id note) (Note.user_id note)
                                 match un_title p with Some t => t | None => Note.title note end
                                 match un_content p with
                                 | Some c => c
                                 | None => Note.content note
                                 end (Note.created_at note) now) (notes nb))
                = map Note.id (notes nb))
      by (apply (map_replace_key Note.id); reflexivity).
    split; cbn [notes note_pins]; rewrite ?E; auto.
    intros n Hn. apply in_update_where in Hn. destruct Hn as [x [Hx ->]].
    destruct (Note.id x =? Note.id note); [exact Eu|now apply H3].
  - unfold Notes.delete_note.
    destruct (get_note_or_404 k nb) as [e|note] eqn:Hg; [assumption|].
    destruct (get_note_or_404_some _ _ Hg) as [Hin [Ek [Eu _]]].
    destruct Hinv as [H1 H2 H3 H4]. rewrite delete_pins_spec.
    unfold delete_note_row. cbn [notes note_pins]. split; cbn [notes note_pins].
    + now apply nodup_map_filter.
    + now apply nodup_map_filter.
    + intros n Hn. apply filter_In in Hn. now apply H3.
    + intros q Hq. apply filter_In in Hq. destruct Hq as [Hq Hkeep].
      specialize (H4 q Hq). apply in_map_iff in H4. destruct H4 as [n [En Hn]].
      rewrite <- En. apply in_map. apply filter_In. split; [assumption|].
      apply negb_true_iff. apply Z.eqb_neq. intros Ec.
      apply negb_true_iff in Hkeep.
      assert (Hex : existsb (fun q0 => NotePin.id q =? NotePin.id q0) (pins_of k nb) = true).
      { apply existsb_exists. exists q. split; [|apply Z.eqb_refl].
        apply filter_In. split; [assumption|]. apply Z.eqb_eq. congruence. }
      congruence.
  - unfold Notes.pin_note. destruct (valid_PinNoteRequest p); cbn [negb]; [|assumption].
    destruct (get_note_or_404 k nb) as [e|note] eqn:Hg; [assumption|].
    destruct (find _ (note_pins nb)); [assumption|].
    destruct (get_note_or_404_some _ _ Hg) as [Hin [Ek [Eu _]]].
    apply (notebook_invariant_add_pins now k (pr_entity_type p) (Some [pr_entity_id p]));
      [|assumption].
    rewrite <- Ek. now apply in_map.
  - unfold Notes.unpin_note.
    destruct (get_note_or_404 k nb) as [e|note] eqn:Hg; [assumption|].
    destruct (find _ (note_pins nb)) as [pin|]; [|assumption].
    destruct (NotePin.note_id pin =? k); [|assumption].
    destruct Hinv as [H1 H2 H3 H4]. unfold delete_pin_row.
    split; cbn [notes note_pins]; auto.
    + now apply nodup_map_filter.
    + intros q Hq. apply filter_In in Hq. now apply H4.
Qed.

Lemma reachable_notebook_invariant
    (tray_name case_name doctor_name standalone_name : Z -> option string) (nb : Notebook) :
  Notes.reachable_notebook tray_name case_name doctor_name standalone_name nb -> notebook_invariant nb.
Proof.
  intros H. induction H as [|now req nb H IH].
  - apply notebook_invariant_empty.
  - now apply note_step_invariant.
Qed.

(** X22.  Pins never dangle: in every notebook the note endpoints can
    reach, each pin hangs under a note that [GET /notes/{id}] finds, because
    a note is deleted together with its pins and a pin is only added to a
    note that exists. *)
Theorem pins_never_dangle
    (tray_name case_name doctor_name standalone_name : Z -> option string)
    (nb : Notebook) (p : NotePin.t) :
  Notes.reachable_notebook tray_name case_name doctor_name standalone_name nb ->
  In p (note_pins nb) ->
  exists note, get_note_or_404 (NotePin.note_id p) nb = inr note
               /\ Note.id note = NotePin.note_id p.
Proof.
  intros Hr Hp. destruct (reachable_notebook_invariant Hr) as [H1 H2 H3 H4].
  specialize (H4 p Hp). apply in_map_iff in H4. destruct H4 as [n [En Hn]].
  exists n. split; [|assumption]. unfold get_note_or_404.
  rewrite <- En. rewrite (find_nodup Note.id Z.eqb); auto; [|apply Z.eqb_eq].
  rewrite (H3 n Hn). now rewrite String.eqb_refl.
Qed.

Lemma pins_never_dangle_witness :
  let nb := Notes.note_step no_name no_name no_name no_name 1 (POST_notes {| cn_title := "Cage inspection"; cn_content := "before Friday";
                                       pin_to_trays := Some [7]; pin_to_standalone := None;
                                       pin_to_cases := None; pin_to_doctors := None |})
                      empty_notebook in
  let p := NotePin.mk 1 1 "tray" 7 1 in
  note_pins nb = [p]
  /\ exists note, get_note_or_404 (NotePin.note_id p) nb = inr note
                  /\ Note.id note = NotePin.note_id p.
Proof.
  cbn zeta. split; [vm_compute; reflexivity|].
  apply (@pins_never_dangle no_name no_name no_name no_name
           (Notes.note_step no_name no_name no_name no_name 1 (POST_notes {| cn_title := "Cage inspection";
                                       cn_content := "before Friday";
                                       pin_to_trays := Some [7]; pin_to_standalone := None;
                                       pin_to_cases := None; pin_to_doctors := None |})
                      empty_notebook)
           (NotePin.mk 1 1 "tray" 7 1)).
  - apply Notes.notebook_step. apply Notes.notebook_empty.
  - vm_compute. left. reflexivity.
Defined.

Lemma find_filter_other {A : Type} (key : A -> Z) (k j : Z) (l : list A) :
  j <> k ->
  find (fun x => key x =? j) (filter (fun x => negb (key x =? k)) l)
  = find (fun x => key x =? j) l.
Proof.
  intros Hjk. induction l as [|a l IH]; cbn; [reflexivity|].
  destruct (Z.eqb_spec (key a) k) as [E|E]; cbn.
  - destruct (Z.eqb_spec (key a) j); [congruence|assumption].
  - now rewrite IH.
Qed.

Lemma filter_filter_other {A : Type} (key : A -> Z) (k j : Z) (l : list A) :
  j <> k ->
  filter (fun x => key x =? j) (filter (fun x => negb (key x =? k)) l)
  = filter (fun x => key x =? j) l.
Proof.
  intros Hjk. induction l as [|a l IH]; cbn; [reflexivity|].
  destruct (Z.eqb_spec (key a) k) as [E|E]; cbn.
  - destruct (Z.eqb_spec (key a) j); [congruence|assumption].
  - now rewrite IH.
Qed.

(** X23.  Deleting a note deletes the note and its pins and nothing else:
    in a reachable notebook, after [DELETE /notes/{k}] has returned, note [k]
    is not found, no pin of note [k] is left, and every other note is
    answered by [GET /notes/{j}] exactly as before, pins included. *)
Theorem delete_note_cascades
    (tray_name case_name doctor_name standalone_name : Z -> option string)
    (k : Z) (nb nb' : Notebook) :
  Notes.reachable_notebook tray_name case_name doctor_name standalone_name nb ->
  Notes.delete_note k nb = inr nb' ->
  Notes.get_note tray_name case_name doctor_name standalone_name k nb'
  = inl note_not_found
  /\ pins_of k nb' = []
  /\ forall j, j <> k ->
       Notes.get_note tray_name case_name doctor_name standalone_name j nb'
       = Notes.get_note tray_name case_name doctor_name standalone_name j nb.
Proof.
  intros Hr Hd. destruct (reachable_notebook_invariant Hr) as [H1 H2 H3 H4].
  unfold Notes.delete_note in Hd.
  destruct (get_note_or_404 k nb) as [e|note] eqn:Hg; [discriminate|].
  destruct (get_note_or_404_some _ _ Hg) as [Hin [Ek [Eu _]]].
  rewrite delete_pins_spec in Hd. injection Hd as <-.
  unfold delete_note_row. cbn [notes note_pins]. rewrite Ek.
  assert (Hkeep : forall q, In q (note_pins nb) ->
            negb (existsb (fun q0 => NotePin.id q =? NotePin.id q0) (pins_of k nb))
            = negb (NotePin.note_id q =? k)).
  { intros q Hq. f_equal. destruct (Z.eqb_spec (NotePin.note_id q) k) as [E|E].
    - apply existsb_exists. exists q. split; [|apply Z.eqb_refl].
      apply filter_In. split; [assumption|now apply Z.eqb_eq].
    - destruct (existsb _ _) eqn:Ex; [|reflexivity]. exfalso.
      apply existsb_exists in Ex. destruct Ex as [q0 [Hq0 Eid]].
      apply filter_In in Hq0. destruct Hq0 as [Hq0 Ek0].
      apply Z.eqb_eq in Eid, Ek0.
      rewrite (@nodup_key_inj _ NotePin.id (note_pins nb) q q0 H2 Hq Hq0 Eid) in E.
      contradiction. }
  assert (Epins : filter (fun p => negb (existsb (fun q => NotePin.id p =? NotePin.id q)
                                                 (pins_of k nb))) (note_pins nb)
                  = filter (fun p => negb (NotePin.note_id p =? k)) (note_pins nb)).
  { apply filter_ext_in. exact Hkeep. }
  rewrite Epins. split; [|split].
  - unfold Notes.get_note, get_note_or_404. cbn [notes].
    rewrite find_none_all; [reflexivity|].
    intros n Hn. apply filter_In in Hn. destruct Hn as [_ Hn].
    now apply negb_true_iff in Hn.
  - unfold pins_of. cbn [note_pins].
    apply filter_nil_existsb. apply not_true_iff_false. intros Hex.
    apply existsb_exists in Hex. destruct Hex as [q [Hq Eq]].
    apply filter_In in Hq. destruct Hq as [_ Hq]. rewrite Eq in Hq. discriminate.
  - intros j Hj. unfold Notes.get_note, get_note_or_404. cbn [notes].
    rewrite (find_filter_other Note.id) by assumption.
    destruct (find _ (notes nb)) as [n|] eqn:Hf; [|reflexivity].
    destruct (String.eqb (Note.user_id n) USER_ID); [|reflexivity].
    f_equal. unfold Notes.note_to_out, pins_of. cbn [note_pins]. f_equal. f_equal.
    apply find_some in Hf. destruct Hf as [_ Ej]. apply Z.eqb_eq in Ej.
    apply (filter_filter_other NotePin.note_id). congruence.
Qed.

Lemma delete_note_cascades_witness :
  let nb := Notes.note_step no_name no_name no_name no_name 1 (POST_notes {| cn_title := "Cage inspection"; cn_content := "before Friday";
                                       pin_to_trays := Some [7]; pin_to_standalone := None;
                                       pin_to_cases := None; pin_to_doctors := None |})
                      empty_notebook in
  Notes.delete_note 1 nb = inr empty_notebook
  /\ Notes.get_note no_name no_name no_name no_name 1 empty_notebook = inl note_not_found.
Proof.
  cbn zeta. split; [vm_compute; reflexivity|].
  apply (@delete_note_cascades no_name no_name no_name no_name 1
           (Notes.note_step no_name no_name no_name no_name 1 (POST_notes {| cn_title := "Cage inspection";
                                       cn_content := "before Friday";
                                       pin_to_trays := Some [7]; pin_to_standalone := None;
                                       pin_to_cases := None; pin_to_doctors := None |})
                      empty_notebook)
           empty_notebook).
  - apply Notes.notebook_step. apply Notes.notebook_empty.
  - vm_compute. reflexivity.
Defined.

(** X24.  Pinning and unpinning undo each other: when [POST
    /notes/{k}/pin] has returned, the answer lists the new pin, pinning the
    note to the same entity again is refused with 400, and unpinning the new
    pin gives back the notebook as it was before the pin, whatever that
    notebook was. *)
Theorem pin_then_unpin
    (tray_name case_name doctor_name standalone_name : Z -> option string)
    (now k : Z) (p : PinNoteRequest) (nb nb' : Notebook) (out : NoteOut) :
  Notes.pin_note tray_name case_name doctor_name standalone_name now k p nb
  = inr (out, nb') ->
  let pin_id := fresh_id (map NotePin.id (note_pins nb)) in
  In pin_id (map po_id (no_pins out))
  /\ Notes.pin_note tray_name case_name doctor_name standalone_name now k p nb'
     = inl note_already_pinned
  /\ note_error_code note_already_pinned = 400
  /\ Notes.unpin_note k pin_id nb' = inr nb.
Proof.
  unfold Notes.pin_note. destruct (valid_PinNoteRequest p) eqn:Hv; cbn [negb]; [|discriminate].
  destruct (get_note_or_404 k nb) as [e|note] eqn:Hg; [discriminate|].
  destruct (find _ (note_pins nb)) eqn:Hf; [discriminate|].
  intros [= <- <-]. cbn zeta.
  destruct (get_note_or_404_some _ _ Hg) as [Hin [Ek [Eu Hfn]]].
  assert (Hg' : get_note_or_404 k (add_pin now k (pr_entity_type p) (pr_entity_id p) nb)
                = inr note) by exact Hg.
  split; [|split; [|split; [reflexivity|]]].
  - unfold Notes.note_to_out, pins_of, add_pin. cbn [no_pins note_pins].
    rewrite map_map. cbn [po_id]. rewrite filter_app, map_app. apply in_or_app. right.
    cbn -[fresh_id]. rewrite Ek, Z.eqb_refl. now left.
  - rewrite Hg'. unfold add_pin. cbn [note_pins]. rewrite find_app_none by assumption.
    cbn -[fresh_id]. now rewrite Z.eqb_refl, String.eqb_refl, Z.eqb_refl.
  - unfold Notes.unpin_note. rewrite Hg'. unfold add_pin. cbn [note_pins].
    rewrite find_app_none.
    + cbn -[fresh_id]. rewrite !Z.eqb_refl. unfold delete_pin_row.
      cbn [notes note_pins NotePin.id].
      rewrite filter_app. cbn -[fresh_id]. rewrite Z.eqb_refl. cbn -[fresh_id].
      rewrite app_nil_r.
      rewrite filter_all; [now destruct nb|].
      intros x Hx. apply negb_true_iff. apply Z.eqb_neq. intros E.
      apply (@fresh_id_not_in (map NotePin.id (note_pins nb))). rewrite <- E.
      now apply in_map.
    + apply find_none_all. intros x Hx. apply Z.eqb_neq. intros E.
      apply (@fresh_id_not_in (map NotePin.id (note_pins nb))). rewrite <- E.
      now apply in_map.
Qed.

Lemma pin_then_unpin_witness :
  let nb := Notes.note_step no_name no_name no_name no_name 1 (POST_notes {| cn_title := "Cage inspection"; cn_content := "before Friday";
                                       pin_to_trays := None; pin_to_standalone := None;
                                       pin_to_cases := None; pin_to_doctors := None |})
                      empty_notebook in
  let p := {| pr_entity_type := "doctor"; pr_entity_id := 3 |} in
  match Notes.pin_note no_name no_name no_name no_name 2 1 p nb with
  | inr (out, nb') => Notes.unpin_note 1 1 nb' = inr nb
  | inl _ => False
  end.
Proof.
  cbn zeta.
  destruct (Notes.pin_note no_name no_name no_name no_name 2 1
              {| pr_entity_type := "doctor"; pr_entity_id := 3 |}
              (Notes.note_step no_name no_name no_name no_name 1 (POST_notes {| cn_title := "Cage inspection";
                                          cn_content := "before Friday";
                                          pin_to_trays := None; pin_to_standalone := None;
                                          pin_to_cases := None; pin_to_doctors := None |})
                         empty_notebook)) as [e|[out nb']] eqn:H.
  - vm_compute in H. discriminate.
  - apply (@pin_then_unpin no_name no_name no_name no_name 2 1
             {| pr_entity_type := "doctor"; pr_entity_id := 3 |} _ nb' out H).
Defined.

(* ================================================================= *)
(** ** Deleting a doctor *)

(** X25.  [DELETE /doctors/{id}] as written deletes a doctor only when a
    note is pinned to the doctor.  For a doctor of the table: with no pin the
    request is answered with status 200 and a [null] body and the doctor stays
    in the table; with a pin the doctor is deleted together with the first of
    the doctor's pins, and when pin keys are distinct every further pin of the
    doctor stays in the pin table, pointing at a doctor that is gone. *)
Theorem delete_doctor_needs_a_pin (k : Z) (s : Practice) (doctor : Doctor.t) :
  get_doctor k s = inr doctor ->
  match filter (pinned_to_doctor k) (pins s) with
  | [] => delete_doctor k s = inr (answer_null, s)
  | pin :: others =>
      exists s',
        delete_doctor k s = inr (answer_ok, s')
        /\ get_doctor k s' = inl doctor_not_found
        /\ ~ In pin (pins s')
        /\ (NoDup (map NotePin.id (pins s)) ->
            forall p, In p others -> In p (pins s') /\ pinned_to_doctor k p = true)
  end.
Proof.
  unfold get_doctor. intros Hg. unfold delete_doctor. rewrite Hg.
  destruct (filter (pinned_to_doctor k) (pins s)) as [|pin others] eqn:Hf; [reflexivity|].
  eexists. split; [reflexivity|].
  assert (Ek : Doctor.id doctor = k).
  { unfold get_doctor_or_404 in Hg.
    destruct (find _ (doctors s)) as [d|] eqn:Hd; [|discriminate].
    destruct (String.eqb _ _); [|discriminate]. injection Hg as ->.
    apply find_some in Hd. now apply Z.eqb_eq. }
  split; [|split].
  - unfold get_doctor_or_404. cbn [doctors]. rewrite find_none_all; [reflexivity|].
    intros d Hd. apply filter_In in Hd. destruct Hd as [_ Hd].
    apply negb_true_iff in Hd. now rewrite <- Ek.
  - cbn [pins]. intros Hin. apply filter_In in Hin. destruct Hin as [_ Hin].
    now rewrite Z.eqb_refl in Hin.
  - intros Hnd p Hp. cbn [pins].
    assert (Hp' : In p (filter (pinned_to_doctor k) (pins s)))
      by (rewrite Hf; now right).
    apply filter_In in Hp'. destruct Hp' as [Hps Hq]. split; [|assumption].
    apply filter_In. split; [assumption|]. apply negb_true_iff. apply Z.eqb_neq.
    intros E.
    assert (Hpin : In pin (pins s)).
    { assert (H : In pin (filter (pinned_to_doctor k) (pins s))) by (rewrite Hf; now left).
      apply filter_In in H. tauto. }
    pose proof (@nodup_key_inj _ NotePin.id (pins s) p pin Hnd Hps Hpin E) as ->.
    assert (Hnd' : NoDup (filter (pinned_to_doctor k) (pins s))).
    { apply NoDup_filter. eapply NoDup_map_inv. exact Hnd. }
    rewrite Hf in Hnd'. inversion Hnd'. contradiction.
Qed.

Lemma delete_doctor_needs_a_pin_witness :
  let doctor := Doctor.mk 1 USER_ID "Dr. Lee" None None None None 1 1 in
  let s := {| doctors := [doctor]; pins := [] |} in
  delete_doctor 1 s = inr (answer_null, s) /\ get_doctor 1 s = inr doctor.
Proof.
  cbn zeta. split; [|reflexivity].
  apply (@delete_doctor_needs_a_pin 1
           {| doctors := [Doctor.mk 1 USER_ID "Dr. Lee" None None None None 1 1];
              pins := [] |}
           (Doctor.mk 1 USER_ID "Dr. Lee" None None None None 1 1)).
  reflexivity.
Defined.

Lemma get_doctor_or_404_some (k : Z) (s : Practice) (d : Doctor.t) :
  get_doctor_or_404 k s = inr d ->
  find (fun x => Doctor.id x =? k) (doctors s) = Some d
  /\ Doctor.id d = k /\ Doctor.user_id d = USER_ID.
Proof.
  unfold get_doctor_or_404. destruct (find _ (doctors s)) as [x|] eqn:Hf; [|discriminate].
  destruct (String.eqb (Doctor.user_id x) USER_ID) eqn:Eu; [|discriminate].
  intros [= ->]. apply find_some in Hf as Hs. destruct Hs as [_ Hk].
  repeat split; auto; [now apply Z.eqb_eq|now apply String.eqb_eq].
Qed.

(** X26.  Writing a doctor and reading it back: the doctor [POST /doctors]
    returns is the one [GET /doctors/{id}] then finds under its id, and
    every doctor that was found before is still found unchanged; the doctor
    [PUT /doctors/{id}] returns is the one found afterwards under the same
    id, with the owner and the creation time of the doctor it replaces, and
    neither request touches the pins. *)
Theorem doctor_write_then_read (now : Z) (p : CreateDoctorIn) (s s' : Practice)
    (d : Doctor.t) :
  (create_doctor now p s = inr (d, s') ->
   get_doctor (Doctor.id d) s' = inr d
   /\ pins s' = pins s
   /\ forall k d0, get_doctor k s = inr d0 -> get_doctor k s' = inr d0)
  /\ (forall k d0,
        get_doctor k s = inr d0 -> update_doctor now k p s = inr (d, s') ->
        get_doctor k s' = inr d
        /\ Doctor.id d = k /\ Doctor.user_id d = Doctor.user_id d0
        /\ Doctor.created_at d = Doctor.created_at d0 /\ Doctor.updated_at d = now
        /\ pins s' = pins s).
Proof.
  split.
  - unfold create_doctor. destruct (valid_CreateDoctorIn p); cbn [negb]; [|discriminate].
    intros [= <- <-]. unfold get_doctor, get_doctor_or_404. cbn [doctors pins Doctor.id].
    split; [|split; [reflexivity|]].
    + rewrite find_app_none.
      * cbn -[fresh_id]. now rewrite Z.eqb_refl.
      * apply find_none_all. intros x Hx. apply Z.eqb_neq. intros E.
        apply (@fresh_id_not_in (map Doctor.id (doctors s))). rewrite <- E.
        now apply in_map.
    + intros k d0 H.
      destruct (find (fun x => Doctor.id x =? k) (doctors s)) as [x|] eqn:Hf;
        [|discriminate].
      now rewrite (find_app_some _ _ _ Hf).
  - intros k d0 Hg. unfold update_doctor.
    destruct (valid_CreateDoctorIn p); cbn [negb]; [|discriminate].
    unfold get_doctor in Hg. rewrite Hg. intros [= <- <-].
    destruct (get_doctor_or_404_some _ _ Hg) as [Hf [Ek Eu]].
    cbn [Doctor.id Doctor.user_id Doctor.created_at Doctor.updated_at pins].
    repeat split; auto.
    unfold get_doctor, get_doctor_or_404. cbn [doctors].
    rewrite find_update_where_key.
    + rewrite Hf. cbn. rewrite Z.eqb_refl. cbn. now rewrite Eu.
    + intros x Hx. apply Z.eqb_eq in Hx. cbn. now rewrite Hx.
Qed.

Lemma doctor_write_then_read_witness :
  let p := {| cd_name := "Dr. Lee"; cd_specialty := None; cd_phone := None;
              cd_email := None; cd_hospital := None |} in
  let d := Doctor.mk 1 USER_ID "Dr. Lee" None None None None 1 1 in
  let s' := {| doctors := [d]; pins := [] |} in
  create_doctor 1 p {| doctors := []; pins := [] |} = inr (d, s')
  /\ get_doctor (Doctor.id d) s' = inr d.
Proof.
  cbn zeta. split; [reflexivity|].
  destruct (proj1 (@doctor_write_then_read 1
                  {| cd_name := "Dr. Lee"; cd_specialty := None; cd_phone := None;
                     cd_email := None; cd_hospital := None |}
                  {| doctors := []; pins := [] |}
                  {| doctors := [Doctor.mk 1 USER_ID "Dr. Lee" None None None None 1 1];
                     pins := [] |}
                  (Doctor.mk 1 USER_ID "Dr. Lee" None None None None 1 1)) eq_refl)
    as [H _].
  exact H.
Defined.

(* ================================================================= *)
(** ** Which rows a partial restock resolves *)

Lemma by_id_get_last (items l1 l2 : list RestockPartialItem.t) (sel : RestockPartialItem.t)
    (k : Z) :
  items = l1 ++ sel :: l2 -> RestockPartialItem.item_id sel = k ->
  (forall x, In x l2 -> RestockPartialItem.item_id x <> k) ->
  by_id_get items k = Some sel.
Proof.
  intros -> Ek Hl2. unfold by_id_get. rewrite rev_app_distr. cbn [rev].
  rewrite <- app_assoc. rewrite find_app_none.
  - cbn. now rewrite Ek, Z.eqb_refl.
  - apply find_none_all. intros x Hx. apply in_rev in Hx. apply Z.eqb_neq. now apply Hl2.
Qed.

Lemma by_id_get_none (items : list RestockPartialItem.t) (k : Z) :
  (forall x, In x items -> RestockPartialItem.item_id x <> k) ->
  by_id_get items k = None.
Proof.
  intros H. unfold by_id_get. apply find_none_all. intros x Hx.
  apply in_rev in Hx. apply Z.eqb_neq. now apply H.
Qed.

(** X27.  Which task rows a partial restock resolves, on a reachable store
    and for a request that returns.  A row that is already resolved, that
    hangs under another task than the open task of the tray, or whose item
    the request does not list, is left as it is.  An unresolved row under the
    open task of the tray whose item is listed is resolved at the time and by
    the user of the request, and its missing quantity goes down by the
    quantity of the last entry of the list that names the item, not below
    zero; an entry without a quantity leaves the missing quantity alone. *)
Theorem restock_partial_resolves_listed_rows (now : Z) (p : RestockPartialRequest.t)
    (db db' : DB) (out : Response) (r : RestockTaskItem.t) :
  reachable db ->
  handle now (POST_restocks_partial p) db = (Return out, db') ->
  In r (restock_task_items db) ->
  ((RestockTaskItem.restocked r = true
    \/ (forall t, first_open_task db (RestockPartialRequest.tray_id p) = Some t ->
                  RestockTaskItem.task_id r <> RestockTask.id t)
    \/ (forall x, In x (RestockPartialRequest.items p) ->
                  RestockPartialItem.item_id x <> RestockTaskItem.item_id r)) ->
   In r (restock_task_items db'))
  /\ (forall t l1 sel l2,
        RestockTaskItem.restocked r = false ->
        first_open_task db (RestockPartialRequest.tray_id p) = Some t ->
        RestockTaskItem.task_id r = RestockTask.id t ->
        RestockPartialRequest.items p = l1 ++ sel :: l2 ->
        RestockPartialItem.item_id sel = RestockTaskItem.item_id r ->
        (forall x, In x l2 -> RestockPartialItem.item_id x <> RestockTaskItem.item_id r) ->
        In (RestockTaskItem.mk
              (RestockTaskItem.id r) (RestockTaskItem.task_id r)
              (RestockTaskItem.item_id r)
              match RestockPartialItem.qty_restocked sel with
              | Some q => Some (Z.max 0 (or_0 (RestockTaskItem.qty_missing r) - q))
              | None => RestockTaskItem.qty_missing r
              end
              (RestockTaskItem.reason r) true (Some now)
              (Some (RestockPartialRequest.user_id p)))
           (restock_task_items db')).
Proof.
  intros Hr H Hin.
  destruct (@handle_returned now (POST_restocks_partial p) db db' out H)
    as [_ [tray [Hg [-> _]]]].
  pose proof (get_tray_id _ _ Hg) as Eid.
  pose proof (reachable_task_invariant Hr) as Hti.
  unfold restock_partial_db. cbn [restock_task_items]. rewrite Eid.
  set (task := fst (ensure_task now (RestockPartialRequest.tray_id p) db)).
  assert (Htask : forall t, first_open_task db (RestockPartialRequest.tray_id p) = Some t ->
                            task = t).
  { intros t Ht. unfold task, ensure_task. now rewrite Ht. }
  split.
  - intros Hcase. apply in_update_where. exists r. split; [assumption|].
    destruct (unresolved_of (RestockTask.id task) r) eqn:Eu; [|reflexivity].
    unfold unresolved_of in Eu. apply andb_prop in Eu. destruct Eu as [Et Eres].
    apply Z.eqb_eq in Et. apply negb_true_iff in Eres.
    destruct Hcase as [Hc|[Hc|Hc]].
    + congruence.
    + exfalso.
      destruct (first_open_task db (RestockPartialRequest.tray_id p)) as [t|] eqn:Ef.
      * apply (Hc t eq_refl). now rewrite <- (Htask t eq_refl).
      * pose proof (inv_rows Hti r Hin) as Hk. rewrite Et in Hk.
        unfold task, ensure_task in Hk. rewrite Ef in Hk. cbn [fst RestockTask.id] in Hk.
        now apply fresh_id_not_in in Hk.
    + unfold resolve_selected. now rewrite (@by_id_get_none _ _ Hc).
  - intros t l1 sel l2 Hres Hf Et Hitems Esel Hl2.
    apply in_update_where. exists r. split; [assumption|].
    assert (Eu : unresolved_of (RestockTask.id t) r = true)
      by (unfold unresolved_of; now rewrite Et, Z.eqb_refl, Hres).
    rewrite (Htask t Hf), Eu.
    unfold resolve_selected. rewrite (@by_id_get_last _ l1 l2 sel _ Hitems Esel Hl2).
    destruct (RestockPartialItem.qty_restocked sel); reflexivity.
Qed.

Lemma restock_partial_resolves_listed_rows_witness :
  let r := RestockTaskItem.mk 1 1 1 (Some 4) (Some "used in case"%string)
                              false None None in
  In (RestockTaskItem.mk 1 1 1 (Some 0) (Some "used in case"%string) true (Some 4)
                         (Some "rep001"%string))
     (restock_task_items (snd (handle 4 (POST_restocks_partial scenario_partial) checked_db))).
Proof.
  cbn zeta.
  apply (proj2 (@restock_partial_resolves_listed_rows 4 scenario_partial checked_db
                  (snd (handle 4 (POST_restocks_partial scenario_partial) checked_db))
                  (match fst (handle 4 (POST_restocks_partial scenario_partial) checked_db)
                   with Return o => o | Raise _ => dropoff_response 0 end)
                  (RestockTaskItem.mk 1 1 1 (Some 4) (Some "used in case"%string)
                                      false None None)
                  reachable_checked_db
                  ltac:(vm_compute; reflexivity)
                  ltac:(vm_compute; left; reflexivity))
               (RestockTask.mk 1 1 RestockStatus.open 3 3) []
               (RestockPartialItem.mk 1 (Some 6)) []);
    try reflexivity.
  intros x [].
Defined.

(* ================================================================= *)
(** ** The priority listing of a reachable store *)

Lemma reachable_tray_state (db : DB) (tray : Tray.t) :
  reachable db -> In tray (trays db) -> color_fresh tray /\ numeric_in_range tray.
Proof.
  intros Hr. revert tray. revert db Hr.
  apply (@reachable_transition_ind
           (fun db => forall tray, In tray (trays db) ->
                                   color_fresh tray /\ numeric_in_range tray)).
  - intros tray [].
  - intros d d' _ IH Ht tray.
    destruct (transition_trays Ht) as [E|[[p [_ [Hn E]]]|[t [t' [Hin [Hu E]]]]]];
      rewrite E.
    + apply IH.
    + rewrite in_app_iff. intros [H|[<-|[]]]; [now apply IH|].
      split; [reflexivity|intros n; discriminate].
    + intros H. apply in_update_where in H. destruct H as [x [Hx ->]].
      destruct (Tray.id x =? Tray.id t); [|now apply IH].
      split; [eapply tray_update_color_fresh; eauto|].
      eapply tray_update_numeric_in_range; eauto. now apply IH.
Qed.

Lemma strongly_sorted_between {A : Type} (R : A -> A -> Prop) (l1 l2 l3 : list A)
    (a b : A) :
  StronglySorted R (l1 ++ a :: l2 ++ b :: l3) -> R a b.
Proof.
  induction l1 as [|x l1 IH]; cbn; intros H.
  - apply StronglySorted_inv in H. destruct H as [_ H].
    rewrite Forall_forall in H. apply H. apply in_or_app. right. now left.
  - apply StronglySorted_inv in H. now apply IH.
Qed.

(** X28.  In the priority listing of a reachable store no ready tray comes
    before a tray that is waiting with a numeric priority: if [GET /trays]
    sorted by priority lists a ready tray and, somewhere after it, a tray
    that is not ready, then that tray has no numeric priority. *)
Theorem urgent_trays_are_listed_before_ready_ones (lower : string -> string) (db : DB)
    (listing : list TrayOut) (l1 l2 l3 : list Tray.t) (a b : Tray.t) :
  reachable db ->
  with_Session (GET.list_trays lower sort_priority None 0) db = (Return listing, db) ->
  map out_tray listing = l1 ++ a :: l2 ++ b :: l3 ->
  Tray.status a = ready -> Tray.status b <> ready ->
  Tray.priority_numeric b = None.
Proof.
  intros Hr Hl El Ha Hb.
  rewrite list_trays_run in Hl by reflexivity. injection Hl as <-.
  rewrite map_map in El. cbn [out_tray tray_out] in El. rewrite map_id in El.
  cbn [paginate] in El. change (0 >? 0) with false in El. cbn iota in El.
  set (sorted := stable_sort (GET.key_le lower sort_priority) (trays db)) in *.
  assert (Hs : StronglySorted
                 (fun x y => prio_rank (Tray.color x) <= prio_rank (Tray.color y)) sorted).
  { apply (prio_rank_sorted lower). apply stable_sort_sorted. apply key_le_total. }
  assert (Hperm : Permutation sorted (trays db)) by apply stable_sort_perm.
  assert (Hina : In a (trays db)).
  { apply (Permutation_in _ Hperm). rewrite El. apply in_or_app. right. now left. }
  assert (Hinb : In b (trays db)).
  { apply (Permutation_in _ Hperm). rewrite El. apply in_or_app. right. right.
    apply in_or_app. right. now left. }
  rewrite El in Hs. apply strongly_sorted_between in Hs.
  destruct (@reachable_tray_state db a Hr Hina) as [Ca _].
  destruct (@reachable_tray_state db b Hr Hinb) as [Cb Rb].
  unfold color_fresh in Ca, Cb. rewrite Ca, Cb, Ha in Hs. cbn [TrayStatus_eqb map_color] in Hs.
  destruct (Tray.priority_numeric b) as [n|] eqn:En; [|reflexivity]. exfalso.
  specialize (Rb n En).
  assert (Eb : TrayStatus_eqb (Tray.status b) ready = false)
    by (destruct (Tray.status b); [contradiction|reflexivity|reflexivity]).
  rewrite Eb in Hs. unfold map_color in Hs.
  assert (Hn : n = 1 \/ n = 2 \/ n = 3) by lia.
  destruct Hn as [-> | [-> | ->]]; vm_compute in Hs; apply Hs; reflexivity.
Qed.

Lemma urgent_trays_are_listed_before_ready_ones_witness :
  let a := Tray.mk 1 "Spine set" ready None false "green" None None None None None None in
  let b := Tray.mk 2 "Hip set" needs_restock None false "green"
                   (Some 0%Q) (Some 0%Q) (Some 4) None None None in
  fst (with_Session (GET.list_trays (fun s => s) sort_priority None 0) two_trays_db)
  = Return [tray_out a two_trays_db; tray_out b two_trays_db]
  /\ Tray.priority_numeric b = None.
Proof.
  cbn zeta. split; [vm_compute; reflexivity|].
  apply (@urgent_trays_are_listed_before_ready_ones (fun s => s) two_trays_db
           [tray_out (Tray.mk 1 "Spine set" ready None false "green"
                              None None None None None None) two_trays_db;
            tray_out (Tray.mk 2 "Hip set" needs_restock None false "green"
                              (Some 0%Q) (Some 0%Q) (Some 4) None None None) two_trays_db]
           [] [] []
           (Tray.mk 1 "Spine set" ready None false "green" None None None None None None)
           (Tray.mk 2 "Hip set" needs_restock None false "green"
                    (Some 0%Q) (Some 0%Q) (Some 4) None None None)).
  - apply reachable_run. apply reachable_empty.
  - vm_compute. reflexivity.
  - reflexivity.
  - reflexivity.
  - discriminate.
Defined.

(* ================================================================= *)
(** ** The get-or-create under two threads *)

(** The two parts are [ensure_open_restock_task] and [inventory_check]:
    run one after the other by one thread they are the functions
    themselves. *)
Lemma ensure_open_restock_task_cut (now tray_id : Z) (s : Session) :
  ensure_open_restock_task now tray_id s
  = (found <- select_open_task tray_id ;; add_task_if_none now tray_id found) s.
Proof. reflexivity. Qed.

Lemma inventory_check_cut (now : Z) (p : InventoryCheckRequest.t) (s : Session) :
  inventory_check now p s
  = (x <- inventory_check_to_select p ;;
     inventory_check_from_select now p (fst x) (snd x)) s.
Proof.
  unfold inventory_check, inventory_check_to_select, inventory_check_from_select, bind.
  destruct (get_tray_or_404 (InventoryCheckRequest.tray_id p) s) as [[tray|e] s'];
    [|reflexivity].
  destruct (InventoryCheckRequest.items p) as [|it items]; reflexivity.
Qed.

(** Without the other thread the schedule is one request after the other. *)
Lemma one_check_alone (now : Z) (p : InventoryCheckRequest.t) (db : DB) :
  (let s := {| committed := db; pending := db |} in
   let (a, s) := inventory_check_to_select p s in
   let (out, s) :=
     resume a (fun x => inventory_check_from_select now p (fst x) (snd x)) s in
   (out, committed (close_session s)))
  = with_Session (inventory_check now p) db.
Proof.
  unfold with_Session. rewrite inventory_check_cut. unfold bind at 1.
  destruct (inventory_check_to_select p {| committed := db; pending := db |})
    as [[x|e] s']; cbn [resume]; [|reflexivity].
  destruct (inventory_check_from_select now p (fst x) (snd x) s'); reflexivity.
Qed.

(** C4.  The code breaks the claim when two inventory checks for one tray
    are served at the same time.  On the store with tray 1, its item 1 and
    no task, which is reachable and has no open task for the tray, the two
    requests of the scenario, scheduled so that both run the SELECT of
    [ensure_open_restock_task] before either inserts, both return normally
    and leave two open tasks for tray 1, each with an unresolved row. *)
Theorem concurrent_checks_open_two_tasks :
  reachable seeded_db
  /\ first_open_task seeded_db 1 = None
  /\ valid_InventoryCheckRequest scenario_check = true
  /\ exists outA outB db',
       two_checks_interleaved 3 4 scenario_check scenario_check seeded_db
       = (Return outA, Return outB, db')
       /\ filter (open_task_of 1) (restock_tasks db')
          = [RestockTask.mk 1 1 RestockStatus.open 3 3;
             RestockTask.mk 2 1 RestockStatus.open 4 4]
       /\ open_items db' 1 <> [] /\ open_items db' 2 <> []
       /\ ~ (List.length (filter (open_task_of 1) (restock_tasks db')) <= 1)%nat.
Proof.
  split; [apply reachable_seeded_db|].
  split; [reflexivity|]. split; [vm_compute; reflexivity|].
  eexists. eexists. eexists. split; [vm_compute; reflexivity|].
  split; [vm_compute; reflexivity|].
  split; [vm_compute; discriminate|]. split; [vm_compute; discriminate|].
  intros H. vm_compute in H. lia.
Qed.
